(** * AROSICS global co-registration (arosics/CoReg.py): a shallow embedding

    The development follows the class [COREG] of [src/arosics/CoReg.py]:
    the Python helpers the module relies on (slices, [int()], [max]), the
    numpy array operations it calls, the error handler, the constructor
    steps that choose the matching grid and check the overlap, the
    phase-correlation engine with its validation loop, and the shift
    report with its inverted copy.

    Numbers.  Pixel sizes, spectrum cells and shifts are Python/numpy
    floats.  The code is written against the scalar interface [Numeric]
    below; it is instantiated with exact rationals ([Q], used where a
    statement needs the order of the numbers) and with binary64 floats
    ([PrimFloat], used to run the code where not-a-number matters).

    Collaborators.  FFTs, shapely geometry, GDAL rasters, the SSIM measure
    and the de-shifter are not part of the module; they enter as interfaces
    ([NumpyStats], [Geometry], [Pipeline]), with stand-ins in [Example] to
    run the code on concrete inputs. *)

From Stdlib Require Import ZArith QArith Qabs Qminmax Lia Lqa Bool.
From Stdlib Require Import Floats.PrimFloat Numbers.Cyclic.Int63.Uint63.
From stdpp Require Import gmap strings list.

Local Open Scope Z_scope.

(** ** Scalars *)

(** The scalar operations the module applies to floats. *)
Class Numeric (F : Type) := {
  of_Z : Z -> F;              (* an int literal or an int operand, coerced *)
  fadd : F -> F -> F;
  fsub : F -> F -> F;
  fmul : F -> F -> F;
  fdiv : F -> F -> F;
  fabs : F -> F;
  fgtb : F -> F -> bool;      (* a > b *)
  fltb : F -> F -> bool;      (* a < b *)
  fleb : F -> F -> bool;      (* a <= b *)
  feqb : F -> F -> bool       (* a == b *)
}.

(** What the statements about "the larger value" need from [>]. *)
Class NumericOrder (F : Type) `{Numeric F} : Prop := {
  fgtb_asym : forall a b : F, fgtb a b = true -> fgtb b a = false
}.

#[global] Instance Q_Numeric : Numeric Q := {
  of_Z := inject_Z;
  fadd := Qplus;
  fsub := Qminus;
  fmul := Qmult;
  fdiv := Qdiv;
  fabs := Qabs;
  fgtb := fun a b => negb (Qle_bool a b);
  fltb := fun a b => negb (Qle_bool b a);
  fleb := Qle_bool;
  feqb := Qeq_bool
}.

Definition float_of_Z (z : Z) : float :=
  match z with
  | Z0 => PrimFloat.of_uint63 0%uint63
  | Zpos _ => PrimFloat.of_uint63 (Uint63.of_Z z)
  | Zneg p => PrimFloat.opp (PrimFloat.of_uint63 (Uint63.of_Z (Zpos p)))
  end.

#[global] Instance float_Numeric : Numeric float := {
  of_Z := float_of_Z;
  fadd := PrimFloat.add;
  fsub := PrimFloat.sub;
  fmul := PrimFloat.mul;
  fdiv := PrimFloat.div;
  fabs := PrimFloat.abs;
  fgtb := fun a b => PrimFloat.ltb b a;
  fltb := PrimFloat.ltb;
  fleb := PrimFloat.leb;
  feqb := PrimFloat.eqb
}.

(** ** Python and numpy helpers *)

Module Py.

(** [int(x)] on a float: truncation toward zero.  The arguments in this
    module are halves of integers, which binary64 holds exactly. *)
Definition int (q : Q) : Z := Z.quot (Qnum q) (Z.pos (Qden q)).

(** [n / 2] on an int (true division). *)
Definition half (n : Z) : Q := n # 2.

(** [min(a, b)] on two numbers: the first unless the second is smaller. *)
Definition qmin (a b : Q) : Q := if Qle_bool a b then a else b.

(** A slice bound [i] of a sequence of length [n], as [slice.indices]
    normalises it: a negative bound counts from the end, and the result is
    clamped to [0, n]. *)
Definition slice_bound (n : nat) (i : Z) : nat :=
  if i <? 0 then Z.to_nat (Z.max 0 (i + Z.of_nat n))
  else Z.to_nat (Z.min i (Z.of_nat n)).

(** [l[start:stop]]. *)
Definition slice {A} (start stop : Z) (l : list A) : list A :=
  let lo := slice_bound (length l) start in
  let hi := slice_bound (length l) stop in
  take (hi - lo) (drop lo l).

(** [len(range(n)[start:stop])]. *)
Definition slice_len (start stop : Z) (n : nat) : nat :=
  (slice_bound n stop - slice_bound n start)%nat.

(** Does the position [i] lie in [start:stop] of a sequence of length [n]? *)
Definition in_slice (n : nat) (start stop : Z) (i : nat) : bool :=
  (slice_bound n start <=? i)%nat && (i <? slice_bound n stop)%nat.

(** [l[i]] with a possibly negative index; [None] is [IndexError]. *)
Definition getitem {A} (l : list A) (i : Z) : option A :=
  if i <? 0 then
    (if 0 <=? i + Z.of_nat (length l) then l !! Z.to_nat (i + Z.of_nat (length l)) else None)
  else l !! Z.to_nat i.

(** [max(l)] / [min(l, key=...)] on a non-empty list: the first extremal
    element, replaced only by a strictly better one. *)
Definition max_by {A} (gt : A -> A -> bool) (l : list A) : option A :=
  match l with
  | [] => None
  | x :: t => Some (fold_left (fun best y => if gt y best then y else best) t x)
  end.

Definition min_key (key : Z -> Z) (l : list Z) : option Z :=
  max_by (fun y best => key y <? key best) l.

(** [max([a, b])]. *)
Definition max2 {A} (gt : A -> A -> bool) (a b : A) : A := if gt b a then b else a.

End Py.

(** ** numpy arrays *)

Section Arrays.
Context {F : Type} `{Numeric F}.

(** A two-dimensional array: its rows, and its column count (numpy keeps
    the column count of an array without rows). *)
Record ndarray := mk_ndarray { data : list (list F); width : nat }.

Definition wf_array (a : ndarray) : Prop :=
  Forall (fun row => length row = width a) (data a).

Definition height (a : ndarray) : nat := length (data a).

(** [a.shape], as (rows, columns). *)
Definition shape (a : ndarray) : Z * Z := (Z.of_nat (height a), Z.of_nat (width a)).

(** [a[r, c]] for in-range, non-negative positions. *)
Definition cell (a : ndarray) (r c : nat) : option F :=
  row ← data a !! r; row !! c.

(** [a[y0:y1, x0:x1]]. *)
Definition getslice2d (a : ndarray) (y0 y1 x0 x1 : Z) : ndarray :=
  {| data := Py.slice x0 x1 <$> Py.slice y0 y1 (data a);
     width := Py.slice_len x0 x1 (width a) |}.

(** [a[y0:y1, x0:x1] = v], in place: the array after the assignment. *)
Definition setslice2d (a : ndarray) (y0 y1 x0 x1 : Z) (v : F) : ndarray :=
  {| data := imap (fun r row =>
               if Py.in_slice (height a) y0 y1 r
               then imap (fun c x => if Py.in_slice (length row) x0 x1 c then v else x) row
               else row) (data a);
     width := width a |}.

(** [a.flatten()], row-major. *)
Definition flatten (a : ndarray) : list F := concat (data a).

(** [np.argmax] of a flat sequence: the first position of the maximum;
    [None] on an empty sequence ([ValueError]).  Stated for sequences
    without not-a-number cells. *)
Fixpoint argmax_from (l : list F) (i : nat) (best : F) (besti : nat) : nat :=
  match l with
  | [] => besti
  | x :: t => if fgtb x best then argmax_from t (S i) x i else argmax_from t (S i) best besti
  end.

Definition np_argmax (l : list F) : option nat :=
  match l with
  | [] => None
  | x :: t => Some (argmax_from t 1 x 0)
  end.

(** [np.max(a)]. *)
Definition np_max (a : ndarray) : option F := Py.max_by fgtb (flatten a).

(** [np.unravel_index(i, a.shape)]. *)
Definition unravel_index (i : nat) (a : ndarray) : nat * nat :=
  (i / width a, i mod width a)%nat.

End Arrays.
Arguments ndarray F : clear implicits.

(** ** Errors *)

(** The exceptions the modelled code raises, by type and message. *)
Inductive assertion : Type :=
  | ProjectionsNotEqual      (* 'Input projections are not equal. ...' *)
  | NoSpatialOverlap         (* 'The input images have no spatial overlap.' *)
  | OverlapCoversTooFewPixels(* 'Overlap area covers only %s pixels. ...' *)
  | WindowsNotContained      (* the two [within_equal] checks of the planner *)
  | AreaNotWithinArray       (* 'Requested area is not completely within the input array for %s.' *)
  | WindowShapesDiffer.      (* 'The reference and the target image must have the same dimensions.' *)

Inductive runtime_msg : Type :=
  | ShrinkingNotPossible     (* 'Matching window in target image is larger than overlap area ...' *)
  | InsufficientGrayValues   (* 'One of the input images does not have sufficient gray value information ...' *)
  | BadWindowOutput          (* 'Catched a possible ProgrammingError at window position ...' *)
  | MatchingWindowTooSmall   (* 'The matching window became too small for calculating a reliable match. ...' *)
  | ScpsTooSmall             (* 'Shifted cross power spectrum became too small ...' *)
  | NoMatchFound             (* 'No match found in the given window.' *)
  | ShiftTooLarge.           (* 'The calculated shift (X: %s px / Y: %s px) is recognized as too large ...' *)

Inductive error : Type :=
  | AssertionError (a : assertion)
  | RuntimeError (m : runtime_msg)
  | ValueError               (* np.argmax of an empty array *)
  | IndexError               (* an index out of range *)
  | KeyError                 (* a missing dict key *)
  | TypeError                (* arithmetic on None, subscript of a non-container *)
  | AttributeError.          (* an attribute of None *)

(** The error kinds of the specification (its section 7). *)
Inductive error_kind : Type :=
  | KInsufficientOverlap | KUnequalProjections | KWindowTooSmall | KShrinkageDeadlock
  | KNoMatchFound | KShiftTooLarge | KWindowMismatch.

Definition kind_of (e : error) : option error_kind :=
  match e with
  | AssertionError ProjectionsNotEqual => Some KUnequalProjections
  | AssertionError NoSpatialOverlap => Some KInsufficientOverlap
  | AssertionError OverlapCoversTooFewPixels => Some KInsufficientOverlap
  | AssertionError WindowShapesDiffer => Some KWindowMismatch
  | RuntimeError ShrinkingNotPossible => Some KShrinkageDeadlock
  | RuntimeError InsufficientGrayValues => Some KWindowTooSmall
  | RuntimeError BadWindowOutput => Some KWindowMismatch
  | RuntimeError MatchingWindowTooSmall => Some KWindowTooSmall
  | RuntimeError ScpsTooSmall => Some KWindowTooSmall
  | RuntimeError NoMatchFound => Some KNoMatchFound
  | RuntimeError ShiftTooLarge => Some KShiftTooLarge
  | _ => None
  end.

(** ** The COREG object *)

Inductive imID : Type := Ref | Shift.      (* 'ref' / 'shift' *)

Definition imID_eqb (a b : imID) : bool :=
  match a, b with Ref, Ref | Shift, Shift => true | _, _ => false end.

(** The constructor arguments the modelled code reads. *)
Record params := {
  ignErr : bool;               (* ignore_errors *)
  max_iter : Z;
  max_shift : Z;
  bin_ws : bool;               (* binary_ws *)
  force_quadratic_win : bool
}.

Section CoregData.
(** [F]: the floats; [polygon]: shapely polygons, an opaque type. *)
Context {F : Type} {polygon : Type}.

(** [GeoArray_CoReg]: the attributes of an input image the module reads. *)
Record raster := {
  prj : string;
  gt : F * F * F * F * F * F;
  xgsd : F;
  ygsd : F;
  poly : polygon
}.

(** [matchWin] / [otherWin]: the window data and the image it was read from. *)
Record window := { arr : ndarray F; win_imID : imID }.

(** The outcome of the two subset reads of [_get_image_windows_to_match]:
    the assertion on the requested area fails for the matching window, or
    for the other window (the matching window is set by then), or both
    windows are read. *)
Inductive windows_read : Type :=
  | MatchAreaOutside
  | OtherAreaOutside (mw : window)
  | WindowsRead (mw ow : window).

(** An ENVI map info list: numbers (also as numeric strings, which
    [float()] reads back exactly) and names. *)
Inductive mi : Type := MiNum (x : F) | MiStr (s : string).

(** Python values held by the shift report.  Lists and tuples are values
    here (the module assigns into fresh copies only); dicts are objects on
    the heap and are held by reference. *)
Definition loc := positive.

Inductive pyval : Type :=
  | VNone
  | VBool (b : bool)
  | VNum (x : F)
  | VStr (s : string)
  | VMapInfo (m : list mi)
  | VGt (g : F * F * F * F * F * F)
  | VGrid (g : list (list F))
  | VRef (l : loc).

Local Abbreviation pydict := (gmap string pyval).

(** The attributes of a [COREG] instance the modelled code reads or writes.
    [validate_calls] is a ghost counter of the calls of
    [_validate_integer_shifts]; [heap] holds the dict objects reachable from
    [_coreg_info]. *)
Record COREG := {
  cfg : params;
  ref : raster;
  shift : raster;
  grid2use : imID;
  overlap_poly : option polygon;
  overlap_percentage : option F;
  overlap_area : option F;
  imfft_gsd : option F;
  matchWin : option window;
  otherWin : option window;
  fftw_win_size_YX : option (Z * Z);
  x_shift_px : option F;
  y_shift_px : option F;
  x_shift_map : option F;
  y_shift_map : option F;
  updated_map_info : option (list mi);
  shift_reliability : option F;
  tracked_errors : list error;
  success : option bool;
  _coreg_info : option loc;
  heap : gmap loc pydict;
  validate_calls : nat
}.

Definition set_grid2use (g : imID) (s : COREG) : COREG :=
  {| cfg := cfg s;
     ref := ref s;
     shift := shift s;
     grid2use := g;
     overlap_poly := overlap_poly s;
     overlap_percentage := overlap_percentage s;
     overlap_area := overlap_area s;
     imfft_gsd := imfft_gsd s;
     matchWin := matchWin s;
     otherWin := otherWin s;
     fftw_win_size_YX := fftw_win_size_YX s;
     x_shift_px := x_shift_px s;
     y_shift_px := y_shift_px s;
     x_shift_map := x_shift_map s;
     y_shift_map := y_shift_map s;
     updated_map_info := updated_map_info s;
     shift_reliability := shift_reliability s;
     tracked_errors := tracked_errors s;
     success := success s;
     _coreg_info := _coreg_info s;
     heap := heap s;
     validate_calls := validate_calls s |}.

Definition set_overlap (p : polygon) (pc a : F) (s : COREG) : COREG :=
  {| cfg := cfg s;
     ref := ref s;
     shift := shift s;
     grid2use := grid2use s;
     overlap_poly := Some p;
     overlap_percentage := Some pc;
     overlap_area := Some a;
     imfft_gsd := imfft_gsd s;
     matchWin := matchWin s;
     otherWin := otherWin s;
     fftw_win_size_YX := fftw_win_size_YX s;
     x_shift_px := x_shift_px s;
     y_shift_px := y_shift_px s;
     x_shift_map := x_shift_map s;
     y_shift_map := y_shift_map s;
     updated_map_info := updated_map_info s;
     shift_reliability := shift_reliability s;
     tracked_errors := tracked_errors s;
     success := success s;
     _coreg_info := _coreg_info s;
     heap := heap s;
     validate_calls := validate_calls s |}.

Definition set_imfft_gsd (g : F) (s : COREG) : COREG :=
  {| cfg := cfg s;
     ref := ref s;
     shift := shift s;
     grid2use := grid2use s;
     overlap_poly := overlap_poly s;
     overlap_percentage := overlap_percentage s;
     overlap_area := overlap_area s;
     imfft_gsd := Some g;
     matchWin := matchWin s;
     otherWin := otherWin s;
     fftw_win_size_YX := fftw_win_size_YX s;
     x_shift_px := x_shift_px s;
     y_shift_px := y_shift_px s;
     x_shift_map := x_shift_map s;
     y_shift_map := y_shift_map s;
     updated_map_info := updated_map_info s;
     shift_reliability := shift_reliability s;
     tracked_errors := tracked_errors s;
     success := success s;
     _coreg_info := _coreg_info s;
     heap := heap s;
     validate_calls := validate_calls s |}.

Definition set_wins (m o : window) (s : COREG) : COREG :=
  {| cfg := cfg s;
     ref := ref s;
     shift := shift s;
     grid2use := grid2use s;
     overlap_poly := overlap_poly s;
     overlap_percentage := overlap_percentage s;
     overlap_area := overlap_area s;
     imfft_gsd := imfft_gsd s;
     matchWin := Some m;
     otherWin := Some o;
     fftw_win_size_YX := fftw_win_size_YX s;
     x_shift_px := x_shift_px s;
     y_shift_px := y_shift_px s;
     x_shift_map := x_shift_map s;
     y_shift_map := y_shift_map s;
     updated_map_info := updated_map_info s;
     shift_reliability := shift_reliability s;
     tracked_errors := tracked_errors s;
     success := success s;
     _coreg_info := _coreg_info s;
     heap := heap s;
     validate_calls := validate_calls s |}.

Definition set_matchWin (m : option window) (s : COREG) : COREG :=
  {| cfg := cfg s;
     ref := ref s;
     shift := shift s;
     grid2use := grid2use s;
     overlap_poly := overlap_poly s;
     overlap_percentage := overlap_percentage s;
     overlap_area := overlap_area s;
     imfft_gsd := imfft_gsd s;
     matchWin := m;
     otherWin := otherWin s;
     fftw_win_size_YX := fftw_win_size_YX s;
     x_shift_px := x_shift_px s;
     y_shift_px := y_shift_px s;
     x_shift_map := x_shift_map s;
     y_shift_map := y_shift_map s;
     updated_map_info := updated_map_info s;
     shift_reliability := shift_reliability s;
     tracked_errors := tracked_errors s;
     success := success s;
     _coreg_info := _coreg_info s;
     heap := heap s;
     validate_calls := validate_calls s |}.

Definition set_fftw_win_size_YX (ws : option (Z * Z)) (s : COREG) : COREG :=
  {| cfg := cfg s;
     ref := ref s;
     shift := shift s;
     grid2use := grid2use s;
     overlap_poly := overlap_poly s;
     overlap_percentage := overlap_percentage s;
     overlap_area := overlap_area s;
     imfft_gsd := imfft_gsd s;
     matchWin := matchWin s;
     otherWin := otherWin s;
     fftw_win_size_YX := ws;
     x_shift_px := x_shift_px s;
     y_shift_px := y_shift_px s;
     x_shift_map := x_shift_map s;
     y_shift_map := y_shift_map s;
     updated_map_info := updated_map_info s;
     shift_reliability := shift_reliability s;
     tracked_errors := tracked_errors s;
     success := success s;
     _coreg_info := _coreg_info s;
     heap := heap s;
     validate_calls := validate_calls s |}.

Definition set_shifts_px (xp yp : F) (s : COREG) : COREG :=
  {| cfg := cfg s;
     ref := ref s;
     shift := shift s;
     grid2use := grid2use s;
     overlap_poly := overlap_poly s;
     overlap_percentage := overlap_percentage s;
     overlap_area := overlap_area s;
     imfft_gsd := imfft_gsd s;
     matchWin := matchWin s;
     otherWin := otherWin s;
     fftw_win_size_YX := fftw_win_size_YX s;
     x_shift_px := Some xp;
     y_shift_px := Some yp;
     x_shift_map := x_shift_map s;
     y_shift_map := y_shift_map s;
     updated_map_info := updated_map_info s;
     shift_reliability := shift_reliability s;
     tracked_errors := tracked_errors s;
     success := success s;
     _coreg_info := _coreg_info s;
     heap := heap s;
     validate_calls := validate_calls s |}.

Definition set_shifts_map (xm ym : F) (s : COREG) : COREG :=
  {| cfg := cfg s;
     ref := ref s;
     shift := shift s;
     grid2use := grid2use s;
     overlap_poly := overlap_poly s;
     overlap_percentage := overlap_percentage s;
     overlap_area := overlap_area s;
     imfft_gsd := imfft_gsd s;
     matchWin := matchWin s;
     otherWin := otherWin s;
     fftw_win_size_YX := fftw_win_size_YX s;
     x_shift_px := x_shift_px s;
     y_shift_px := y_shift_px s;
     x_shift_map := Some xm;
     y_shift_map := Some ym;
     updated_map_info := updated_map_info s;
     shift_reliability := shift_reliability s;
     tracked_errors := tracked_errors s;
     success := success s;
     _coreg_info := _coreg_info s;
     heap := heap s;
     validate_calls := validate_calls s |}.

Definition set_updated_map_info (m : list mi) (s : COREG) : COREG :=
  {| cfg := cfg s;
     ref := ref s;
     shift := shift s;
     grid2use := grid2use s;
     overlap_poly := overlap_poly s;
     overlap_percentage := overlap_percentage s;
     overlap_area := overlap_area s;
     imfft_gsd := imfft_gsd s;
     matchWin := matchWin s;
     otherWin := otherWin s;
     fftw_win_size_YX := fftw_win_size_YX s;
     x_shift_px := x_shift_px s;
     y_shift_px := y_shift_px s;
     x_shift_map := x_shift_map s;
     y_shift_map := y_shift_map s;
     updated_map_info := Some m;
     shift_reliability := shift_reliability s;
     tracked_errors := tracked_errors s;
     success := success s;
     _coreg_info := _coreg_info s;
     heap := heap s;
     validate_calls := validate_calls s |}.

Definition set_shift_reliability (r : F) (s : COREG) : COREG :=
  {| cfg := cfg s;
     ref := ref s;
     shift := shift s;
     grid2use := grid2use s;
     overlap_poly := overlap_poly s;
     overlap_percentage := overlap_percentage s;
     overlap_area := overlap_area s;
     imfft_gsd := imfft_gsd s;
     matchWin := matchWin s;
     otherWin := otherWin s;
     fftw_win_size_YX := fftw_win_size_YX s;
     x_shift_px := x_shift_px s;
     y_shift_px := y_shift_px s;
     x_shift_map := x_shift_map s;
     y_shift_map := y_shift_map s;
     updated_map_info := updated_map_info s;
     shift_reliability := Some r;
     tracked_errors := tracked_errors s;
     success := success s;
     _coreg_info := _coreg_info s;
     heap := heap s;
     validate_calls := validate_calls s |}.

Definition set_success (b : option bool) (s : COREG) : COREG :=
  {| cfg := cfg s;
     ref := ref s;
     shift := shift s;
     grid2use := grid2use s;
     overlap_poly := overlap_poly s;
     overlap_percentage := overlap_percentage s;
     overlap_area := overlap_area s;
     imfft_gsd := imfft_gsd s;
     matchWin := matchWin s;
     otherWin := otherWin s;
     fftw_win_size_YX := fftw_win_size_YX s;
     x_shift_px := x_shift_px s;
     y_shift_px := y_shift_px s;
     x_shift_map := x_shift_map s;
     y_shift_map := y_shift_map s;
     updated_map_info := updated_map_info s;
     shift_reliability := shift_reliability s;
     tracked_errors := tracked_errors s;
     success := b;
     _coreg_info := _coreg_info s;
     heap := heap s;
     validate_calls := validate_calls s |}.

Definition append_error (e : error) (s : COREG) : COREG :=
  {| cfg := cfg s;
     ref := ref s;
     shift := shift s;
     grid2use := grid2use s;
     overlap_poly := overlap_poly s;
     overlap_percentage := overlap_percentage s;
     overlap_area := overlap_area s;
     imfft_gsd := imfft_gsd s;
     matchWin := matchWin s;
     otherWin := otherWin s;
     fftw_win_size_YX := fftw_win_size_YX s;
     x_shift_px := x_shift_px s;
     y_shift_px := y_shift_px s;
     x_shift_map := x_shift_map s;
     y_shift_map := y_shift_map s;
     updated_map_info := updated_map_info s;
     shift_reliability := shift_reliability s;
     tracked_errors := tracked_errors s ++ [e];
     success := success s;
     _coreg_info := _coreg_info s;
     heap := heap s;
     validate_calls := validate_calls s |}.

Definition set_report (c : option loc) (h : gmap loc pydict) (s : COREG) : COREG :=
  {| cfg := cfg s;
     ref := ref s;
     shift := shift s;
     grid2use := grid2use s;
     overlap_poly := overlap_poly s;
     overlap_percentage := overlap_percentage s;
     overlap_area := overlap_area s;
     imfft_gsd := imfft_gsd s;
     matchWin := matchWin s;
     otherWin := otherWin s;
     fftw_win_size_YX := fftw_win_size_YX s;
     x_shift_px := x_shift_px s;
     y_shift_px := y_shift_px s;
     x_shift_map := x_shift_map s;
     y_shift_map := y_shift_map s;
     updated_map_info := updated_map_info s;
     shift_reliability := shift_reliability s;
     tracked_errors := tracked_errors s;
     success := success s;
     _coreg_info := c;
     heap := h;
     validate_calls := validate_calls s |}.

Definition count_validate_call (s : COREG) : COREG :=
  {| cfg := cfg s;
     ref := ref s;
     shift := shift s;
     grid2use := grid2use s;
     overlap_poly := overlap_poly s;
     overlap_percentage := overlap_percentage s;
     overlap_area := overlap_area s;
     imfft_gsd := imfft_gsd s;
     matchWin := matchWin s;
     otherWin := otherWin s;
     fftw_win_size_YX := fftw_win_size_YX s;
     x_shift_px := x_shift_px s;
     y_shift_px := y_shift_px s;
     x_shift_map := x_shift_map s;
     y_shift_map := y_shift_map s;
     updated_map_info := updated_map_info s;
     shift_reliability := shift_reliability s;
     tracked_errors := tracked_errors s;
     success := success s;
     _coreg_info := _coreg_info s;
     heap := heap s;
     validate_calls := S (validate_calls s) |}.

(** *** Methods as state transformers that may raise *)

(** [OutOfFuel] belongs to the model only: the [while] loop of
    [calculate_spatial_shifts] is unrolled a bounded number of times, and
    [calculate_run] shows the bound is never hit. *)
Inductive result (A : Type) : Type :=
  | Ok (a : A) (s : COREG)          (* returned [a], the object is now [s] *)
  | Raised (e : error) (s : COREG)  (* raised [e], the object was left as [s] *)
  | OutOfFuel.
Arguments Ok {A} a s.
Arguments Raised {A} e s.
Arguments OutOfFuel {A}.

Definition M (A : Type) : Type := COREG -> result A.

Definition ret {A} (a : A) : M A := fun s => Ok a s.
Definition raise {A} (e : error) : M A := fun s => Raised e s.
Definition bind {A B} (m : M A) (k : A -> M B) : M B :=
  fun s => match m s with
           | Ok a s' => k a s'
           | Raised e s' => Raised e s'
           | OutOfFuel => OutOfFuel
           end.
Definition get : M COREG := fun s => Ok s s.
Definition modify (f : COREG -> COREG) : M unit := fun s => Ok tt (f s).
Definition py_assert (b : bool) (a : assertion) : M unit :=
  if b then ret tt else raise (AssertionError a).
Definition when (b : bool) (m : M unit) : M unit := if b then m else ret tt.
(** An operation of the interpreter that fails with [e] on [None]. *)
Definition or_raise {A} (e : error) (o : option A) : M A :=
  match o with Some a => ret a | None => raise e end.

End CoregData.
Arguments raster F polygon : clear implicits.
Arguments window F : clear implicits.
Arguments windows_read F : clear implicits.
Arguments mi F : clear implicits.
Arguments pyval F : clear implicits.
Arguments COREG F polygon : clear implicits.
Arguments result F polygon A : clear implicits.
Arguments M F polygon A : clear implicits.
Arguments Ok {F polygon A} a s.
Arguments Raised {F polygon A} e s.
Arguments OutOfFuel {F polygon A}.
Arguments MatchAreaOutside {F}.
Arguments OtherAreaOutside {F} mw.
Arguments WindowsRead {F} mw ow.
Arguments MiNum {F} x.
Arguments MiStr {F} s.
Arguments VNone {F}.
Arguments VBool {F} b.
Arguments VNum {F} x.
Arguments VStr {F} s.
Arguments VMapInfo {F} m.
Arguments VGt {F} g.
Arguments VGrid {F} g.
Arguments VRef {F} l.

Notation "x <- c1 ;; c2" := (bind c1 (fun x => c2))
  (at level 100, c1 at next level, right associativity).
Notation "c1 ;; c2" := (bind c1 (fun _ => c2))
  (at level 100, right associativity).

(** *** Collaborators *)

(** [np.mean] and [np.std] of the cells of an array, or of the unmasked
    cells of a masked array, in row-major order. *)
Class NumpyStats (F : Type) := {
  np_mean : list F -> F;
  np_std : list F -> F
}.

(** shapely and [py_tools_ds]: the truth value of a polygon (not empty),
    projection equality, the overlap of two footprints (polygon,
    percentage, area), pixel to map coordinates, the ENVI map info of a
    geotransform, and [GeoArray.xygrid_specs]. *)
Class Geometry (F polygon : Type) := {
  poly_nonempty : polygon -> bool;
  prj_equal : string -> string -> bool;
  get_overlap_polygon : polygon -> polygon -> polygon * F * F;
  imXY2mapXY : F * F -> F * F * F * F * F * F -> F * F;
  geotransform2mapinfo : F * F * F * F * F * F -> string -> list (mi F);
  xygrid_specs : raster F polygon -> list (list F)
}.

(** The data path of a run. *)
Class Pipeline (F polygon : Type) := {
  (** the window data of lines 762-821 of [_get_image_windows_to_match]: the
      matching window and the other window as read from the two images, the
      other window warped onto the grid of the matching window *)
  read_image_windows : COREG F polygon -> windows_read F;
  (** the FFT pipeline of [_calc_shifted_cross_power_spectrum] (lines
      899-940: forward FFTs with pyfftw or numpy, normalised cross power
      spectrum, inverse FFT, magnitude, [fftshift]) applied to the two
      cropped windows *)
  phase_correlation : ndarray F -> ndarray F -> ndarray F;
  (** [_validate_ssim_improvement] (lines 1128-1205) drives the SSIM
      measure and the de-shifter.  Of the attributes modelled here it can
      change the cached report (it reads [coreg_info] or calls
      [_get_inverted_coreg_info], line 1115) and the matching window
      (line 1165), and it may raise: the result is the error raised, if
      any, the report and the dict objects, and the matching window after
      the call *)
  _validate_ssim_improvement :
    COREG F polygon ->
    option error * (option positive * gmap positive (gmap string (pyval F)))
    * option (window F)
}.

Section Coreg.
Context {F polygon : Type} `{Numeric F} `{!NumpyStats F} `{!Geometry F polygon} `{!Pipeline F polygon}.

Local Abbreviation COREG := (COREG F polygon).
Local Abbreviation raster := (raster F polygon).
Local Abbreviation M := (M F polygon).
Local Abbreviation result := (result F polygon).
Local Abbreviation mi := (mi F).
Local Abbreviation window := (window F).
Local Abbreviation pydict := (gmap string (pyval F)).
Local Abbreviation pyval := (pyval F).

(** *** Error tracking (lines 313-333) *)

Definition _handle_error (e : error) : M unit := fun s =>
  let s := append_error e s in         (* self.tracked_errors.append(error) *)
  let s := set_success (Some false) s in (* self.success = False *)
  if negb (ignErr (cfg s)) then Raised e s  (* if not self.ignErr: raise error *)
  else Ok tt s.

(** *** Constructor steps (lines 283-290, 404-423) *)

Definition _get_image_params : M unit :=
  s <- get ;;
  py_assert (prj_equal (prj (ref s)) (prj (shift s))) ProjectionsNotEqual.

(** Line 286. *)
Definition grid2use_of (r t : raster) : imID :=
  if fleb (xgsd t) (xgsd r) then Ref else Shift.

Definition _get_overlap_properties : M unit :=
  s <- get ;;
  let '(ov_poly, ov_percentage, ov_area) := get_overlap_polygon (poly (ref s)) (poly (shift s)) in
  modify (set_overlap ov_poly ov_percentage ov_area) ;;
  py_assert (poly_nonempty ov_poly) NoSpatialOverlap ;;
  let px_area := if imID_eqb (grid2use s) Ref
                 then fmul (xgsd (ref s)) (ygsd (ref s))
                 else fmul (xgsd (shift s)) (ygsd (shift s)) in
  let px_covered := fdiv ov_area px_area in
  py_assert (fgtb px_covered (of_Z (16 * 16))) OverlapCoversTooFewPixels.

(** The attribute defaults of lines 228-281; [grid2use] has no value before
    line 286 and is not read before. *)
Definition new_COREG (p : params) (im_ref im_tgt : raster) : COREG :=
  {| cfg := p; ref := im_ref; shift := im_tgt; grid2use := Ref;
     overlap_poly := None; overlap_percentage := None; overlap_area := None;
     imfft_gsd := None; matchWin := None; otherWin := None;
     fftw_win_size_YX := None;
     x_shift_px := None; y_shift_px := None; x_shift_map := None; y_shift_map := None;
     updated_map_info := None; shift_reliability := None;
     tracked_errors := []; success := None;
     _coreg_info := None; heap := ∅; validate_calls := 0 |}.

(** [__init__] up to the overlap check (line 290); the two images are given
    as [GeoArray_CoReg] read them.  The output paths of line 284 are not
    part of the state. *)
Definition __init__ (p : params) (im_ref im_tgt : raster) : result unit :=
  (_get_image_params ;;
   s <- get ;;
   modify (set_grid2use (grid2use_of (ref s) (shift s))) ;;
   _get_overlap_properties) (new_COREG p im_ref im_tgt).

(** *** Window planning: the checks that close [_get_clip_window_properties]
    (lines 725-751).  The boxes come from the shapely/boxObj arithmetic of
    lines 672-724, summarised by what these lines read of them. *)
Record planned := {
  shrinking_stalled : bool;        (* the condition of line 725 was met *)
  matchBox_imDimsYX : Z * Z;
  otherBox_imDimsYX : Z * Z;
  match_within_other : bool;       (* within_equal(matchBox.mapPoly, otherBox.mapPoly) *)
  other_within_overlap : bool      (* within_equal(otherBox.mapPoly, overlapWin.mapPoly) *)
}.

Definition check_winBox (dims : Z * Z) : M unit :=
  when ((dims.1 <? 16) || (dims.2 <? 16)) (_handle_error (RuntimeError InsufficientGrayValues)).

Definition _get_clip_window_properties (g : planned) : M unit :=
  when (shrinking_stalled g) (_handle_error (RuntimeError ShrinkingNotPossible)) ;;
  check_winBox (matchBox_imDimsYX g) ;;
  check_winBox (otherBox_imDimsYX g) ;;
  s <- get ;;
  match success s with
  | Some false => ret tt
  | _ =>
      py_assert (match_within_other g) WindowsNotContained ;;
      py_assert (other_within_overlap g) WindowsNotContained ;;
      modify (set_imfft_gsd (if imID_eqb (grid2use s) Ref then xgsd (ref s) else xgsd (shift s)))
  end.

(** *** The phase-correlation engine *)

(** Lines 839-858 (a static method). *)
Definition binarySizes : list Z := (fun i => 2 ^ i) <$> seqZ 3 11.

Definition _shrink_winsize_to_binarySize (win_shape_YX : Z * Z) (target_size : option (Z * Z))
  : option (Z * Z) :=
  let possibSizes_X := List.filter (fun i => i <=? win_shape_YX.2) binarySizes in
  let possibSizes_Y := List.filter (fun i => i <=? win_shape_YX.1) binarySizes in
  match Py.max_by Z.gtb possibSizes_X, Py.max_by Z.gtb possibSizes_Y with
  | Some max_X, Some max_Y =>          (* both lists are non-empty *)
      let '(tgt_size_X, tgt_size_Y) :=
        match target_size with Some t => t | None => (max_X, max_Y) end in
      match Py.min_key (fun x => Z.abs (x - tgt_size_X)) possibSizes_X,
            Py.min_key (fun y => Z.abs (y - tgt_size_Y)) possibSizes_Y with
      | Some closest_to_target_X, Some closest_to_target_Y =>
          Some (closest_to_target_Y, closest_to_target_X)
      | _, _ => None
      end
  | _, _ => None
  end.

(** Lines 878-879: the size of the FFT window for inputs of shape [sh]. *)
Definition fft_window_size (p : params) (sh : Z * Z) : option (Z * Z) :=
  let wsYX := if bin_ws p then _shrink_winsize_to_binarySize sh None else Some sh in
  match wsYX with
  | Some (y, x) => if force_quadratic_win p then Some (Z.min y x, Z.min y x) else Some (y, x)
  | None => None
  end.

(** Lines 888-893: the centred crop of a window to the size [wsYX]. *)
Definition center_crop (im : ndarray F) (wsYX : Z * Z) : ndarray F :=
  let center_Y := Py.half (shape im).1 in
  let center_X := Py.half (shape im).2 in
  let xmin := Py.int (center_X - Py.half wsYX.2)%Q in
  let xmax := Py.int (center_X + Py.half wsYX.2)%Q in
  let ymin := Py.int (center_Y - Py.half wsYX.1)%Q in
  let ymax := Py.int (center_Y + Py.half wsYX.1)%Q in
  getslice2d im ymin ymax xmin xmax.

Definition shape_eqb (a b : Z * Z) : bool := (a.1 =? b.1) && (a.2 =? b.2).

(** Lines 860-953, called with both images given. *)
Definition _calc_shifted_cross_power_spectrum (im0 im1 : ndarray F) : M (option (ndarray F)) :=
  py_assert (shape_eqb (shape im0) (shape im1)) WindowShapesDiffer ;;
  s <- get ;;
  let wsYX := fft_window_size (cfg s) (shape im0) in
  scps <- match wsYX with
          | Some ws =>
              if shape_eqb ws (0, 0)
              then _handle_error (RuntimeError MatchingWindowTooSmall) ;; ret None
              else ret (Some (phase_correlation (center_crop im0 ws) (center_crop im1 ws)))
          | None => _handle_error (RuntimeError MatchingWindowTooSmall) ;; ret None
          end ;;
  modify (set_fftw_win_size_YX wsYX) ;;
  ret scps.

(** Lines 955-963; [None] is the [ValueError] of [np.argmax] on an empty array. *)
Definition _get_peakpos (scps : ndarray F) : option (nat * nat) :=
  max_flat_idx ← np_argmax (flatten scps);
  Some (unravel_index max_flat_idx scps).

(** Lines 965-969. *)
Definition _get_shifts_from_peakpos (peakpos : nat * nat) (arr_shape : Z * Z) : Z * Z :=
  let y_shift := Z.of_nat peakpos.1 - arr_shape.1 / 2 in
  let x_shift := Z.of_nat peakpos.2 - arr_shape.2 / 2 in
  (x_shift, y_shift).

(** Lines 971-979. *)
Definition get_bounds (YX : Q * Q) (wsY wsX : Q) : Z * Z * Z * Z :=
  (Py.int (YX.2 - wsX / 2)%Q, Py.int (YX.2 + wsX / 2)%Q,
   Py.int (YX.1 - wsY / 2)%Q, Py.int (YX.1 + wsY / 2)%Q).

Definition _clip_image (im : ndarray F) (center_YX : Q * Q) (winSzYX : Q * Q) : ndarray F :=
  let '(wsY, wsX) := winSzYX in
  let '(xmin, xmax, ymin, ymax) := get_bounds center_YX wsY wsX in
  getslice2d im ymin ymax xmin xmax.

(** Lines 981-1007. *)
Definition _get_grossly_deshifted_images (p : params) (im0 im1 : ndarray F)
    (x_intshift y_intshift : Z) : ndarray F * ndarray F :=
  let old_center_YX := (Py.half (shape im0).1, Py.half (shape im0).2) in
  let new_center_YX := (old_center_YX.1 + inject_Z y_intshift,
                        old_center_YX.2 + inject_Z x_intshift)%Q in
  let x_left := new_center_YX.2 in
  let x_right := (inject_Z (shape im0).2 - new_center_YX.2)%Q in
  let y_above := new_center_YX.1 in
  let y_below := (inject_Z (shape im0).1 - new_center_YX.1)%Q in
  let maxposs_winsz_x := (2 * Py.qmin x_left x_right)%Q in
  let maxposs_winsz_y := (2 * Py.qmin y_above y_below)%Q in
  let '(maxposs_winsz_x, maxposs_winsz_y) :=
    if force_quadratic_win p
    then (Py.qmin maxposs_winsz_x maxposs_winsz_y, Py.qmin maxposs_winsz_x maxposs_winsz_y)
    else (maxposs_winsz_x, maxposs_winsz_y) in
  let gdsh_im0 := _clip_image im0 new_center_YX (maxposs_winsz_y, maxposs_winsz_x) in
  let crsp_im1 := _clip_image im1 (Py.half (shape im1).1, Py.half (shape im1).2)
                    (inject_Z (shape gdsh_im0).1, inject_Z (shape gdsh_im0).2) in
  (gdsh_im0, crsp_im1).

(** Lines 1009-1032; [None] is an [IndexError]. *)
Record sidemax := { value : F; side : string; direction_factor : Z }.

Definition _find_side_maximum (scps : ndarray F) : option (sidemax * sidemax) :=
  let peakR := (shape scps).1 / 2 in
  let peakC := (shape scps).2 / 2 in
  profileX ← data scps !! Z.to_nat peakR;
  profileY ← mapM (fun row => row !! Z.to_nat peakC) (data scps);
  sm_left ← Py.getitem profileX (peakC - 1);
  sm_right ← Py.getitem profileX (peakC + 1);
  sm_above ← Py.getitem profileY (peakR - 1);
  sm_below ← Py.getitem profileY (peakR + 1);
  let sidemax_lr := {| value := Py.max2 fgtb sm_left sm_right;
                       side := if fgtb sm_left sm_right then "left" else "right";
                       direction_factor := if fgtb sm_left sm_right then -1 else 1 |} in
  let sidemax_ab := {| value := Py.max2 fgtb sm_above sm_below;
                       side := if fgtb sm_above sm_below then "above" else "below";
                       direction_factor := if fgtb sm_above sm_below then -1 else 1 |} in
  Some (sidemax_lr, sidemax_ab).

(** Lines 1034-1037. *)
Definition _calc_integer_shifts (scps : ndarray F) : option (Z * Z) :=
  peakpos ← _get_peakpos scps;
  Some (_get_shifts_from_peakpos peakpos (shape scps)).

(** Lines 1039-1063.  The array is changed in place ([scps_masked] is a
    second name of the argument, not a copy): the result is the confidence
    together with the caller's array after the call. *)
Definition _calc_shift_reliability (scps : ndarray F) : option (F * ndarray F) :=
  peak ← _get_peakpos scps;
  let peakR := Z.of_nat peak.1 in
  let peakC := Z.of_nat peak.2 in
  let power_at_peak :=
    np_mean (flatten (getslice2d scps (peakR - 1) (peakR + 2) (peakC - 1) (peakC + 2))) in
  let scps := setslice2d scps (peakR - 1) (peakR + 2) (peakC - 1) (peakC + 2) (of_Z (-9999)) in
  let scps_masked := List.filter (fun x => negb (feqb x (of_Z (-9999)))) (flatten scps) in
  let power_without_peak := fadd (np_mean scps_masked) (fmul (of_Z 2) (np_std scps_masked)) in
  let confid := fsub (of_Z 100) (fmul (fdiv power_without_peak power_at_peak) (of_Z 100)) in
  let confid := if fgtb confid (of_Z 100) then of_Z 100
                else if fltb confid (of_Z 0) then of_Z 0 else confid in
  Some (confid, scps).

(** Lines 1091-1095; [None] is the [IndexError] of [_find_side_maximum]. *)
Definition _calc_subpixel_shifts (scps : ndarray F) : option (F * F) :=
  sm ← _find_side_maximum scps;
  let '(sidemax_lr, sidemax_ab) := sm in
  mx ← np_max scps;
  let x_subshift := fdiv (fmul (of_Z (direction_factor sidemax_lr)) (value sidemax_lr))
                         (fadd mx (value sidemax_lr)) in
  let y_subshift := fdiv (fmul (of_Z (direction_factor sidemax_ab)) (value sidemax_ab))
                         (fadd mx (value sidemax_ab)) in
  Some (x_subshift, y_subshift).

(** Lines 1097-1099. *)
Definition _get_total_shifts (x_intshift y_intshift : Z) (x_subshift y_subshift : F) : F * F :=
  (fadd (of_Z x_intshift) x_subshift, fadd (of_Z y_intshift) y_subshift).

(** Lines 754-837.  The assertion of line 837 holds once line 833 has
    sliced the two arrays, and the boxes of lines 834-835 are not part of
    the state. *)
Definition even_dim (i : Z) : Z := if i mod 2 =? 0 then i else i - 1.

Definition _get_image_windows_to_match : M unit :=
  s <- get ;;
  match read_image_windows s with
  | MatchAreaOutside => raise (AssertionError AreaNotWithinArray)
  | OtherAreaOutside mw =>
      modify (set_matchWin (Some mw)) ;;
      raise (AssertionError AreaNotWithinArray)
  | WindowsRead mw ow =>
      modify (set_wins mw ow) ;;
      when (negb (shape_eqb (shape (arr mw)) (shape (arr ow))))
           (_handle_error (RuntimeError BadWindowOutput)) ;;
      let rows := even_dim (shape (arr mw)).1 in
      let cols := even_dim (shape (arr mw)).2 in
      modify (set_wins {| arr := getslice2d (arr mw) 0 rows 0 cols; win_imID := win_imID mw |}
                       {| arr := getslice2d (arr ow) 0 rows 0 cols; win_imID := win_imID ow |})
  end.

(** Lines 1065-1089.  The result is ('valid' or 'invalid', the shifts or
    (None, None), the spectrum or None). *)
Record vresult := {
  is_valid : bool;
  val_shift : option (Z * Z);
  val_scps : option (ndarray F)
}.

Definition _validate_integer_shifts (im0 im1 : ndarray F) (x_intshift y_intshift : Z)
  : M vresult :=
  modify count_validate_call ;;
  if negb ((x_intshift =? 0) && (y_intshift =? 0)) then
    s <- get ;;
    let '(gdsh_im0, crsp_im1) :=
      _get_grossly_deshifted_images (cfg s) im0 im1 x_intshift y_intshift in
    scps <- _calc_shifted_cross_power_spectrum gdsh_im0 crsp_im1 ;;
    match scps with
    | Some a =>
        if ((shape a).1 <? 3) || ((shape a).2 <? 3) then
          _handle_error (RuntimeError ScpsTooSmall) ;;
          ret {| is_valid := false; val_shift := None; val_scps := scps |}
        else
          peakpos <- or_raise ValueError (_get_peakpos a) ;;
          let '(x_shift, y_shift) := _get_shifts_from_peakpos peakpos (shape a) in
          if (x_shift =? 0) && (y_shift =? 0)
          then ret {| is_valid := true; val_shift := Some (0, 0); val_scps := scps |}
          else ret {| is_valid := false; val_shift := Some (x_shift, y_shift); val_scps := scps |}
    | None => ret {| is_valid := false; val_shift := None; val_scps := scps |}
    end
  else ret {| is_valid := true; val_shift := Some (0, 0); val_scps := None |}.

(** The local variables of [calculate_spatial_shifts] the loop works on. *)
Record locals := {
  valid_invalid : bool;                  (* valid_invalid == 'valid' *)
  xy_val_shift : option (Z * Z);         (* x_val_shift, y_val_shift *)
  scps : option (ndarray F);
  x_intshift : Z;
  y_intshift : Z;
  count_iter : Z
}.

(** Lines 1274-1296: the [while] loop, unrolled at most [fuel] times. *)
Fixpoint validation_loop (fuel : nat) (im0 im1 : ndarray F) (L : locals) : M locals :=
  if valid_invalid L then ret L
  else
    let count_iter := count_iter L + 1 in
    let L := {| valid_invalid := valid_invalid L; xy_val_shift := xy_val_shift L;
                scps := scps L; x_intshift := x_intshift L; y_intshift := y_intshift L;
                count_iter := count_iter |} in
    s <- get ;;
    if count_iter >? max_iter (cfg s) then
      _handle_error (RuntimeError NoMatchFound) ;; ret L             (* break *)
    else
      match xy_val_shift L with
      | None => modify (set_success (Some false)) ;; ret L           (* break *)
      | Some (x_val_shift, y_val_shift) =>
          match fuel with
          | O => fun _ => OutOfFuel
          | S fuel =>
              v <- _validate_integer_shifts im0 im1 x_val_shift y_val_shift ;;
              when (is_valid v) (modify (set_success (Some true))) ;;
              let xy := match is_valid v, val_shift v with
                        | true, Some xy => xy
                        | _, _ => (x_intshift L, y_intshift L)
                        end in
              validation_loop fuel im0 im1
                {| valid_invalid := is_valid v; xy_val_shift := val_shift v;
                   scps := val_scps v; x_intshift := xy.1; y_intshift := xy.2;
                   count_iter := count_iter |}
          end
      end.

(** Lines 1261-1296: integer shifts and their validation. *)
Definition integer_shift_stage (im0 im1 scps0 : ndarray F) : M locals :=
  let count_iter := 1 in
  xy <- or_raise ValueError (_calc_integer_shifts scps0) ;;
  let '(x_intshift, y_intshift) := xy in
  if (x_intshift =? 0) && (y_intshift =? 0) then
    modify (set_success (Some true)) ;;
    ret {| valid_invalid := true; xy_val_shift := None; scps := Some scps0;
           x_intshift := x_intshift; y_intshift := y_intshift; count_iter := count_iter |}
  else
    v <- _validate_integer_shifts im0 im1 x_intshift y_intshift ;;
    s <- get ;;
    validation_loop (Z.to_nat (max_iter (cfg s))) im0 im1
      {| valid_invalid := is_valid v; xy_val_shift := val_shift v; scps := val_scps v;
         x_intshift := x_intshift; y_intshift := y_intshift; count_iter := count_iter |}.

(** Lines 1298-1338: sub-pixel shifts, the limit on the shift, the results.
    ([vec_length_map] and [vec_angle_deg], lines 1320-1324, are derived from
    the shifts set here and are not read again; they are left out.) *)
Definition subpixel_stage (gsd_factor : F) (L : locals) : M unit :=
  s <- get ;;
  match success s with
  | Some false => ret tt
  | _ =>
      a <- or_raise AttributeError (scps L) ;;
      sub <- or_raise IndexError (_calc_subpixel_shifts a) ;;
      let '(x_subshift, y_subshift) := sub in
      let '(x_totalshift, y_totalshift) :=
        _get_total_shifts (x_intshift L) (y_intshift L) x_subshift y_subshift in
      if fgtb (Py.max2 fgtb (fabs x_totalshift) (fabs y_totalshift)) (of_Z (max_shift (cfg s)))
      then _handle_error (RuntimeError ShiftTooLarge)
      else
        modify (set_success (Some true)) ;;
        let x_shift_px := fmul x_totalshift gsd_factor in
        let y_shift_px := fmul y_totalshift gsd_factor in
        modify (set_shifts_px x_shift_px y_shift_px) ;;
        let '(new_originX, new_originY) := imXY2mapXY (x_shift_px, y_shift_px) (gt (shift s)) in
        let '(gt0, _, _, gt3, _, _) := gt (shift s) in
        modify (set_shifts_map (fsub new_originX gt0) (fsub new_originY gt3))
  end.

(** Truth value of a float or None. *)
Definition truthy (o : option F) : bool :=
  match o with Some x => negb (feqb x (of_Z 0)) | None => false end.

(** [float(m[i])]: [IndexError] on a short list, [ValueError] on a name. *)
Definition mapinfo_float (m : list mi) (i : nat) : M F :=
  e <- or_raise IndexError (m !! i) ;;
  match e with MiNum x => ret x | MiStr _ => raise ValueError end.

(** Lines 1351-1358. *)
Definition _get_updated_map_info : M unit :=
  s <- get ;;
  let original_map_info := geotransform2mapinfo (gt (shift s)) (prj (shift s)) in
  modify (set_updated_map_info original_map_info) ;;
  v3 <- mapinfo_float original_map_info 3 ;;
  x <- or_raise TypeError (x_shift_map s) ;;
  modify (set_updated_map_info (<[3%nat := MiNum (fadd v3 x)]> original_map_info)) ;;
  v4 <- mapinfo_float original_map_info 4 ;;
  y <- or_raise TypeError (y_shift_map s) ;;
  modify (set_updated_map_info
            (<[4%nat := MiNum (fadd v4 y)]> (<[3%nat := MiNum (fadd v3 x)]> original_map_info))).

(** Lines 1340-1346. *)
Definition report_stage (L : locals) : M unit :=
  s <- get ;;
  when (truthy (x_shift_px s) || truthy (y_shift_px s))
    (_get_updated_map_info ;;
     s <- get ;;
     (let '(raised, (cache, h), mw) := _validate_ssim_improvement s in
      modify (set_report cache h) ;;
      modify (set_matchWin mw) ;;
      match raised with Some e => raise e | None => ret tt end) ;;
     a <- or_raise AttributeError (scps L) ;;
     r <- or_raise ValueError (_calc_shift_reliability a) ;;
     modify (set_shift_reliability r.1)).

(** Lines 1221-1349. *)
Definition calculate_spatial_shifts : M string :=
  s <- get ;;
  match success s with
  | Some false => ret "fail"
  | _ =>
      _get_image_windows_to_match ;;
      s <- get ;;
      mw <- or_raise AttributeError (matchWin s) ;;
      ow <- or_raise AttributeError (otherWin s) ;;
      let im0 := if imID_eqb (win_imID mw) Ref then arr mw else arr ow in
      let im1 := if imID_eqb (win_imID ow) Shift then arr ow else arr mw in
      g <- or_raise TypeError (imfft_gsd s) ;;
      let gsd_factor := fdiv g (xgsd (shift s)) in
      scps0 <- _calc_shifted_cross_power_spectrum im0 im1 ;;
      match scps0 with
      | None => modify (set_success (Some false)) ;; ret "fail"
      | Some scps0 =>
          L <- integer_shift_stage im0 im1 scps0 ;;
          subpixel_stage gsd_factor L ;;
          report_stage L ;;
          ret "success"
      end
  end.

(** *** The shift report (lines 1360-1403) *)

(** Dict objects: allocation, [d[k]], [d[k] = v], [d[k][k2] *= -1]. *)
Definition alloc (d : pydict) : M loc := fun s =>
  let l := fresh (dom (heap s)) in
  Ok l (set_report (_coreg_info s) (<[l := d]> (heap s)) s).

Definition deref (l : loc) : M pydict :=
  s <- get ;; or_raise AttributeError (heap s !! l).

Definition dict_get (l : loc) (k : string) : M pyval :=
  d <- deref l ;; or_raise KeyError (d !! k).

Definition dict_set (l : loc) (k : string) (v : pyval) : M unit :=
  d <- deref l ;;
  s <- get ;;
  modify (set_report (_coreg_info s) (<[l := <[k := v]> d]> (heap s))).

Definition item_imul_neg1 (l : loc) (k k2 : string) : M unit :=
  inner <- dict_get l k ;;
  match inner with
  | VRef li =>
      v <- dict_get li k2 ;;
      match v with
      | VNum x => dict_set li k2 (VNum (fmul x (of_Z (-1))))
      | _ => raise TypeError
      end
  | _ => raise TypeError
  end.

Definition of_opt (o : option F) : pyval :=
  match o with Some x => VNum x | None => VNone end.

(** The truth value of [self._coreg_info]: a non-empty dict. *)
Definition cached_report (s : COREG) : option loc :=
  l ← _coreg_info s;
  d ← heap s !! l;
  if (size d =? 0)%nat then None else Some l.

(** Lines 1360-1381 (a property). *)
Definition coreg_info : M loc :=
  s <- get ;;
  match cached_report s with
  | Some l => ret l
  | None =>
      match success s with
      | None => calculate_spatial_shifts ;; ret tt
      | Some _ => ret tt
      end ;;
      s <- get ;;
      let '(gt0, gt1, _, gt3, _, gt5) := gt (ref s) in
      px <- alloc (<["x" := of_opt (x_shift_px s)]> (<["y" := of_opt (y_shift_px s)]> ∅)) ;;
      mp <- alloc (<["x" := of_opt (x_shift_map s)]> (<["y" := of_opt (y_shift_map s)]> ∅)) ;;
      ext <- alloc (<["cols" := VNum (xgsd (ref s))]> (<["rows" := VNum (ygsd (ref s))]> ∅)) ;;
      l <- alloc (<["corrected_shifts_px" := VRef px]>
                 (<["corrected_shifts_map" := VRef mp]>
                 (<["original map info" :=
                      VMapInfo (geotransform2mapinfo (gt (shift s)) (prj (shift s)))]>
                 (<["updated map info" :=
                      match updated_map_info s with Some m => VMapInfo m | None => VNone end]>
                 (<["reference projection" := VStr (prj (ref s))]>
                 (<["reference geotransform" := VGt (gt (ref s))]>
                 (<["reference grid" := VGrid [[gt0; fadd gt0 gt1]; [gt3; fadd gt3 gt5]]]>
                 (<["reference extent" := VRef ext]>
                 (<["success" := match success s with Some b => VBool b | None => VNone end]>
                  ∅))))))))) ;;
      s <- get ;;
      modify (set_report (Some l) (heap s)) ;;
      ret l
  end.

(** [copy(d)] of a dict: a new dict object with the same items, the values
    that are references still pointing to the same objects. *)
Definition copy_dict (l : loc) : M loc := d <- deref l ;; alloc d.

(** Lines 1383-1403. *)
Definition _get_inverted_coreg_info : M loc :=
  orig <- coreg_info ;;
  inv_coreg_info <- copy_dict orig ;;
  item_imul_neg1 inv_coreg_info "corrected_shifts_px" "x" ;;
  item_imul_neg1 inv_coreg_info "corrected_shifts_px" "y" ;;
  item_imul_neg1 inv_coreg_info "corrected_shifts_map" "x" ;;
  item_imul_neg1 inv_coreg_info "corrected_shifts_map" "y" ;;
  s <- get ;;
  let original_map_info := geotransform2mapinfo (gt (ref s)) (prj (ref s)) in
  dict_set inv_coreg_info "original map info" (VMapInfo original_map_info) ;;
  dict_set inv_coreg_info "reference geotransform" (VGt (gt (shift s))) ;;
  dict_set inv_coreg_info "reference grid" (VGrid (xygrid_specs (shift s))) ;;
  dict_set inv_coreg_info "reference projection" (VStr (prj (shift s))) ;;
  umi <- dict_get inv_coreg_info "updated map info" ;;
  match umi with
  | VMapInfo (_ :: _) =>
      v3 <- mapinfo_float original_map_info 3 ;;
      x <- or_raise TypeError (x_shift_map s) ;;
      v4 <- mapinfo_float original_map_info 4 ;;
      y <- or_raise TypeError (y_shift_map s) ;;
      dict_set inv_coreg_info "updated map info"
        (VMapInfo (<[4%nat := MiNum (fsub v4 y)]> (<[3%nat := MiNum (fsub v3 x)]> original_map_info)))
  | _ => ret tt
  end ;;
  ret inv_coreg_info.

End Coreg.

(** ** Vocabulary of the statements *)

Definition other_id (g : imID) : imID := match g with Ref => Shift | Shift => Ref end.

(** The image named by ['ref'] or ['shift']. *)
Definition image_of {F polygon} (g : imID) (r t : raster F polygon) : raster F polygon :=
  match g with Ref => r | Shift => t end.

(** [b] is the largest entry of the table of binary sizes that is at most [n]. *)
Definition largest_binary_size (n b : Z) : Prop :=
  In b binarySizes /\ b <= n /\ forall c, In c binarySizes -> c <= n -> c <= b.

(** [v] with direction [sgn] is the side maximum of the neighbours [lo]
    (toward low indices) and [hi] (toward high indices): neither neighbour
    exceeds [v]; the direction is -1 and [v] is [lo] when [lo] is the
    greater one; else the direction is +1 and [v] is [hi], or the equally
    large [lo] when neither exceeds the other. *)
Definition is_side_maximum {F} `{Numeric F} (lo hi v : F) (sgn : Z) : Prop :=
  fgtb lo v = false /\ fgtb hi v = false
  /\ ((sgn = -1 /\ fgtb lo hi = true /\ v = lo)
      \/ (sgn = 1 /\ fgtb lo hi = false /\ (v = hi \/ (v = lo /\ fgtb hi lo = false)))).




Section Reliability.
Context {F : Type} `{Numeric F} `{!NumpyStats F}.





End Reliability.

(** ** Outcomes of a call *)

Section Outcomes.
Context {F polygon : Type}.

(** The state a call ends in, when it ends. *)
Definition final_state {A} (r : result F polygon A) : option (COREG F polygon) :=
  match r with Ok _ s | Raised _ s => Some s | OutOfFuel => None end.

(** [wp m Q E s]: started in [s], the call [m] returns some [a] in a state
    with [Q a], or raises some [e] in a state with [E e]; it does not run
    out of fuel. *)
Definition wp {A} (m : M F polygon A) (Q : A -> COREG F polygon -> Prop)
    (E : error -> COREG F polygon -> Prop) (s : COREG F polygon) : Prop :=
  match m s with
  | Ok a s' => Q a s'
  | Raised e s' => E e s'
  | OutOfFuel => False
  end.

End Outcomes.

(** ** Relations between the state before and after a call *)

Section Frames.
Context {F polygon : Type}.
Implicit Types (Rel : option error -> COREG F polygon -> COREG F polygon -> Prop).
Implicit Types (s : COREG F polygon) (o : option error).

(** [Rel None s s'] relates the state before a call to the state it returns
    in, [Rel (Some e) s s'] to the state it raises [e] in; [D] is what is
    asked of a call that runs out of fuel. *)
Definition obeys {A} (D : Prop) Rel (m : M F polygon A) : Prop :=
  forall s, match m s with
            | Ok _ s' => Rel None s s'
            | Raised e s' => Rel (Some e) s s'
            | OutOfFuel => D
            end.

(** A relation that every sequence of steps keeps once each step does. *)
Class StepRel Rel : Prop := {
  rel_refl : forall s, Rel None s s;
  rel_raise : forall e s, Rel (Some e) s s;
  rel_trans : forall o s s1 s2, Rel None s s1 -> Rel o s1 s2 -> Rel o s s2
}.

(** ... that [_handle_error] keeps, in both modes ... *)
Class HandlesError Rel : Prop :=
  rel_handle_error : forall e s,
    let s' := set_success (Some false) (append_error e s) in
    if ignErr (cfg s) then Rel None s s' else Rel (Some e) s s'.

(** ... and that the assignment [f] keeps. *)
Class Keeps Rel (f : COREG F polygon -> COREG F polygon) : Prop :=
  keeps : forall s, Rel None s (f s).

Definition rel_and Rel1 Rel2 o s s' : Prop := Rel1 o s s' /\ Rel2 o s s'.

(** The configuration is fixed; errors are only appended to the log; and
    without [ignore_errors] a call that returns has appended nothing, a call
    that raises [e] has appended nothing or [e] alone. *)
Definition Rel_log o s s' : Prop :=
  cfg s' = cfg s
  /\ exists es, tracked_errors s' = tracked_errors s ++ es
       /\ (ignErr (cfg s) = false ->
           match o with None => es = [] | Some e => es = [] \/ es = [e] end).

(** The configuration and the number of validations are unchanged. *)
Definition Rel_cnt o s s' : Prop :=
  cfg s' = cfg s /\ validate_calls s' = validate_calls s.

(** The pixel shifts are unchanged. *)
Definition Rel_shift o s s' : Prop :=
  x_shift_px s' = x_shift_px s /\ y_shift_px s' = y_shift_px s.

(** [success] is unchanged. *)
Definition Rel_success o s s' : Prop := success s' = success s.

(** The validations done between [s] and [s'], and the error logged last. *)
Definition validations s s' : Z :=
  Z.of_nat (validate_calls s') - Z.of_nat (validate_calls s).

Definition last_error s : option error := last (tracked_errors s).

(** The validations a run may do: the first one, and those of the loop
    while [count_iter <= max_iter]. *)
Definition max_validations s : Z := Z.max 1 (max_iter (cfg s)).

(** The budget of validations was used up and the search was given up:
    'No match found' was handled last. *)
Definition exhausted (budget : Z) s s' : Prop :=
  validations s s' = budget
  /\ last_error s' = Some (RuntimeError NoMatchFound)
  /\ success s' = Some false.

(** The validation returned with the local variables [L']: at most [budget]
    validations were done, and a result that is still 'invalid' has set
    [success] to False, with no shift left to validate (the window became
    too small) or, errors being ignored, with the budget exhausted. *)
Definition loop_post (budget : Z) s (L' : @locals F) s' : Prop :=
  cfg s' = cfg s
  /\ 0 <= validations s s' <= budget
  /\ (valid_invalid L' = false ->
      success s' = Some false
      /\ (xy_val_shift L' = None \/ (ignErr (cfg s) = true /\ exhausted budget s s'))).

(** The validation raised [e]: at most [budget] validations were done, and
    'No match found' is raised only with the budget exhausted (and errors
    not ignored). *)
Definition loop_exc (budget : Z) s (e : error) s' : Prop :=
  cfg s' = cfg s
  /\ 0 <= validations s s' <= budget
  /\ (e = RuntimeError NoMatchFound -> ignErr (cfg s) = false /\ exhausted budget s s').

(** A run from [s] to [s']: the validations are within the limit. *)
Definition bounded s s' : Prop := 0 <= validations s s' <= max_validations s.

(** ... and the pixel shifts were set only together with [success = True]. *)
Definition run_post s s' : Prop :=
  bounded s s' /\ (Rel_shift None s s' \/ success s' = Some true).

(** The effect of handling [e]: logged last, [success] False, the pixel
    shifts untouched. *)
Definition handled (e : error) s s' : Prop :=
  tracked_errors s' = tracked_errors s ++ [e]
  /\ success s' = Some false
  /\ x_shift_px s' = x_shift_px s /\ y_shift_px s' = y_shift_px s.

End Frames.

(** ** The limit on the shift *)

(** The total shift of lines 1301-1302, in pixels of the matching grid, and
    what line 1304 asks of it. *)
Definition total_shift (L : @locals Q) (sub : Q * Q) : Q * Q :=
  _get_total_shifts (x_intshift L) (y_intshift L) sub.1 sub.2.

Definition within_max_shift (p : params) (t : Q * Q) : Prop :=
  (Qabs t.1 <= inject_Z (max_shift p))%Q /\ (Qabs t.2 <= inject_Z (max_shift p))%Q.

(** ** The shift report as the object holds it *)

Section Reports.
Context {F polygon : Type} `{Numeric F}.
Implicit Types (s : COREG F polygon).

(** [self._coreg_info[k][k2]]. *)
Definition report_entry s (k k2 : string) : option (pyval F) :=
  l ← _coreg_info s;
  d ← heap s !! l;
  v ← d !! k;
  match v with
  | VRef li => di ← heap s !! li; di !! k2
  | _ => None
  end.


Definition same_shifts s s' : Prop :=
  x_shift_px s' = x_shift_px s /\ y_shift_px s' = y_shift_px s
  /\ x_shift_map s' = x_shift_map s /\ y_shift_map s' = y_shift_map s.


(** The object holds a report at [l0] whose shifts are the dict objects
    [lpx] and [lmp], three different objects, with the given entries. *)
Definition reports s (l0 lpx lmp : loc) (px py mx my : pyval F) : Prop :=
  _coreg_info s = Some l0
  /\ l0 <> lpx /\ l0 <> lmp /\ lpx <> lmp
  /\ exists d0 dpx dmp,
       heap s !! l0 = Some d0
       /\ d0 !! "corrected_shifts_px" = Some (VRef lpx)
       /\ d0 !! "corrected_shifts_map" = Some (VRef lmp)
       /\ heap s !! lpx = Some dpx /\ dpx !! "x" = Some px /\ dpx !! "y" = Some py
       /\ heap s !! lmp = Some dmp /\ dmp !! "x" = Some mx /\ dmp !! "y" = Some my.

(** Everything but the dict object at [linv] is as before. *)
Definition Rel_heap (linv : loc) (o : option error) s s' : Prop :=
  _coreg_info s' = _coreg_info s
  /\ (forall l, l <> linv -> heap s' !! l = heap s !! l)
  /\ same_shifts s s'.

End Reports.

(** The four shift entries of the report the object holds. *)
Definition report_shifts {F polygon} `{Numeric F} (s : COREG F polygon)
    (px py mx my : F) : Prop :=
  report_entry s "corrected_shifts_px" "x" = Some (VNum px)
  /\ report_entry s "corrected_shifts_px" "y" = Some (VNum py)
  /\ report_entry s "corrected_shifts_map" "x" = Some (VNum mx)
  /\ report_entry s "corrected_shifts_map" "y" = Some (VNum my).

(** ** Window sizes *)

(** [b] is a size of the table that fits into [n] and is as close to the
    target [t] as any size of the table that fits. *)
Definition closest_binary_size (n t b : Z) : Prop :=
  In b binarySizes /\ b <= n
  /\ forall c, In c binarySizes -> c <= n -> Z.abs (b - t) <= Z.abs (c - t).

(** What is left of [n] cells around a centre moved by [d] cells. *)
Definition room (n d : Z) : Z := n - 2 * Z.abs d.

(** ** The outcome of the search and of a run *)

Section Results.
Context {F polygon : Type} `{Numeric F}.

(** The peak of the spectrum is at its centre. *)
Definition centred (a : option (ndarray F)) : Prop :=
  exists scps, a = Some scps /\ _calc_integer_shifts scps = Some (0, 0).

(** What the [while] loop entered with [L] in [s] leaves: a loop that is
    not entered changes nothing; a match found by the loop has its peak at
    the centre and resets the integer shifts to the (0, 0) returned by the
    validation; a loop given up keeps the integer shifts. *)
Definition loop_result (L : @locals F) (s : COREG F polygon) (L' : @locals F)
    (s' : COREG F polygon) : Prop :=
  cfg s' = cfg s
  /\ (validate_calls s <= validate_calls s')%nat
  /\ (valid_invalid L = true -> L' = L /\ s' = s)
  /\ (valid_invalid L = false ->
      (valid_invalid L' = true ->
       (validate_calls s < validate_calls s')%nat
       /\ x_intshift L' = 0 /\ y_intshift L' = 0 /\ centred (scps L'))
      /\ (valid_invalid L' = false ->
          x_intshift L' = x_intshift L /\ y_intshift L' = y_intshift L
          /\ success s' = Some false)).

Definition shifts_set (s : COREG F polygon) : Prop :=
  is_Some (x_shift_px s) /\ is_Some (y_shift_px s)
  /\ is_Some (x_shift_map s) /\ is_Some (y_shift_map s).

(** What a call of [calculate_spatial_shifts] that returns [r] leaves. *)
Definition run_outcome (s : COREG F polygon) (r : string) (s' : COREG F polygon) : Prop :=
  (r = "fail" \/ r = "success")
  /\ (success s = Some false -> r = "fail" /\ s' = s)
  /\ (r = "fail" -> success s' = Some false)
  /\ (success s' = Some false \/ (success s' = Some true /\ shifts_set s')).

End Results.

(** ** Stand-ins for the collaborators, to run the code on concrete inputs *)

Module Example.

(** Footprints as axis-parallel rectangles in map coordinates. *)
Record rect (F : Type) := mk_rect { x_min : F; x_max : F; y_min : F; y_max : F }.
Arguments mk_rect {F} _ _ _ _.
Arguments x_min {F} _.
Arguments x_max {F} _.
Arguments y_min {F} _.
Arguments y_max {F} _.

Section Rect.
Context {F : Type} `{Numeric F}.

Definition rect_nonempty (r : rect F) : bool :=
  fltb (x_min r) (x_max r) && fltb (y_min r) (y_max r).

Definition rect_area (r : rect F) : F :=
  if rect_nonempty r
  then fmul (fsub (x_max r) (x_min r)) (fsub (y_max r) (y_min r))
  else of_Z 0.

Definition rect_intersection (a b : rect F) : rect F :=
  {| x_min := Py.max2 fgtb (x_min a) (x_min b);
     x_max := Py.max2 fltb (x_max a) (x_max b);
     y_min := Py.max2 fgtb (y_min a) (y_min b);
     y_max := Py.max2 fltb (y_max a) (y_max b) |}.

(** The overlap of two footprints, its share of the second one in percent,
    and its area. *)
Definition rect_overlap (a b : rect F) : rect F * F * F :=
  let o := rect_intersection a b in
  (o, fdiv (fmul (of_Z 100) (rect_area o)) (rect_area b), rect_area o).

(** The affine pixel-to-map transformation of a GDAL geotransform. *)
Definition affine_imXY2mapXY (xy : F * F) (g : F * F * F * F * F * F) : F * F :=
  let '(g0, g1, g2, g3, g4, g5) := g in
  (fadd (fadd g0 (fmul xy.1 g1)) (fmul xy.2 g2),
   fadd (fadd g3 (fmul xy.1 g4)) (fmul xy.2 g5)).

(** An ENVI map info: name, reference pixel, upper-left corner, pixel sizes. *)
Definition envi_mapinfo (g : F * F * F * F * F * F) (p : string) : list (mi F) :=
  let '(g0, g1, _, g3, _, g5) := g in
  [MiStr "Arbitrary"; MiNum (of_Z 1); MiNum (of_Z 1); MiNum g0; MiNum g3;
   MiNum g1; MiNum (fabs g5); MiStr p].

Definition gt_xygrid (r : raster F (rect F)) : list (list F) :=
  let '(g0, g1, _, g3, _, g5) := gt r in
  [[g0; fadd g0 g1]; [g3; fadd g3 g5]].

#[global] Instance rect_Geometry : Geometry F (rect F) := {
  poly_nonempty := rect_nonempty;
  prj_equal := String.eqb;
  get_overlap_polygon := rect_overlap;
  imXY2mapXY := affine_imXY2mapXY;
  geotransform2mapinfo := envi_mapinfo;
  xygrid_specs := gt_xygrid
}.

(** A north-up image: projection name, upper-left corner, pixel size,
    footprint. *)
Definition north_up (p : string) (ulx uly gsd : F) (fp : rect F) : raster F (rect F) :=
  {| prj := p;
     gt := (ulx, gsd, of_Z 0, uly, of_Z 0, fsub (of_Z 0) gsd);
     xgsd := gsd; ygsd := gsd; poly := fp |}.

(** A run on two given windows.  The spectrum oracle is the one of a target
    window that is a unit impulse at its centre: the shifted cross power
    spectrum of the pair is then the reference window itself.  The SSIM
    check leaves the report and the matching window alone. *)
Definition impulse_pipeline (mw ow : window F) : Pipeline F (rect F) := {|
  read_image_windows := fun _ => WindowsRead mw ow;
  phase_correlation := fun im0 _ => im0;
  _validate_ssim_improvement := fun s => (None, (_coreg_info s, heap s), matchWin s)
|}.

(** An [h] x [w] array that is [v] at [(r, c)] and [bg] elsewhere. *)
Definition impulse (h w r c : nat) (v bg : F) : ndarray F :=
  {| data := (fun i => (fun j => if (i =? r)%nat && (j =? c)%nat then v else bg) <$> seq 0 w)
               <$> seq 0 h;
     width := w |}.

End Rect.

(** [np.mean] and [np.std] on binary64 floats. *)
Definition float_sum (l : list float) : float := fold_left PrimFloat.add l 0%float.

Definition float_mean (l : list float) : float :=
  PrimFloat.div (float_sum l) (float_of_Z (Z.of_nat (length l))).

Definition float_std (l : list float) : float :=
  let m := float_mean l in
  PrimFloat.sqrt (float_mean ((fun x => PrimFloat.mul (PrimFloat.sub x m) (PrimFloat.sub x m)) <$> l)).

#[global] Instance float_NumpyStats : NumpyStats float := {
  np_mean := float_mean;
  np_std := float_std
}.

(** *** Concrete inputs *)

Definition default_params : params :=
  {| ignErr := false; max_iter := 5; max_shift := 5; bin_ws := true;
     force_quadratic_win := true |}.

(** Two images of the same square kilometre, with 30 m and 10 m pixels. *)
Definition km_footprint : rect Q := mk_rect 0%Q 1000%Q 0%Q 1000%Q.
Definition image_30m : raster Q (rect Q) := north_up "EPSG:32633" 0%Q 1000%Q 30%Q km_footprint.
Definition image_10m : raster Q (rect Q) := north_up "EPSG:32633" 0%Q 1000%Q 10%Q km_footprint.

(** The 10 m image in another projection. *)
Definition image_10m_utm32 : raster Q (rect Q) :=
  north_up "EPSG:32632" 0%Q 1000%Q 10%Q km_footprint.

(** A 10 m image whose footprint shares a 100 m x 100 m corner with
    [image_10m]. *)
Definition image_10m_corner : raster Q (rect Q) :=
  north_up "EPSG:32633" 900%Q 1900%Q 10%Q (mk_rect 900%Q 1900%Q 900%Q 1900%Q).

(** The same with binary64 numbers. *)
Definition fkm_footprint : rect float := mk_rect 0%float 1000%float 0%float 1000%float.
Definition fimage_30m : raster float (rect float) :=
  north_up "EPSG:32633" 0%float 1000%float 30%float fkm_footprint.
Definition fimage_10m : raster float (rect float) :=
  north_up "EPSG:32633" 0%float 1000%float 10%float fkm_footprint.

(** A 16 x 16 window that is 1 at [(r, c)] and 0 elsewhere. *)
Definition impulse_16 (r c : nat) : ndarray float := impulse 16 16 r c 1%float 0%float.


(** A 3 x 3 spectrum over the rationals with its peak in the centre. *)
Definition scps_3x3 : ndarray Q :=
  {| data := [[1; 2; 1]; [3; 9; 4]; [1; 5; 1]]%Q; width := 3 |}.

(** A planner outcome: two boxes of 256 x 256 pixels that passed all checks. *)
Definition planned_256 : planned :=
  {| shrinking_stalled := false;
     matchBox_imDimsYX := (256, 256); otherBox_imDimsYX := (256, 256);
     match_within_other := true; other_within_overlap := true |}.

(** The object after construction and window planning (the object as
    created when one of the two raises). *)
Definition constructed {F} `{Numeric F} (p : params) (r t : raster F (rect F))
  : COREG F (rect F) :=
  match __init__ p r t with
  | Ok _ s => match _get_clip_window_properties planned_256 s with
              | Ok _ s' => s'
              | _ => new_COREG p r t
              end
  | _ => new_COREG p r t
  end.

(** A run on two 16 x 16 windows: the window of the reference holds an
    impulse at [(row, col)], the window of the target one at the centre
    (8, 8), so that the spectrum of the stand-in has its peak [col - 8]
    cells right of and [row - 8] cells below the centre. *)
Definition impulse_windows (g : imID) (row col : nat) : window float * window float :=
  let ref_win := {| arr := impulse_16 row col; win_imID := Ref |} in
  let tgt_win := {| arr := impulse_16 8 8; win_imID := Shift |} in
  match g with Ref => (ref_win, tgt_win) | Shift => (tgt_win, ref_win) end.

Definition impulse_run (p : params) (r t : raster float (rect float)) (row col : nat)
  : result float (rect float) string :=
  let s := constructed p r t in
  let '(mw, ow) := impulse_windows (grid2use s) row col in
  @calculate_spatial_shifts float (rect float) _ _ _ (impulse_pipeline mw ow) s.

(** The object of a 30 m reference and a 10 m target after construction
    and window planning. *)
Definition planned_30m_10m : COREG Q (rect Q) :=
  constructed default_params image_30m image_10m.

(** The local variables after the integer shift (1, 0) was validated on
    [scps_3x3]. *)
Definition locals_3x3 : @locals Q :=
  {| valid_invalid := true; xy_val_shift := Some (0, 0); scps := Some scps_3x3;
     x_intshift := 1; y_intshift := 0; count_iter := 1 |}.

(** The object after a run that found a shift of one column. *)
Definition after_run : COREG float (rect float) :=
  match impulse_run default_params fimage_10m fimage_10m 8 9 with
  | Ok _ s | Raised _ s => s
  | OutOfFuel => constructed default_params fimage_10m fimage_10m
  end.

(** The defaults with [ignore_errors=True]. *)
Definition ignoring_errors : params :=
  {| ignErr := true; max_iter := 5; max_shift := 5; bin_ws := true;
     force_quadratic_win := true |}.


(** The object of two 10 m images after construction and window planning,
    and two 5 x 5 windows for it, with an impulse one column right of the
    centre and at the centre. *)
Definition planned_10m_10m : COREG float (rect float) :=
  constructed default_params fimage_10m fimage_10m.

Definition odd_ref_window : window float :=
  {| arr := impulse 5 5 2 3 1%float 0%float; win_imID := Ref |}.

Definition odd_tgt_window : window float :=
  {| arr := impulse 5 5 2 2 1%float 0%float; win_imID := Shift |}.

(** A spectrum oracle that needs two validations: the spectrum of the
    16 x 16 windows as read is the reference window; the one of 12 x 12
    windows has its peak one column right of the centre, every other one
    at the centre. *)
Definition two_step_pipeline (mw ow : window float) : Pipeline float (rect float) := {|
  read_image_windows := fun _ => WindowsRead mw ow;
  phase_correlation := fun im0 _ =>
    if (height im0 =? 16)%nat then im0
    else if (height im0 =? 12)%nat then impulse 12 12 6 7 1%float 0%float
    else impulse (height im0) (width im0) (height im0 / 2) (width im0 / 2) 1%float 0%float;
  _validate_ssim_improvement := fun s => (None, (_coreg_info s, heap s), matchWin s)
|}.

(** The defaults without binary window sizes. *)
Definition free_window_sizes : params :=
  {| ignErr := false; max_iter := 5; max_shift := 5; bin_ws := false;
     force_quadratic_win := true |}.

(** A run whose first spectrum has its peak two columns right of the
    centre. *)
Definition two_step_run : result float (rect float) string :=
  @calculate_spatial_shifts float (rect float) _ _ _
    (two_step_pipeline {| arr := impulse_16 8 10; win_imID := Ref |}
                       {| arr := impulse_16 8 8; win_imID := Shift |})
    (constructed free_window_sizes fimage_10m fimage_10m).

End Example.

(** * Properties *)

(** ** Reasoning about methods *)

Section Wp.
Context {F polygon : Type}.

Lemma wp_ret {A} (a : A) (Q : A -> COREG F polygon -> Prop) E s : Q a s -> wp (ret a) Q E s.
Proof. done. Qed.

Lemma wp_raise {A} e (Q : A -> COREG F polygon -> Prop) E s : E e s -> wp (raise e) Q E s.
Proof. done. Qed.

Lemma wp_get (Q : COREG F polygon -> COREG F polygon -> Prop) E s : Q s s -> wp get Q E s.
Proof. done. Qed.

Lemma wp_modify f (Q : unit -> COREG F polygon -> Prop) E s :
  Q tt (f s) -> wp (modify f) Q E s.
Proof. done. Qed.

Lemma wp_bind {A B} (m : M F polygon A) (k : A -> M F polygon B) Q E s :
  wp m (fun a s' => wp (k a) Q E s') E s -> wp (bind m k) Q E s.
Proof. unfold wp, bind. by destruct (m s). Qed.

Lemma wp_mono {A} (m : M F polygon A) (Q Q' : A -> COREG F polygon -> Prop)
    (E E' : error -> COREG F polygon -> Prop) s :
  wp m Q E s -> (forall a s', Q a s' -> Q' a s') -> (forall e s', E e s' -> E' e s') ->
  wp m Q' E' s.
Proof. unfold wp. destruct (m s); eauto. Qed.

Lemma wp_or_raise {A} e (o : option A) (Q : A -> COREG F polygon -> Prop) E s :
  match o with Some a => Q a s | None => E e s end -> wp (or_raise e o) Q E s.
Proof. by destruct o. Qed.

Lemma wp_py_assert (b : bool) a (Q : unit -> COREG F polygon -> Prop) E s :
  (if b then Q tt s else E (AssertionError a) s) -> wp (py_assert b a) Q E s.
Proof. by destruct b. Qed.

Lemma wp_when (b : bool) (m : M F polygon unit) Q E s :
  (if b then wp m Q E s else Q tt s) -> wp (when b m) Q E s.
Proof. by destruct b. Qed.

Lemma wp_handle_error e (Q : unit -> COREG F polygon -> Prop) E s :
  (let s' := set_success (Some false) (append_error e s) in
   if ignErr (cfg s) then Q tt s' else E e s') ->
  wp (_handle_error e) Q E s.
Proof. unfold wp, _handle_error. simpl. by destruct (ignErr (cfg s)). Qed.

End Wp.

Ltac wp_step :=
  lazymatch goal with
  | |- wp (bind _ _) _ _ _ => apply wp_bind
  | |- wp (ret _) _ _ _ => apply wp_ret
  | |- wp (raise _) _ _ _ => apply wp_raise
  | |- wp get _ _ _ => apply wp_get
  | |- wp (modify _) _ _ _ => apply wp_modify
  | |- wp (or_raise _ _) _ _ _ => apply wp_or_raise
  | |- wp (py_assert _ _) _ _ _ => apply wp_py_assert
  | |- wp (when _ _) _ _ _ => apply wp_when
  | |- wp (_handle_error _) _ _ _ => apply wp_handle_error
  end.

(** ** The matching grid and the overlap check *)

Lemma Qle_bool_false (a b : Q) : Qle_bool a b = false -> (b < a)%Q.
Proof.
  intros Hf. apply Qnot_le_lt. intros Hle. apply Qle_bool_iff in Hle. congruence.
Qed.

Lemma Qdiv_bound_antitone (a b c k : Q) :
  (0 < b)%Q -> (b <= c)%Q -> (0 <= k)%Q -> (a / b <= k)%Q -> (a / c <= k)%Q.
Proof.
  intros Hb Hbc Hk Hab.
  assert (Hc : (0 < c)%Q) by (eapply Qlt_le_trans; eauto).
  apply Qle_shift_div_r; [done|].
  apply Qle_trans with (k * b)%Q.
  - assert (E : (a == a / b * b)%Q).
    { field. intros E. rewrite E in Hb. by apply Qlt_irrefl in Hb. }
    rewrite E. apply Qmult_le_compat_r; [done|]. by apply Qlt_le_weak.
  - rewrite !(Qmult_comm k). by apply Qmult_le_compat_r.
Qed.

Section GridChoice.
Context {polygon : Type} `{!Geometry Q polygon}.

Lemma init_grid2use (p : params) (r t : raster Q polygon) s :
  __init__ p r t = Ok tt s -> grid2use s = grid2use_of r t /\ ref s = r /\ shift s = t.
Proof.
  unfold __init__, _get_image_params, _get_overlap_properties, bind, get, modify,
    py_assert, ret, raise.
  simpl.
  destruct (prj_equal _ _); [|done]. simpl.
  destruct (get_overlap_polygon _ _) as [[ov pc] ar]. simpl.
  destruct (poly_nonempty ov); [|done]. simpl.
  destruct (negb _); [|done].
  by intros [= <-].
Qed.

Lemma planner_sets_imfft_gsd (g : planned) (s : COREG Q polygon) :
  wp (_get_clip_window_properties g)
     (fun _ s' => success s' <> Some false ->
                  imfft_gsd s' = Some (xgsd (image_of (grid2use s) (ref s) (shift s))))
     (fun _ _ => True) s.
Proof.
  unfold _get_clip_window_properties, check_winBox.
  repeat (first
    [ wp_step | progress simpl
    | match goal with |- context [if ?b then _ else _] => destruct b eqn:? end
    | match goal with
      | |- context [match success ?s with _ => _ end] => destruct (success s) as [[]|] eqn:?
      end ]);
  try done.
  all: try (intros _; by destruct (grid2use s)).
Qed.

(** C3 (as amended).  For two images with unequal pixel sizes, the grid
    chosen as the anchor for matching ([grid2use]) is the grid of the image
    with the LARGER pixel size, that is of the lower-resolution input; the
    constructor stores this choice, and a successful window planning sets
    [imfft_gsd] to the pixel size of that image. *)
Theorem grid2use_is_the_coarser_grid (p : params) (im_ref im_tgt : raster Q polygon)
    (g : planned) :
  ~ (xgsd im_ref == xgsd im_tgt)%Q ->
  let chosen := grid2use_of im_ref im_tgt in
  (xgsd (image_of (other_id chosen) im_ref im_tgt) < xgsd (image_of chosen im_ref im_tgt))%Q
  /\ (forall s, __init__ p im_ref im_tgt = Ok tt s ->
       grid2use s = chosen /\
       forall s', _get_clip_window_properties g s = Ok tt s' -> success s' <> Some false ->
         imfft_gsd s' = Some (xgsd (image_of chosen im_ref im_tgt))).
Proof.
  intros Hne chosen. split.
  - subst chosen. unfold grid2use_of. simpl.
    destruct (Qle_bool (xgsd im_tgt) (xgsd im_ref)) eqn:E; simpl.
    + apply Qle_bool_iff in E. apply Qle_lteq in E as [E|E]; [done|].
      exfalso. apply Hne. by symmetry.
    + by apply Qle_bool_false.
  - intros s Hinit. apply init_grid2use in Hinit as (Hg & Hr & Ht).
    split; [done|]. intros s' Hplan Hok.
    pose proof (planner_sets_imfft_gsd g s) as Hwp. unfold wp in Hwp.
    rewrite Hplan in Hwp. rewrite (Hwp Hok), Hg, Hr, Ht. done.
Qed.

(** C8.  If the overlap of the two footprints covers at most 16 x 16 = 256
    pixels - counted in pixels of the higher-resolution image (the smaller
    pixel area), or in pixels of the image whose grid is used - the
    constructor fails with the assertion for an insufficient overlap: the
    error is raised, nothing is logged and no shift is set. *)
Theorem insufficient_overlap_fails (p : params) (r t : raster Q polygon) (px : Q) :
  prj_equal (prj r) (prj t) = true ->
  (0 < xgsd r)%Q -> (0 < ygsd r)%Q -> (0 < xgsd t)%Q -> (0 < ygsd t)%Q ->
  (px == xgsd (image_of (grid2use_of r t) r t) * ygsd (image_of (grid2use_of r t) r t)
   \/ px == Qmin (xgsd r * ygsd r) (xgsd t * ygsd t))%Q ->
  ((get_overlap_polygon (poly r) (poly t)).2 / px <= 256)%Q ->
  exists e s, __init__ p r t = Raised e s /\ kind_of e = Some KInsufficientOverlap
     /\ tracked_errors s = [] /\ x_shift_px s = None /\ y_shift_px s = None.
Proof.
  intros Hprj Hxr Hyr Hxt Hyt Hpx Hcov.
  unfold __init__, _get_image_params, _get_overlap_properties, bind, get, modify,
    py_assert, ret, raise.
  simpl. rewrite Hprj. simpl.
  destruct (get_overlap_polygon (poly r) (poly t)) as [[ov pc] area] eqn:Eov. simpl in *.
  destruct (poly_nonempty ov); simpl; [|by eauto 10].
  set (code_px := if imID_eqb (grid2use_of r t) Ref then _ else _).
  assert (Hcode : (area / code_px <= 256)%Q).
  { assert (Hpos : forall a b : Q, (0 < a)%Q -> (0 < b)%Q -> (0 < a * b)%Q).
    { intros a b Ha Hb. rewrite <- (Qmult_0_l b). by apply Qmult_lt_compat_r. }
    assert (Ecode : code_px = (xgsd (image_of (grid2use_of r t) r t)
                               * ygsd (image_of (grid2use_of r t) r t))%Q)
      by (subst code_px; by destruct (grid2use_of r t)).
    destruct Hpx as [Hpx|Hpx].
    - by rewrite Ecode, <- Hpx.
    - apply Qdiv_bound_antitone with (b := px); [| |done|done].
      + rewrite Hpx. apply Q.min_glb_lt; by apply Hpos.
      + rewrite Hpx, Ecode.
        destruct (grid2use_of r t); simpl; [apply Q.le_min_l|apply Q.le_min_r]. }
  apply Qle_bool_iff in Hcode.
  change (inject_Z (16 * 16)) with 256%Q.
  rewrite Hcode. simpl. eauto 10.
Qed.

End GridChoice.

(** C3, the claim as stated fails: with a 30 m reference and a 10 m target
    the target has the smaller pixels, yet the grid used is the one of the
    reference, and [imfft_gsd] is 30. *)
Lemma grid2use_30m_ref_10m_tgt :
  (xgsd Example.image_10m < xgsd Example.image_30m)%Q
  /\ grid2use_of Example.image_30m Example.image_10m = Ref
  /\ (exists s s',
        __init__ Example.default_params Example.image_30m Example.image_10m = Ok tt s
        /\ _get_clip_window_properties Example.planned_256 s = Ok tt s'
        /\ grid2use s' = Ref /\ imfft_gsd s' = Some (xgsd Example.image_30m)).
Proof.
  split; [reflexivity|]. split; [reflexivity|].
  eexists _, _. split; [reflexivity|]. split; [reflexivity|]. split; reflexivity.
Qed.

Lemma grid2use_is_the_coarser_grid_witness :
  ~ (xgsd Example.image_10m == xgsd Example.image_30m)%Q
  /\ (xgsd Example.image_10m < xgsd Example.image_30m)%Q
  /\ (forall s,
        __init__ Example.default_params Example.image_10m Example.image_30m = Ok tt s ->
        grid2use s = Shift /\
        forall s', _get_clip_window_properties Example.planned_256 s = Ok tt s' ->
          success s' <> Some false -> imfft_gsd s' = Some (xgsd Example.image_30m)).
Proof.
  assert (Hne : ~ (xgsd Example.image_10m == xgsd Example.image_30m)%Q) by (intros E; discriminate E).
  split; [exact Hne|].
  exact (grid2use_is_the_coarser_grid Example.default_params Example.image_10m
           Example.image_30m Example.planned_256 Hne).
Defined.

Lemma insufficient_overlap_fails_witness :
  (0 < xgsd Example.image_10m)%Q
  /\ ((get_overlap_polygon (poly Example.image_10m) (poly Example.image_10m_corner)).2
       / (10 * 10) <= 256)%Q
  /\ exists e s,
       __init__ Example.default_params Example.image_10m Example.image_10m_corner = Raised e s
       /\ kind_of e = Some KInsufficientOverlap
       /\ tracked_errors s = [] /\ x_shift_px s = None /\ y_shift_px s = None.
Proof.
  split; [reflexivity|].
  assert (Hcov : ((get_overlap_polygon (poly Example.image_10m)
                     (poly Example.image_10m_corner)).2 / (10 * 10) <= 256)%Q)
    by (apply Qle_bool_iff; reflexivity).
  split; [exact Hcov|].
  apply (insufficient_overlap_fails Example.default_params Example.image_10m
           Example.image_10m_corner (10 * 10)%Q);
    [reflexivity | reflexivity | reflexivity | reflexivity | reflexivity
    | left; reflexivity | exact Hcov].
Defined.

(** ** The size of the FFT window *)

Lemma max_by_measure {A} (better : A -> A -> bool) (g : A -> Z) (l : list A) (m : A) :
  (forall y b, better y b = true <-> g y < g b) ->
  Py.max_by better l = Some m -> In m l /\ forall x, In x l -> g m <= g x.
Proof.
  intros Hb. destruct l as [|x t]; [done|]. simpl. intros [= <-].
  revert x. induction t as [|y t IH]; intros x; simpl.
  - split; [by left|]. intros z [<-|[]]. lia.
  - destruct (better y x) eqn:E.
    + apply Hb in E. destruct (IH y) as [Hin Hle]. split.
      * destruct Hin as [<-|Hin]; [right; by left | right; by right].
      * intros z [<-|[<-|Hz]].
        -- specialize (Hle y (or_introl eq_refl)). lia.
        -- apply Hle. by left.
        -- apply Hle. by right.
    + assert (~ g y < g x) by (intros Hlt; apply Hb in Hlt; congruence).
      destruct (IH x) as [Hin Hle]. split.
      * destruct Hin as [<-|Hin]; [by left | right; by right].
      * intros z [<-|[<-|Hz]].
        -- apply Hle. by left.
        -- specialize (Hle x (or_introl eq_refl)). lia.
        -- apply Hle. by right.
Qed.

Lemma max_by_is_Some {A} (better : A -> A -> bool) (l : list A) :
  l <> [] -> is_Some (Py.max_by better l).
Proof. destruct l; [done|]. simpl. eauto. Qed.

Lemma binarySizes_eq : binarySizes = [8; 16; 32; 64; 128; 256; 512; 1024; 2048; 4096; 8192].
Proof. reflexivity. Qed.

Lemma binary_sizes_none (n : Z) :
  n < 8 -> List.filter (fun i => i <=? n) binarySizes = [].
Proof.
  intros Hn. rewrite binarySizes_eq. simpl.
  repeat (match goal with |- context [?a <=? n] => destruct (Z.leb_spec a n); [lia|] end).
  done.
Qed.

Lemma largest_binary_size_max (n : Z) :
  8 <= n ->
  exists b, Py.max_by Z.gtb (List.filter (fun i => i <=? n) binarySizes) = Some b
            /\ largest_binary_size n b.
Proof.
  intros Hn.
  destruct (max_by_is_Some Z.gtb (List.filter (fun i => i <=? n) binarySizes)) as [b Hb].
  { intros E. assert (Hin : In 8 (List.filter (fun i => i <=? n) binarySizes)).
    { apply filter_In. split; [rewrite binarySizes_eq; by left | by apply Z.leb_le]. }
    by rewrite E in Hin. }
  exists b. split; [done|].
  apply (max_by_measure Z.gtb (fun x => - x)) in Hb as [Hin Hle].
  2:{ intros y c. rewrite Z.gtb_ltb, Z.ltb_lt. lia. }
  apply filter_In in Hin as [Hin Hbn]. apply Z.leb_le in Hbn.
  repeat split; [done|done|].
  intros c Hc Hcn.
  assert (Hcf : In c (List.filter (fun i => i <=? n) binarySizes))
    by (apply filter_In; split; [done | by apply Z.leb_le]).
  specialize (Hle c Hcf). lia.
Qed.

Lemma closest_to_max (l : list Z) (m : Z) :
  Py.max_by Z.gtb l = Some m -> Py.min_key (fun x => Z.abs (x - m)) l = Some m.
Proof.
  intros Hm.
  destruct (max_by_is_Some (fun y best => Z.abs (y - m) <? Z.abs (best - m)) l) as [c Hc].
  { by destruct l. }
  unfold Py.min_key. rewrite Hc. f_equal.
  apply (max_by_measure _ (fun x => Z.abs (x - m))) in Hc as [_ Hle].
  2:{ intros y b. by rewrite Z.ltb_lt. }
  apply (max_by_measure Z.gtb (fun x => - x)) in Hm as [Hin _].
  2:{ intros y b. rewrite Z.gtb_ltb, Z.ltb_lt. lia. }
  specialize (Hle m Hin). lia.
Qed.

Lemma shrink_winsize_small (h w : Z) :
  h < 8 \/ w < 8 -> _shrink_winsize_to_binarySize (h, w) None = None.
Proof.
  intros Hs. unfold _shrink_winsize_to_binarySize. cbn [fst snd].
  destruct Hs as [Hs|Hs]; rewrite (binary_sizes_none _ Hs); simpl.
  - by destruct (Py.max_by _ _).
  - done.
Qed.

Lemma shrink_winsize_largest (h w : Z) :
  8 <= h -> 8 <= w ->
  exists bY bX, _shrink_winsize_to_binarySize (h, w) None = Some (bY, bX)
    /\ largest_binary_size h bY /\ largest_binary_size w bX.
Proof.
  intros Hh Hw.
  destruct (largest_binary_size_max h Hh) as (bY & EY & HY).
  destruct (largest_binary_size_max w Hw) as (bX & EX & HX).
  exists bY, bX. split; [|done].
  unfold _shrink_winsize_to_binarySize. cbn [fst snd].
  rewrite EX, EY. by rewrite (closest_to_max _ _ EX), (closest_to_max _ _ EY).
Qed.

Lemma largest_binary_size_pow2 (n b k : Z) :
  largest_binary_size n b -> n < 2 ^ 14 -> 0 <= k -> 2 ^ k <= n -> 2 ^ k <= b.
Proof.
  intros (Hin & Hbn & Hmax) Hn Hk Hkn.
  assert (k < 14).
  { destruct (Z_lt_le_dec k 14); [done|].
    assert (2 ^ 14 <= 2 ^ k) by (apply Z.pow_le_mono_r; lia). lia. }
  destruct (Z_lt_le_dec k 3).
  - assert (2 ^ k <= 2 ^ 2) by (apply Z.pow_le_mono_r; lia).
    assert (8 <= b).
    { rewrite binarySizes_eq in Hin. simpl in Hin. intuition lia. }
    change (2 ^ 2) with 4 in *. lia.
  - apply Hmax; [|done]. rewrite binarySizes_eq.
    assert (Hcases : k = 3 \/ k = 4 \/ k = 5 \/ k = 6 \/ k = 7 \/ k = 8 \/ k = 9 \/ k = 10
                     \/ k = 11 \/ k = 12 \/ k = 13) by lia.
    simpl. intuition (subst; auto 20).
Qed.

Section WindowSize.
Context {F polygon : Type} `{!Pipeline F polygon}.

Lemma shape_eqb_refl (a : Z * Z) : shape_eqb a a = true.
Proof. unfold shape_eqb. by rewrite !Z.eqb_refl. Qed.

(** C4 (as amended).  With binary sizing enabled and two windows of equal
    shape, each axis of the FFT window is the largest entry of the table
    8, 16, ..., 8192 that is at most the length of the axis - the largest
    power of two at most that length whenever the axis is shorter than
    16384 -, and with [force_quadratic_win] both axes get the minimum of
    the two; an axis shorter than 8 leaves no size.  When no size is left or
    the size is (0, 0), the call reports the error of a too small matching
    window: it is raised, or with [ignore_errors] logged with [None] as the
    result. *)
Theorem fft_window_size_is_binary (s : COREG F polygon) (im0 im1 : ndarray F) :
  shape im1 = shape im0 ->
  let h := (shape im0).1 in
  let w := (shape im0).2 in
  let failed := set_success (Some false) (append_error (RuntimeError MatchingWindowTooSmall) s) in
  (bin_ws (cfg s) = true -> 8 <= h -> 8 <= w ->
   exists bY bX,
     largest_binary_size h bY /\ largest_binary_size w bX
     /\ (h < 2 ^ 14 -> forall k, 0 <= k -> 2 ^ k <= h -> 2 ^ k <= bY)
     /\ (w < 2 ^ 14 -> forall k, 0 <= k -> 2 ^ k <= w -> 2 ^ k <= bX)
     /\ let ws := if force_quadratic_win (cfg s)
                  then (Z.min bY bX, Z.min bY bX) else (bY, bX) in
        _calc_shifted_cross_power_spectrum im0 im1 s =
          Ok (Some (phase_correlation (center_crop im0 ws) (center_crop im1 ws)))
             (set_fftw_win_size_YX (Some ws) s))
  /\ (bin_ws (cfg s) = true -> h < 8 \/ w < 8 ->
      fft_window_size (cfg s) (shape im0) = None)
  /\ (fft_window_size (cfg s) (shape im0) = None
      \/ fft_window_size (cfg s) (shape im0) = Some (0, 0) ->
      kind_of (RuntimeError MatchingWindowTooSmall) = Some KWindowTooSmall
      /\ _calc_shifted_cross_power_spectrum im0 im1 s =
           if ignErr (cfg s)
           then Ok None (set_fftw_win_size_YX (fft_window_size (cfg s) (shape im0)) failed)
           else Raised (RuntimeError MatchingWindowTooSmall) failed).
Proof.
  intros Hsh h w failed. split; [|split].
  - intros Hbin Hh Hw.
    destruct (shrink_winsize_largest h w Hh Hw) as (bY & bX & Eshr & HY & HX).
    exists bY, bX. split; [done|]. split; [done|].
    split; [intros; by eapply largest_binary_size_pow2|].
    split; [intros; by eapply largest_binary_size_pow2|].
    assert (Hb8 : 8 <= bY /\ 8 <= bX).
    { destruct HY as (HY & _), HX as (HX & _). rewrite binarySizes_eq in HY, HX.
      simpl in HY, HX. intuition lia. }
    unfold _calc_shifted_cross_power_spectrum, bind, py_assert, get, modify, ret.
    rewrite Hsh, shape_eqb_refl. simpl.
    unfold fft_window_size. rewrite Hbin.
    replace (shape im0) with (h, w) by (subst h w; by destruct (shape im0)).
    rewrite Eshr.
    destruct (force_quadratic_win (cfg s)); simpl.
    + replace (shape_eqb _ (0, 0)) with false; [done|].
      unfold shape_eqb. simpl. symmetry. apply andb_false_iff. left. apply Z.eqb_neq. lia.
    + replace (shape_eqb _ (0, 0)) with false; [done|].
      unfold shape_eqb. simpl. symmetry. apply andb_false_iff. left. apply Z.eqb_neq. lia.
  - intros Hbin Hsmall. unfold fft_window_size. rewrite Hbin.
    replace (shape im0) with (h, w) by (subst h w; by destruct (shape im0)).
    by rewrite shrink_winsize_small.
  - intros Hws. split; [done|].
    unfold _calc_shifted_cross_power_spectrum, bind, py_assert, get, modify, ret, _handle_error.
    rewrite Hsh, shape_eqb_refl. simpl.
    destruct Hws as [-> | ->]; simpl; by destruct (ignErr (cfg s)).
Qed.
End WindowSize.

(** C4, the claim as stated fails: an axis of 20000 cells is shrunk to
    8192 although 16384 is a power of two below 20000, and an axis of 4
    cells gets no size although 4 is a power of two; on two 4 x 4 windows
    the call fails. *)
Lemma binary_sizes_stop_at_8_and_8192 :
  _shrink_winsize_to_binarySize (20000, 20000) None = Some (8192, 8192)
  /\ 8192 < 2 ^ 14 <= 20000
  /\ _shrink_winsize_to_binarySize (4, 4) None = None
  /\ 2 ^ 2 <= 4
  /\ (let im := Example.impulse 4 4 2 2 1%float 0%float in
      let s := Example.constructed Example.default_params Example.fimage_10m Example.fimage_10m in
      @_calc_shifted_cross_power_spectrum float _
        (Example.impulse_pipeline {| arr := im; win_imID := Ref |} {| arr := im; win_imID := Shift |})
        im im s
      = Raised (RuntimeError MatchingWindowTooSmall)
          (set_success (Some false) (append_error (RuntimeError MatchingWindowTooSmall) s))).
Proof.
  split; [vm_compute; reflexivity|]. split; [lia|]. split; [vm_compute; reflexivity|].
  split; [lia|]. vm_compute. reflexivity.
Qed.

Lemma fft_window_size_is_binary_witness :
  let im0 := Example.impulse_16 8 9 in
  let im1 := Example.impulse_16 8 8 in
  let s := Example.constructed Example.default_params Example.fimage_10m Example.fimage_10m in
  let pipeline := Example.impulse_pipeline {| arr := im0; win_imID := Ref |}
                                           {| arr := im1; win_imID := Shift |} in
  shape im1 = shape im0
  /\ exists bY bX,
       largest_binary_size 16 bY /\ largest_binary_size 16 bX
       /\ @_calc_shifted_cross_power_spectrum float _ pipeline im0 im1 s =
            Ok (Some (@phase_correlation _ _ pipeline
                        (center_crop im0 (Z.min bY bX, Z.min bY bX))
                        (center_crop im1 (Z.min bY bX, Z.min bY bX))))
               (set_fftw_win_size_YX (Some (Z.min bY bX, Z.min bY bX)) s).
Proof.
  intros im0 im1 s pipeline.
  split; [reflexivity|].
  destruct (@fft_window_size_is_binary float _ pipeline s im0 im1 eq_refl) as (Hbin & _).
  destruct (Hbin eq_refl) as (bY & bX & HY & HX & _ & _ & Hrun);
    [ apply Z.leb_le; reflexivity | apply Z.leb_le; reflexivity | ].
  exists bY, bX. split; [exact HY|]. split; [exact HX|]. exact Hrun.
Defined.

(** ** Sub-pixel shifts *)

Section Subpixel.
Context {F : Type} `{NumericOrder F}.

Lemma fgtb_irrefl (a : F) : fgtb a a = false.
Proof. destruct (fgtb a a) eqn:E; [|done]. by rewrite (fgtb_asym _ _ E) in E. Qed.

Lemma side_maximum_max2 (lo hi : F) :
  is_side_maximum lo hi (Py.max2 fgtb lo hi) (if fgtb lo hi then -1 else 1).
Proof.
  unfold is_side_maximum, Py.max2.
  destruct (fgtb lo hi) eqn:E1.
  - rewrite (fgtb_asym _ _ E1), fgtb_irrefl.
    split; [done|]. split; [by apply fgtb_asym|]. left. done.
  - destruct (fgtb hi lo) eqn:E2.
    + rewrite fgtb_irrefl. split; [done|]. split; [done|]. right. split; [done|]. split; [done|]. by left.
    + rewrite fgtb_irrefl. split; [done|]. split; [done|]. right. split; [done|]. split; [done|]. by right.
Qed.

Lemma getitem_nonneg {A} (l : list A) (i : Z) :
  0 <= i -> Py.getitem l i = l !! Z.to_nat i.
Proof. intros Hi. unfold Py.getitem. destruct (Z.ltb_spec i 0); [lia|done]. Qed.

Lemma column_lookup (a : ndarray F) (c : nat) (col : list F) (r : nat) :
  mapM (fun row => row !! c) (data a) = Some col -> col !! r = cell a r c.
Proof.
  intros Hm. apply mapM_Some in Hm. unfold cell.
  destruct (data a !! r) as [row|] eqn:Er; simpl.
  - destruct (Forall2_lookup_l _ _ _ _ _ Hm Er) as (y & Ey & Hy). by rewrite Ey.
  - apply Forall2_length in Hm. apply lookup_ge_None. apply lookup_ge_None in Er. lia.
Qed.

Lemma cell_is_Some (a : ndarray F) (r c : nat) :
  wf_array a -> (r < height a)%nat -> (c < width a)%nat -> is_Some (cell a r c).
Proof.
  intros Hwf Hr Hc. unfold cell.
  destruct (lookup_lt_is_Some_2 (data a) r Hr) as [row Er]. rewrite Er. simpl.
  apply lookup_lt_is_Some_2.
  unfold wf_array in Hwf. rewrite Forall_lookup in Hwf. by rewrite (Hwf _ _ Er).
Qed.

Lemma column_is_Some (a : ndarray F) (c : nat) :
  wf_array a -> (c < width a)%nat -> is_Some (mapM (fun row => row !! c) (data a)).
Proof.
  intros Hwf Hc. apply mapM_is_Some. unfold wf_array in Hwf.
  eapply Forall_impl; [exact Hwf|]. intros row Hrow. simpl in Hrow.
  apply lookup_lt_is_Some_2. lia.
Qed.

Lemma np_max_is_Some (a : ndarray F) :
  wf_array a -> (0 < height a)%nat -> (0 < width a)%nat -> is_Some (np_max a).
Proof.
  intros Hwf Hh Hw. unfold np_max, flatten.
  destruct (concat (data a)) eqn:E; [|simpl; eauto].
  exfalso. unfold height in Hh. destruct (data a) as [|row t] eqn:Ed; [simpl in Hh; lia|].
  unfold wf_array in Hwf. rewrite Ed in Hwf. inversion Hwf as [|?? Hrow _]; subst.
  simpl in E. destruct row; [simpl in Hrow; lia|done].
Qed.

(** C5.  For a spectrum with at least 3 rows and 3 columns the sub-pixel
    refinement reads the four neighbours of the central position
    [(pR, pC)] on row [pR] and column [pC], takes per axis the side maximum
    [v] with its direction [sgn] (-1 toward low indices, +1 toward high),
    and returns [sgn_x * v_x / (max(scps) + v_x)] and
    [sgn_y * v_y / (max(scps) + v_y)]. *)
Theorem subpixel_shifts_from_side_maxima (scps : ndarray F) :
  wf_array scps -> (3 <= height scps)%nat -> (3 <= width scps)%nat ->
  let pR := (height scps / 2)%nat in
  let pC := (width scps / 2)%nat in
  exists sm_left sm_right sm_above sm_below mx v_x v_y sgn_x sgn_y,
    cell scps pR (pC - 1) = Some sm_left /\ cell scps pR (pC + 1) = Some sm_right
    /\ cell scps (pR - 1) pC = Some sm_above /\ cell scps (pR + 1) pC = Some sm_below
    /\ np_max scps = Some mx
    /\ is_side_maximum sm_left sm_right v_x sgn_x
    /\ is_side_maximum sm_above sm_below v_y sgn_y
    /\ _calc_subpixel_shifts scps =
         Some (fdiv (fmul (of_Z sgn_x) v_x) (fadd mx v_x),
               fdiv (fmul (of_Z sgn_y) v_y) (fadd mx v_y)).
Proof.
  intros Hwf Hh Hw pR pC.
  assert (HpR : (1 <= pR /\ pR + 1 < height scps)%nat).
  { subst pR. pose proof (Nat.div_mod_eq (height scps) 2).
    pose proof (Nat.mod_upper_bound (height scps) 2). lia. }
  assert (HpC : (1 <= pC /\ pC + 1 < width scps)%nat).
  { subst pC. pose proof (Nat.div_mod_eq (width scps) 2).
    pose proof (Nat.mod_upper_bound (width scps) 2). lia. }
  destruct (cell_is_Some scps pR (pC - 1) Hwf) as [sm_left El]; [lia|lia|].
  destruct (cell_is_Some scps pR (pC + 1) Hwf) as [sm_right Er]; [lia|lia|].
  destruct (cell_is_Some scps (pR - 1) pC Hwf) as [sm_above Ea]; [lia|lia|].
  destruct (cell_is_Some scps (pR + 1) pC Hwf) as [sm_below Eb]; [lia|lia|].
  destruct (np_max_is_Some scps Hwf) as [mx Emx]; [lia|lia|].
  destruct (column_is_Some scps pC Hwf) as [profileY EY]; [lia|].
  exists sm_left, sm_right, sm_above, sm_below, mx,
    (Py.max2 fgtb sm_left sm_right), (Py.max2 fgtb sm_above sm_below),
    (if fgtb sm_left sm_right then -1 else 1), (if fgtb sm_above sm_below then -1 else 1).
  do 5 (split; [assumption|]).
  split; [apply side_maximum_max2|]. split; [apply side_maximum_max2|].
  unfold _calc_subpixel_shifts, _find_side_maximum, shape. cbn [fst snd].
  assert (EpR : Z.to_nat (Z.of_nat (height scps) / 2) = pR).
  { subst pR. rewrite <- (Nat2Z.id (height scps / 2)). f_equal.
    by rewrite Nat2Z.inj_div. }
  assert (EpC : Z.to_nat (Z.of_nat (width scps) / 2) = pC).
  { subst pC. rewrite <- (Nat2Z.id (width scps / 2)). f_equal.
    by rewrite Nat2Z.inj_div. }
  assert (EZR : Z.of_nat (height scps) / 2 = Z.of_nat pR) by lia.
  assert (EZC : Z.of_nat (width scps) / 2 = Z.of_nat pC) by lia.
  rewrite EpR, EpC, EZR, EZC.
  unfold cell in El, Er.
  destruct (data scps !! pR) as [profileX|] eqn:EX; [|done]. simpl in El, Er. simpl.
  rewrite EY. simpl.
  rewrite !getitem_nonneg by lia.
  replace (Z.to_nat (Z.of_nat pC - 1)) with (pC - 1)%nat by lia.
  replace (Z.to_nat (Z.of_nat pC + 1)) with (pC + 1)%nat by lia.
  replace (Z.to_nat (Z.of_nat pR - 1)) with (pR - 1)%nat by lia.
  replace (Z.to_nat (Z.of_nat pR + 1)) with (pR + 1)%nat by lia.
  rewrite El, Er. simpl.
  rewrite !(column_lookup scps pC profileY _ EY), Ea, Eb. simpl.
  rewrite Emx. simpl. done.
Qed.

End Subpixel.

#[global] Instance Q_NumericOrder : NumericOrder Q.
Proof.
  constructor. intros a b. simpl. intros Hab.
  apply negb_true_iff, Qle_bool_false in Hab.
  apply negb_false_iff, Qle_bool_iff. by apply Qlt_le_weak.
Qed.

Lemma subpixel_shifts_from_side_maxima_witness :
  wf_array Example.scps_3x3
  /\ exists sm_left sm_right sm_above sm_below mx v_x v_y sgn_x sgn_y,
    cell Example.scps_3x3 1 0 = Some sm_left /\ cell Example.scps_3x3 1 2 = Some sm_right
    /\ cell Example.scps_3x3 0 1 = Some sm_above /\ cell Example.scps_3x3 2 1 = Some sm_below
    /\ np_max Example.scps_3x3 = Some mx
    /\ is_side_maximum sm_left sm_right v_x sgn_x
    /\ is_side_maximum sm_above sm_below v_y sgn_y
    /\ _calc_subpixel_shifts Example.scps_3x3 =
         Some (fdiv (fmul (of_Z sgn_x) v_x) (fadd mx v_x),
               fdiv (fmul (of_Z sgn_y) v_y) (fadd mx v_y)).
Proof.
  assert (Hwf : wf_array Example.scps_3x3) by (repeat constructor).
  split; [exact Hwf|].
  apply (subpixel_shifts_from_side_maxima Example.scps_3x3 Hwf); vm_compute; lia.
Defined.

(** ** Reliability *)


Section IndexFilters.
Context {A : Type}.
Implicit Types (l : list A) (P Q : nat -> bool).









End IndexFilters.





Section ReliabilityProofs.
Context {F : Type} `{Numeric F} `{!NumpyStats F}.







End ReliabilityProofs.






(** ** Relations kept by the methods *)

Section Obeys.
Context {F polygon : Type}.
Context (D : Prop) (Rel : option error -> COREG F polygon -> COREG F polygon -> Prop)
  `{!StepRel Rel}.

Lemma obeys_ret {A} (a : A) : obeys D Rel (ret a).
Proof. intros s. apply rel_refl. Qed.

Lemma obeys_raise {A} e : obeys D Rel (@raise F polygon A e).
Proof. intros s. apply rel_raise. Qed.

Lemma obeys_get : obeys D Rel get.
Proof. intros s. apply rel_refl. Qed.

Lemma obeys_bind {A B} (m : M F polygon A) (k : A -> M F polygon B) :
  obeys D Rel m -> (forall a, obeys D Rel (k a)) -> obeys D Rel (bind m k).
Proof.
  intros Hm Hk s. unfold bind. specialize (Hm s). destruct (m s) as [a s1|e s1|]; try done.
  specialize (Hk a s1). destruct (k a s1); try done; by eapply rel_trans.
Qed.

Lemma obeys_or_raise {A} e (o : option A) : obeys D Rel (or_raise e o).
Proof. destruct o; [apply obeys_ret|apply obeys_raise]. Qed.

Lemma obeys_py_assert b a : obeys D Rel (py_assert b a).
Proof. destruct b; [apply obeys_ret|apply obeys_raise]. Qed.

Lemma obeys_when b (m : M F polygon unit) : obeys D Rel m -> obeys D Rel (when b m).
Proof. destruct b; [done|intros _; apply obeys_ret]. Qed.

Lemma obeys_modify f `{!Keeps Rel f} : obeys D Rel (modify f).
Proof. intros s. apply keeps. Qed.

Lemma obeys_handle_error `{!HandlesError Rel} e : obeys D Rel (_handle_error e).
Proof.
  intros s. unfold _handle_error. pose proof (rel_handle_error e s) as Hh. simpl in *.
  by destruct (ignErr (cfg s)).
Qed.

End Obeys.

Ltac obeys_step :=
  cbv beta;
  lazymatch goal with
  | |- obeys _ _ (bind _ _) => apply obeys_bind; [apply _ | | intros ?]
  | |- obeys _ _ (ret _) => apply obeys_ret; apply _
  | |- obeys _ _ (raise _) => apply obeys_raise; apply _
  | |- obeys _ _ get => apply obeys_get; apply _
  | |- obeys _ _ (or_raise _ _) => apply obeys_or_raise; apply _
  | |- obeys _ _ (py_assert _ _) => apply obeys_py_assert; apply _
  | |- obeys _ _ (when _ _) => apply obeys_when; [apply _ |]
  | |- obeys _ _ (_handle_error _) => apply obeys_handle_error; apply _
  | |- obeys _ _ (modify _) => apply obeys_modify; apply _
  | |- obeys _ _ (match ?x with _ => _ end) => destruct x
  | |- obeys _ _ (if ?x then _ else _) => destruct x
  end.

Section Methods.
Context {F polygon : Type} `{Numeric F} `{!NumpyStats F} `{!Geometry F polygon}
  `{!Pipeline F polygon}.
Context (Rel : option error -> COREG F polygon -> COREG F polygon -> Prop)
  `{!StepRel Rel}.

Lemma obeys_windows (D : Prop) `{!HandlesError Rel} `{!forall m o, Keeps Rel (set_wins m o)}
    `{!forall w, Keeps Rel (set_matchWin w)} :
  obeys D Rel _get_image_windows_to_match.
Proof. unfold _get_image_windows_to_match. repeat obeys_step. Qed.

Lemma obeys_scps (D : Prop) `{!HandlesError Rel}
    `{!forall w, Keeps Rel (set_fftw_win_size_YX w)} im0 im1 :
  obeys D Rel (_calc_shifted_cross_power_spectrum im0 im1).
Proof. unfold _calc_shifted_cross_power_spectrum. repeat obeys_step. Qed.

Lemma obeys_validate (D : Prop) `{!HandlesError Rel}
    `{!forall w, Keeps Rel (set_fftw_win_size_YX w)}
    `{!Keeps Rel count_validate_call} im0 im1 x y :
  obeys D Rel (_validate_integer_shifts im0 im1 x y).
Proof.
  unfold _validate_integer_shifts.
  repeat first [ apply obeys_scps; apply _ | obeys_step ].
Qed.

Lemma obeys_loop `{!HandlesError Rel} `{!forall w, Keeps Rel (set_fftw_win_size_YX w)}
    `{!Keeps Rel count_validate_call} `{!forall b, Keeps Rel (set_success b)} fuel im0 im1 L :
  obeys True Rel (validation_loop fuel im0 im1 L).
Proof.
  revert L. induction fuel as [|fuel IH]; intros L; simpl.
  - repeat first [ obeys_step | by intros ? ].
  - repeat first [ apply obeys_validate; apply _ | apply IH | obeys_step ].
Qed.

Lemma obeys_integer_stage `{!HandlesError Rel}
    `{!forall w, Keeps Rel (set_fftw_win_size_YX w)}
    `{!Keeps Rel count_validate_call} `{!forall b, Keeps Rel (set_success b)} im0 im1 scps0 :
  obeys True Rel (integer_shift_stage im0 im1 scps0).
Proof.
  unfold integer_shift_stage.
  repeat first [ apply obeys_validate; apply _ | apply obeys_loop; apply _ | obeys_step ].
Qed.

Lemma obeys_updated_map_info (D : Prop) `{!forall m, Keeps Rel (set_updated_map_info m)} :
  obeys D Rel _get_updated_map_info.
Proof. unfold _get_updated_map_info, mapinfo_float. repeat obeys_step. Qed.

Lemma obeys_report (D : Prop) `{!forall m, Keeps Rel (set_updated_map_info m)}
    `{!forall c h, Keeps Rel (set_report c h)} `{!forall w, Keeps Rel (set_matchWin w)}
    `{!forall r, Keeps Rel (set_shift_reliability r)} L :
  obeys D Rel (report_stage L).
Proof.
  unfold report_stage.
  repeat first [ apply obeys_updated_map_info; apply _ | obeys_step ].
Qed.

Lemma obeys_subpixel (D : Prop) `{!HandlesError Rel} `{!forall b, Keeps Rel (set_success b)}
    `{!forall x y, Keeps Rel (set_shifts_px x y)} `{!forall x y, Keeps Rel (set_shifts_map x y)}
    g L :
  obeys D Rel (subpixel_stage g L).
Proof. unfold subpixel_stage. repeat obeys_step. Qed.

Lemma obeys_calculate `{!HandlesError Rel}
    `{!forall m o, Keeps Rel (set_wins m o)}
    `{!forall w, Keeps Rel (set_fftw_win_size_YX w)}
    `{!Keeps Rel count_validate_call} `{!forall b, Keeps Rel (set_success b)}
    `{!forall x y, Keeps Rel (set_shifts_px x y)} `{!forall x y, Keeps Rel (set_shifts_map x y)}
    `{!forall m, Keeps Rel (set_updated_map_info m)}
    `{!forall c h, Keeps Rel (set_report c h)} `{!forall w, Keeps Rel (set_matchWin w)}
    `{!forall r, Keeps Rel (set_shift_reliability r)} :
  obeys True Rel calculate_spatial_shifts.
Proof.
  unfold calculate_spatial_shifts.
  repeat first [ apply obeys_windows; apply _ | apply obeys_scps; apply _
               | apply obeys_integer_stage; apply _ | apply obeys_subpixel; apply _
               | apply obeys_report; apply _ | obeys_step ].
Qed.

End Methods.

(** ** The relations of the run *)

Section Relations.
Context {F polygon : Type}.
Implicit Types (Rel : option error -> COREG F polygon -> COREG F polygon -> Prop).

#[global] Instance rel_and_step Rel1 Rel2 `{!StepRel Rel1} `{!StepRel Rel2} :
  StepRel (rel_and Rel1 Rel2).
Proof.
  split.
  - intros s. split; apply rel_refl.
  - intros e s. split; apply rel_raise.
  - intros o s s1 s2 [] []. split; by eapply rel_trans.
Qed.

#[global] Instance rel_and_handle Rel1 Rel2 `{!HandlesError Rel1} `{!HandlesError Rel2} :
  HandlesError (rel_and Rel1 Rel2).
Proof.
  intros e s. pose proof (rel_handle_error (Rel:=Rel1) e s) as H1.
  pose proof (rel_handle_error (Rel:=Rel2) e s) as H2. simpl in *.
  by destruct (ignErr (cfg s)).
Qed.

#[global] Instance rel_and_keeps Rel1 Rel2 f `{!Keeps Rel1 f} `{!Keeps Rel2 f} :
  Keeps (rel_and Rel1 Rel2) f.
Proof. intros s. split; apply keeps. Qed.

#[global] Instance Rel_log_step : StepRel (F:=F) (polygon:=polygon) Rel_log.
Proof.
  split.
  - intros s. split; [done|]. exists []. by rewrite app_nil_r.
  - intros e s. split; [done|]. exists []. rewrite app_nil_r. auto.
  - intros o s s1 s2 (Hc1 & es1 & He1 & Hi1) (Hc2 & es2 & He2 & Hi2).
    split; [congruence|]. exists (es1 ++ es2). split.
    + by rewrite He2, He1, app_assoc.
    + intros Hign. rewrite (Hi1 Hign). simpl. apply Hi2. by rewrite Hc1.
Qed.

#[global] Instance Rel_log_handle : HandlesError (F:=F) (polygon:=polygon) Rel_log.
Proof.
  intros e s. simpl. destruct (ignErr (cfg s)) eqn:E.
  - split; [done|]. exists [e]. split; [done|]. by rewrite E.
  - split; [done|]. exists [e]. auto.
Qed.

#[global] Instance Rel_cnt_step : StepRel (F:=F) (polygon:=polygon) Rel_cnt.
Proof. split; try done. intros o s s1 s2 [] []. split; congruence. Qed.

#[global] Instance Rel_cnt_handle : HandlesError (F:=F) (polygon:=polygon) Rel_cnt.
Proof. intros e s. simpl. by destruct (ignErr (cfg s)). Qed.

#[global] Instance Rel_shift_step : StepRel (F:=F) (polygon:=polygon) Rel_shift.
Proof. split; try done. intros o s s1 s2 [] []. split; congruence. Qed.

#[global] Instance Rel_shift_handle : HandlesError (F:=F) (polygon:=polygon) Rel_shift.
Proof. intros e s. simpl. by destruct (ignErr (cfg s)). Qed.

#[global] Instance Rel_success_step : StepRel (F:=F) (polygon:=polygon) Rel_success.
Proof. split; try done. intros o s s1 s2. unfold Rel_success. congruence. Qed.

End Relations.

(** The assignments a relation keeps are found by computation. *)
#[global] Hint Extern 1 (Keeps Rel_log _) =>
  (intros ?; split; [done|]; exists []; by rewrite app_nil_r) : typeclass_instances.
#[global] Hint Extern 1 (Keeps Rel_cnt _) => (intros ?; by split) : typeclass_instances.
#[global] Hint Extern 1 (Keeps Rel_shift _) => (intros ?; by split) : typeclass_instances.
#[global] Hint Extern 1 (Keeps Rel_success _) => (intros ?; done) : typeclass_instances.

Section Totality.
Context {F polygon : Type}.

Lemma wp_frame {A} Rel (m : M F polygon A) s :
  obeys False Rel m ->
  wp m (fun _ s' => Rel None s s') (fun e s' => Rel (Some e) s s') s.
Proof. intros Hm. unfold wp. specialize (Hm s). by destruct (m s). Qed.

Lemma wp_and {A} Rel (m : M F polygon A) (Q : A -> COREG F polygon -> Prop) E s :
  wp m Q E s -> obeys True Rel m ->
  wp m (fun a s' => Q a s' /\ Rel None s s') (fun e s' => E e s' /\ Rel (Some e) s s') s.
Proof. unfold wp. intros Hw Ho. specialize (Ho s). by destruct (m s). Qed.

End Totality.

(** ** The validation of the integer shifts *)

Ltac wp_go :=
  repeat first
    [ wp_step
    | progress cbv beta zeta
    | lazymatch goal with
      | |- wp (match ?x with _ => _ end) _ _ _ => destruct x eqn:?
      | |- wp (if ?x then _ else _) _ _ _ => destruct x eqn:?
      | |- if ?b then _ else _ => destruct b eqn:?
      | |- match ?x with _ => _ end => destruct x eqn:?
      end ].

Ltac bools :=
  repeat match goal with
  | H : (_ >? _) = true |- _ => apply Z.gtb_lt in H
  | H : (_ >? _) = false |- _ => rewrite Z.gtb_ltb in H; apply Z.ltb_ge in H
  | H : (_ =? _) = true |- _ => apply Z.eqb_eq in H
  | H : (_ =? _) = false |- _ => apply Z.eqb_neq in H
  end.

Section Validation.
Context {F polygon : Type} `{Numeric F} `{!NumpyStats F} `{!Geometry F polygon}
  `{!Pipeline F polygon}.

Lemma last_append_error e (s : COREG F polygon) :
  last_error (set_success (Some false) (append_error e s)) = Some e.
Proof. unfold last_error. simpl. apply last_snoc. Qed.

Lemma scps_counts im0 im1 (s : COREG F polygon) :
  wp (_calc_shifted_cross_power_spectrum im0 im1)
     (fun r s' => cfg s' = cfg s /\ validate_calls s' = validate_calls s
                  /\ (r = None -> success s' = Some false))
     (fun e s' => cfg s' = cfg s /\ validate_calls s' = validate_calls s
                  /\ e <> RuntimeError NoMatchFound) s.
Proof.
  unfold _calc_shifted_cross_power_spectrum. wp_go; simpl; repeat split; congruence.
Qed.

(** One validation: counted once; it never gives up the search itself; and
    a result that is 'invalid' without a shift has set [success] to False. *)
Lemma validate_counts im0 im1 x y (s : COREG F polygon) :
  wp (_validate_integer_shifts im0 im1 x y)
     (fun v s' => cfg s' = cfg s /\ validate_calls s' = S (validate_calls s)
                  /\ (is_valid v = false -> val_shift v = None -> success s' = Some false))
     (fun e s' => cfg s' = cfg s /\ validate_calls s' = S (validate_calls s)
                  /\ e <> RuntimeError NoMatchFound) s.
Proof.
  unfold _validate_integer_shifts. wp_step. wp_step. cbv beta.
  destruct (negb _); [|wp_go; simpl; repeat split; congruence].
  wp_step. wp_step. destruct (_get_grossly_deshifted_images _ _ _ _ _) as [g c].
  wp_step. eapply wp_mono; [apply scps_counts|..]; cbv beta.
  - intros r s' (Hc & Hv & Hs). simpl in Hc, Hv.
    wp_go; simpl; repeat split; try congruence; auto.
  - intros e s' (Hc & Hv & He). simpl in Hc, Hv. repeat split; congruence.
Qed.

End Validation.

Ltac fin :=
  simpl; rewrite ?last_append_error; repeat split; try lia; try done; try congruence.

Section Loop.
Context {F polygon : Type} `{Numeric F} `{!NumpyStats F} `{!Geometry F polygon}
  `{!Pipeline F polygon}.

(** The [while] loop entered with [count_iter L]: it ends, after at most
    [max_iter - count_iter L] validations. *)
Lemma validation_loop_counts (fuel : nat) im0 im1 :
  forall (L : @locals F) (s : COREG F polygon),
  max_iter (cfg s) - count_iter L <= Z.of_nat fuel ->
  wp (validation_loop fuel im0 im1 L)
     (loop_post (Z.max 0 (max_iter (cfg s) - count_iter L)) s)
     (loop_exc (Z.max 0 (max_iter (cfg s) - count_iter L)) s) s.
Proof.
  induction fuel as [|fuel IH]; intros L s Hfuel.
  - unfold validation_loop, loop_post, loop_exc, exhausted, validations.
    wp_go; bools; fin. right. fin.
  - cbn [validation_loop].
    destruct (valid_invalid L) eqn:Hv.
    { wp_step. unfold loop_post, validations. fin. }
    wp_step. wp_step. cbv beta. cbn [count_iter xy_val_shift x_intshift y_intshift].
    destruct (count_iter L + 1 >? max_iter (cfg s)) eqn:Hc; bools.
    { unfold loop_post, loop_exc, exhausted, validations. wp_go; fin. right. fin. }
    destruct (xy_val_shift L) as [[xv yv]|] eqn:Hxy.
    2:{ unfold loop_post, validations. wp_go; fin. by left. }
    wp_step. eapply wp_mono; [apply validate_counts|..]; cbv beta.
    2:{ intros e s' (Hcfg & Hn & He). unfold loop_exc, validations. fin. }
    intros v s1 (Hcfg & Hn & Hnone).
    wp_step.
    assert (Hnext : forall (xy : Z * Z) (s2 : COREG F polygon),
               cfg s2 = cfg s1 -> validate_calls s2 = validate_calls s1 ->
               wp (validation_loop fuel im0 im1
                     {| valid_invalid := is_valid v; xy_val_shift := val_shift v;
                        scps := val_scps v; x_intshift := xy.1; y_intshift := xy.2;
                        count_iter := count_iter L + 1 |})
                  (loop_post (Z.max 0 (max_iter (cfg s) - count_iter L)) s)
                  (loop_exc (Z.max 0 (max_iter (cfg s) - count_iter L)) s) s2).
    { intros xy s2 Hc2 Hn2.
      eapply wp_mono; [apply IH; cbn [count_iter]; rewrite Hc2, Hcfg; lia|..];
        cbn [count_iter valid_invalid xy_val_shift]; rewrite Hc2, Hcfg.
      - intros L' s' (Hc' & Hb' & Hinv). unfold loop_post, exhausted, validations in *.
        split; [congruence|]. split; [lia|]. intros Hf. destruct (Hinv Hf) as (Hs & Hor).
        split; [done|]. destruct Hor as [Hl|(Hi & He1 & He2 & He3)]; [by left|right]. fin.
      - intros e s' (Hc' & Hb' & Hinv). unfold loop_exc, exhausted, validations in *.
        split; [congruence|]. split; [lia|]. intros Hf.
        destruct (Hinv Hf) as (Hi & He1 & He2 & He3). fin. }
    wp_step. destruct (is_valid v) eqn:Hval.
    + wp_step. apply Hnext; simpl; done.
    + apply Hnext; simpl; done.
Qed.

(** Lines 1264-1296: the search for the integer shifts ends, after at most
    [max(1, max_iter)] validations. *)
Lemma integer_stage_counts im0 im1 scps0 (s : COREG F polygon) :
  wp (integer_shift_stage im0 im1 scps0)
     (loop_post (max_validations s) s) (loop_exc (max_validations s) s) s.
Proof.
  unfold integer_shift_stage, max_validations.
  wp_step. wp_step. destruct (_calc_integer_shifts scps0) as [[x y]|].
  2:{ unfold loop_exc, validations. fin. }
  destruct ((x =? 0) && (y =? 0)).
  { unfold loop_post, validations. wp_go. fin. }
  wp_step. eapply wp_mono; [apply validate_counts|..]; cbv beta.
  2:{ intros e s' (Hcfg & Hn & He). unfold loop_exc, validations. fin. }
  intros v s1 (Hcfg & Hn & _). wp_step. wp_step.
  eapply wp_mono; [apply validation_loop_counts; cbn [count_iter]; lia|..];
    cbn [count_iter]; rewrite Hcfg.
  - intros L' s' (Hc' & Hb' & Hinv). unfold loop_post, exhausted, validations in *.
    split; [congruence|]. split; [lia|]. intros Hf. destruct (Hinv Hf) as (Hs & Hor).
    split; [done|]. destruct Hor as [Hl|(Hi & He1 & He2 & He3)]; [by left|right]. fin.
  - intros e s' (Hc' & Hb' & Hinv). unfold loop_exc, exhausted, validations in *.
    split; [congruence|]. split; [lia|]. intros Hf.
    destruct (Hinv Hf) as (Hi & He1 & He2 & He3). fin.
Qed.

End Loop.

(** ** A run of [calculate_spatial_shifts] *)

Section Run.
Context {F polygon : Type} `{Numeric F} `{!NumpyStats F} `{!Geometry F polygon}
  `{!Pipeline F polygon}.

(** Lines 1298-1318 set the pixel shifts only after [success = True]. *)
Lemma subpixel_shifts g L (s : COREG F polygon) :
  wp (subpixel_stage g L)
     (fun _ s' => Rel_shift None s s' \/ success s' = Some true)
     (fun _ s' => Rel_shift None s s') s.
Proof. unfold subpixel_stage. wp_go; simpl; first [done|by left|by right]. Qed.

(** The four parts of a run: the windows and the first spectrum ([s] to
    [a]), the integer shifts ([a] to [b]), the sub-pixel shifts ([b] to
    [c]), the report ([c] to [d]). *)
Lemma run_post_frame o o' o'' o3 (s a b c d : COREG F polygon) :
  rel_and Rel_cnt Rel_shift o s a ->
  cfg b = cfg a /\ 0 <= validations a b <= max_validations a -> Rel_shift o' a b ->
  (Rel_shift None b c \/ success c = Some true) -> Rel_cnt o'' b c ->
  rel_and Rel_cnt (rel_and Rel_shift Rel_success) o3 c d ->
  run_post s d.
Proof.
  intros [[Hc Hn] [Hx Hy]] (Hcb & Hv) [Hxb Hyb] Hsub [Hcc Hnc] [[Hcd Hnd] [[Hxd Hyd] Hsd]].
  unfold run_post, bounded, validations, max_validations, Rel_shift, Rel_success in *.
  rewrite Hc in Hv. split; [lia|].
  destruct Hsub as [[Hxc Hyc]|Hs]; [left; split; congruence|right; congruence].
Qed.

Lemma calculate_run (s : COREG F polygon) :
  wp calculate_spatial_shifts (fun _ s' => run_post s s') (fun _ s' => run_post s s') s.
Proof.
  assert (Hidle : forall o (a : COREG F polygon),
             rel_and Rel_cnt Rel_shift o s a -> run_post s a).
  { intros o a Ha.
    apply (run_post_frame o None None None s a a a a);
      first [done|by left|by repeat split
            |unfold validations, max_validations; split; [done|lia]]. }
  unfold calculate_spatial_shifts. wp_step. wp_step.
  assert (Hs : run_post s s) by by apply (Hidle None).
  destruct (success s) as [[|]|]; [|by wp_step|].
  all: wp_step;
    (eapply wp_mono;
     [apply (wp_frame (rel_and Rel_cnt Rel_shift)), obeys_windows; apply _|..]);
    cbv beta; [|intros e s1; apply Hidle]; intros _ s1 H1.
  all: wp_step; wp_step; wp_step; wp_step; destruct (matchWin s1) as [mw|];
    [|by apply (Hidle None)].
  all: wp_step; wp_step; destruct (otherWin s1) as [ow|]; [|by apply (Hidle None)].
  all: wp_step; wp_step; destruct (imfft_gsd s1) as [g|]; [|by apply (Hidle None)].
  all: wp_step;
    (eapply wp_mono;
     [apply (wp_frame (rel_and Rel_cnt Rel_shift)), obeys_scps; apply _|..]);
    cbv beta; [|intros e s2 H2; apply (Hidle (Some e)); by eapply rel_trans].
  all: intros [scps0|] s2 H2;
    [|wp_step; wp_step; wp_step; apply (Hidle None);
      eapply rel_trans; [done|]; eapply rel_trans; [done|]; by apply keeps].
  all: assert (H12 : rel_and Rel_cnt Rel_shift None s s2) by by eapply rel_trans.
  all: wp_step;
    (eapply wp_mono;
     [apply (wp_and Rel_shift), obeys_integer_stage; [apply integer_stage_counts|apply _..]
     |..]);
    cbv beta;
    [|intros e s3 [(Hc3 & Hv3 & _) Hx3];
      apply (run_post_frame None (Some e) None None s s2 s3 s3 s3); try done; by left].
  all: intros L s3 [(Hc3 & Hv3 & _) Hx3].
  all: wp_step;
    (eapply wp_mono;
     [apply (wp_and Rel_cnt), obeys_subpixel; [apply subpixel_shifts|apply _..]|..]);
    cbv beta;
    [|intros e s4 [Hx4 Hc4];
      apply (run_post_frame None None (Some e) None s s2 s3 s4 s4); try done; by left].
  all: intros _ s4 [Hx4 Hc4].
  all: wp_step;
    (eapply wp_mono;
     [apply (wp_frame (rel_and Rel_cnt (rel_and Rel_shift Rel_success))), obeys_report;
      apply _|..]);
    cbv beta; [intros _ s5 H5; wp_step|intros e s5 H5].
  all: by eapply (run_post_frame None None None _ s s2 s3 s4 s5).
Qed.


(** C2 (as amended).  An error given to [_handle_error] is appended to the
    log and sets [success] to False, leaving the pixel shifts alone; it is
    raised exactly when [ignore_errors] is off.  In a run of
    [calculate_spatial_shifts] the log only grows at its end; without
    [ignore_errors] a run that returns has logged nothing and a run that
    raises has logged at most the error it raises; and a run that ends with
    [success = False] has left the pixel shifts as they were.  The checks
    of the constructor do not go through the handler: whatever
    [ignore_errors] is, unequal projections raise the assertion error, and
    the constructor logs nothing and leaves [success] unset. *)
Theorem errors_are_tracked (e : error) (s : COREG F polygon)
    (p : params) (r t : raster F polygon) :
  wp (_handle_error e)
     (fun _ s' => ignErr (cfg s) = true /\ handled e s s')
     (fun e' s' => ignErr (cfg s) = false /\ e' = e /\ handled e s s') s
  /\ wp calculate_spatial_shifts
        (fun _ s' => Rel_log None s s' /\ (success s' = Some false -> Rel_shift None s s'))
        (fun e' s' => Rel_log (Some e') s s'
                      /\ (success s' = Some false -> Rel_shift None s s')) s
  /\ (prj_equal (prj r) (prj t) = false ->
      __init__ p r t = Raised (AssertionError ProjectionsNotEqual) (new_COREG p r t))
  /\ match __init__ p r t with
     | Ok _ s' => tracked_errors s' = [] /\ success s' = None
     | Raised e' s' =>
         (exists a, e' = AssertionError a) /\ tracked_errors s' = [] /\ success s' = None
     | OutOfFuel => False
     end.
Proof.
  split; [|split; [|split]].
  - unfold wp, _handle_error, handled. simpl. by destruct (ignErr (cfg s)).
  - eapply wp_mono.
    + apply (wp_and Rel_log), obeys_calculate; [apply calculate_run|apply _..].
    + intros _ s' [[_ [Hk|Hs]] Hl]; (split; [done|]); [done|congruence].
    + intros e' s' [[_ [Hk|Hs]] Hl]; (split; [done|]); [done|congruence].
  - intros Hprj. unfold __init__, _get_image_params, bind, get, py_assert. simpl.
    by rewrite Hprj.
  - change (wp (_get_image_params ;;
                s <- get ;;
                modify (set_grid2use (grid2use_of (ref s) (shift s))) ;;
                _get_overlap_properties)
               (fun _ s' => tracked_errors s' = [] /\ success s' = None)
               (fun e' s' => (exists a, e' = AssertionError a)
                             /\ tracked_errors s' = [] /\ success s' = None)
               (new_COREG p r t)).
    unfold _get_image_params, _get_overlap_properties.
    wp_go; simpl; repeat split; eauto.
Qed.

End Run.


(** C2, the claim as stated fails: with [ignore_errors=True] and two images
    in different projections the constructor raises the assertion error of
    [_get_image_params]; the error is not logged and [success] is not set to
    False. *)
Lemma assertion_error_is_raised_when_ignoring_errors :
  ignErr Example.ignoring_errors = true
  /\ match __init__ Example.ignoring_errors Example.image_10m Example.image_10m_utm32 with
     | Raised e s' =>
         e = AssertionError ProjectionsNotEqual
         /\ tracked_errors s' = [] /\ success s' = None
     | _ => False
     end.
Proof. split; [reflexivity|]. vm_compute. repeat split; reflexivity. Qed.

(** ** The shift report and its inversion *)

Section Report.
Context {F polygon : Type} `{Numeric F} `{!NumpyStats F} `{!Geometry F polygon}
  `{!Pipeline F polygon}.

Lemma wp_alloc d (Q : loc -> COREG F polygon -> Prop) E (s : COREG F polygon) :
  (forall l, heap s !! l = None ->
             Q l (set_report (_coreg_info s) (<[l := d]> (heap s)) s)) ->
  wp (alloc d) Q E s.
Proof. intros HQ. unfold wp, alloc. apply HQ. apply not_elem_of_dom, is_fresh. Qed.

Lemma wp_deref l d (Q : gmap string (pyval F) -> COREG F polygon -> Prop) E
    (s : COREG F polygon) :
  heap s !! l = Some d -> Q d s -> wp (deref l) Q E s.
Proof. intros Hl HQ. unfold wp, deref, bind, get, or_raise. by rewrite Hl. Qed.

Lemma wp_dict_get l d k v (Q : pyval F -> COREG F polygon -> Prop) E (s : COREG F polygon) :
  heap s !! l = Some d -> d !! k = Some v -> Q v s -> wp (dict_get l k) Q E s.
Proof.
  intros Hl Hk HQ. unfold wp, dict_get, deref, bind, get, or_raise. rewrite Hl. simpl.
  by rewrite Hk.
Qed.

Lemma wp_dict_set l d k v (Q : unit -> COREG F polygon -> Prop) E (s : COREG F polygon) :
  heap s !! l = Some d ->
  Q tt (set_report (_coreg_info s) (<[l := <[k := v]> d]> (heap s)) s) ->
  wp (dict_set l k v) Q E s.
Proof.
  intros Hl HQ. unfold wp, dict_set, deref, bind, get, or_raise, modify. by rewrite Hl.
Qed.

(** [d[k][k2] *= -1] writes to the object [d[k]] refers to. *)
Lemma wp_item_imul_neg1 l d k li di k2 x (Q : unit -> COREG F polygon -> Prop) E
    (s : COREG F polygon) :
  heap s !! l = Some d -> d !! k = Some (VRef li) ->
  heap s !! li = Some di -> di !! k2 = Some (VNum x) ->
  Q tt (set_report (_coreg_info s)
          (<[li := <[k2 := VNum (fmul x (of_Z (-1)))]> di]> (heap s)) s) ->
  wp (item_imul_neg1 l k k2) Q E s.
Proof.
  intros Hl Hk Hli Hk2 HQ. unfold item_imul_neg1.
  wp_step. eapply wp_dict_get; [done..|]. cbv beta iota.
  wp_step. eapply wp_dict_get; [done..|]. cbv beta iota.
  by eapply wp_dict_set.
Qed.

Lemma set_report_set_report c h c' h' (s : COREG F polygon) :
  set_report c h (set_report c' h' s) = set_report c h s.
Proof. reflexivity. Qed.

Lemma heap_set_report c h (s : COREG F polygon) : heap (set_report c h s) = h.
Proof. reflexivity. Qed.

Lemma coreg_info_set_report c h (s : COREG F polygon) : _coreg_info (set_report c h s) = c.
Proof. reflexivity. Qed.

#[global] Instance Rel_heap_step linv : StepRel (F:=F) (polygon:=polygon) (Rel_heap linv).
Proof.
  split; try done.
  intros o s s1 s2 (Hc1 & Hh1 & Hx1 & Hy1 & Hxm1 & Hym1) (Hc2 & Hh2 & Hx2 & Hy2 & Hxm2 & Hym2).
  repeat split; try congruence. intros l Hl. rewrite Hh2, Hh1; done.
Qed.

Lemma obeys_dict_get D linv l k : obeys (F:=F) (polygon:=polygon) D (Rel_heap linv) (dict_get l k).
Proof. unfold dict_get, deref. repeat obeys_step. Qed.

Lemma obeys_dict_set D linv k v :
  obeys (F:=F) (polygon:=polygon) D (Rel_heap linv) (dict_set linv k v).
Proof.
  unfold dict_set, deref. intros s. unfold bind, get, or_raise, modify.
  destruct (heap s !! linv) as [d|]; [|done].
  repeat split; try done. intros l Hl. simpl. by rewrite lookup_insert_ne.
Qed.

Lemma reports_entries (s : COREG F polygon) l0 lpx lmp px py mx my :
  reports s l0 lpx lmp px py mx my ->
  report_entry s "corrected_shifts_px" "x" = Some px
  /\ report_entry s "corrected_shifts_px" "y" = Some py
  /\ report_entry s "corrected_shifts_map" "x" = Some mx
  /\ report_entry s "corrected_shifts_map" "y" = Some my.
Proof.
  intros (Hc & _ & _ & _ & d0 & dpx & dmp & H0 & Hkp & Hkm & Hp & Hpx & Hpy & Hm & Hmx & Hmy).
  unfold report_entry. rewrite Hc. simpl. rewrite H0. simpl.
  rewrite Hkp, Hkm. simpl. rewrite Hp, Hm. simpl. done.
Qed.

Lemma reports_frame linv o (s s' : COREG F polygon) l0 lpx lmp px py mx my :
  Rel_heap linv o s s' -> l0 <> linv -> lpx <> linv -> lmp <> linv ->
  reports s l0 lpx lmp px py mx my -> reports s' l0 lpx lmp px py mx my.
Proof.
  intros (Hc & Hh & _) Hn0 Hnp Hnm (Hc0 & Hn1 & Hn2 & Hn3 & d0 & dpx & dmp & Hrest).
  split; [congruence|]. repeat (split; [done|]). exists d0, dpx, dmp.
  by rewrite !Hh.
Qed.

End Report.

Ltac norm :=
  rewrite ?set_report_set_report, ?heap_set_report, ?coreg_info_set_report.
Ltac norm_in H :=
  rewrite ?set_report_set_report, ?heap_set_report, ?coreg_info_set_report in H.

Section Inversion.
Context {F polygon : Type} `{Numeric F} `{!NumpyStats F} `{!Geometry F polygon}
  `{!Pipeline F polygon}.

(** Lines 1360-1381: the first access builds the report from the shifts. *)
Lemma coreg_info_builds (s : COREG F polygon) b :
  cached_report s = None -> success s = Some b ->
  wp coreg_info
     (fun l0 s' => (exists lpx lmp,
                      reports s' l0 lpx lmp (of_opt (x_shift_px s)) (of_opt (y_shift_px s))
                                            (of_opt (x_shift_map s)) (of_opt (y_shift_map s)))
                   /\ same_shifts s s')
     (fun _ _ => False) s.
Proof.
  intros Hcache Hsucc. unfold coreg_info.
  wp_step. wp_step. cbv beta. rewrite Hcache, Hsucc.
  wp_step. wp_step. wp_step. wp_step. cbv beta.
  destruct (gt (ref s)) as [[[[[gt0 gt1] gt2] gt3] gt4] gt5].
  wp_step. apply wp_alloc. intros lpx Hpx.
  wp_step. apply wp_alloc. intros lmp Hmp. norm_in Hmp. norm.
  wp_step. apply wp_alloc. intros lext Hext. norm_in Hext. norm.
  wp_step. apply wp_alloc. intros l0 Hl0. norm_in Hl0. norm.
  wp_step. wp_step. wp_step. wp_step. wp_step. cbv beta. norm.
  apply lookup_insert_None in Hmp as [Hmp Hn1].
  apply lookup_insert_None in Hext as [Hext Hn2].
  apply lookup_insert_None in Hext as [Hext Hn3].
  apply lookup_insert_None in Hl0 as [Hl0 Hn4].
  apply lookup_insert_None in Hl0 as [Hl0 Hn5].
  apply lookup_insert_None in Hl0 as [Hl0 Hn6].
  split.
  - exists lpx, lmp. split; [done|]. repeat (split; [congruence|]).
    eexists _, _, _. norm.
    rewrite lookup_insert_eq.
    repeat (split; [by simplify_map_eq|]). by simplify_map_eq.
  - by repeat split.
Qed.

(** Lines 1387-1391 on a report held at [l0]: the copy is a new object
    [linv], and the four negations go to the objects [lpx] and [lmp] the
    report itself refers to. *)
Lemma wp_copy_and_negate {A} (K : loc -> M F polygon A) Q E
    (s s1 : COREG F polygon) l0 lpx lmp x y xm ym :
  reports s1 l0 lpx lmp (VNum x) (VNum y) (VNum xm) (VNum ym) ->
  same_shifts s s1 ->
  (forall linv s',
     l0 <> linv -> lpx <> linv -> lmp <> linv ->
     reports s' l0 lpx lmp (VNum (fmul x (of_Z (-1)))) (VNum (fmul y (of_Z (-1))))
                (VNum (fmul xm (of_Z (-1)))) (VNum (fmul ym (of_Z (-1)))) ->
     same_shifts s s' ->
     wp (K linv) Q E s') ->
  wp (inv_coreg_info <- copy_dict l0 ;;
      item_imul_neg1 inv_coreg_info "corrected_shifts_px" "x" ;;
      item_imul_neg1 inv_coreg_info "corrected_shifts_px" "y" ;;
      item_imul_neg1 inv_coreg_info "corrected_shifts_map" "x" ;;
      item_imul_neg1 inv_coreg_info "corrected_shifts_map" "y" ;;
      K inv_coreg_info) Q E s1.
Proof.
  intros (Hc & Hn1 & Hn2 & Hn3 & d0 & dpx & dmp & H0 & Hkp & Hkm
          & Hp & Hpx & Hpy & Hm & Hmx & Hmy) Hsame HK.
  wp_step. unfold copy_dict. wp_step. eapply wp_deref; [done|].
  apply wp_alloc. intros linv Hinv.
  assert (l0 <> linv) by congruence. assert (lpx <> linv) by congruence.
  assert (lmp <> linv) by congruence.
  wp_step. eapply (wp_item_imul_neg1 linv d0 _ lpx dpx _ x); norm;
    [by simplify_map_eq..|].
  wp_step. eapply (wp_item_imul_neg1 linv d0 _ lpx _ _ y); norm;
    [by simplify_map_eq..|].
  wp_step. eapply (wp_item_imul_neg1 linv d0 _ lmp dmp _ xm); norm;
    [by simplify_map_eq..|].
  wp_step. eapply (wp_item_imul_neg1 linv d0 _ lmp _ _ ym); norm;
    [by simplify_map_eq..|].
  apply HK; try done.
  split; [by norm|]. repeat (split; [done|]).
  eexists _, _, _. norm. repeat (split; [by simplify_map_eq|]). by simplify_map_eq.
Qed.

(** Lines 1392-1403 write to the copy only. *)
Lemma obeys_inverted_tail D linv (s0 : COREG F polygon) :
  obeys (F:=F) (polygon:=polygon) D (Rel_heap linv)
    (dict_set linv "original map info"
       (VMapInfo (geotransform2mapinfo (gt (ref s0)) (prj (ref s0)))) ;;
     dict_set linv "reference geotransform" (VGt (gt (shift s0))) ;;
     dict_set linv "reference grid" (VGrid (xygrid_specs (shift s0))) ;;
     dict_set linv "reference projection" (VStr (prj (shift s0))) ;;
     umi <- dict_get linv "updated map info" ;;
     match umi with
     | VMapInfo (_ :: _) =>
         v3 <- mapinfo_float (geotransform2mapinfo (gt (ref s0)) (prj (ref s0))) 3 ;;
         x <- or_raise TypeError (x_shift_map s0) ;;
         v4 <- mapinfo_float (geotransform2mapinfo (gt (ref s0)) (prj (ref s0))) 4 ;;
         y <- or_raise TypeError (y_shift_map s0) ;;
         dict_set linv "updated map info"
           (VMapInfo (<[4%nat := MiNum (fsub v4 y)]>
                        (<[3%nat := MiNum (fsub v3 x)]>
                           (geotransform2mapinfo (gt (ref s0)) (prj (ref s0))))))
     | _ => ret tt
     end ;;
     ret linv).
Proof.
  unfold mapinfo_float.
  repeat first [ apply obeys_dict_set | apply obeys_dict_get | obeys_step ].
Qed.

(** A report that is cached is returned as it is. *)
Lemma coreg_info_cached (s : COREG F polygon) l0 lpx lmp px py mx my :
  reports s l0 lpx lmp px py mx my ->
  wp coreg_info (fun l s' => l = l0 /\ s' = s) (fun _ _ => False) s.
Proof.
  intros (Hc & _ & _ & _ & d0 & dpx & dmp & H0 & Hkp & _).
  unfold coreg_info. wp_step. wp_step. cbv beta.
  assert (Hcache : cached_report s = Some l0).
  { unfold cached_report. rewrite Hc. simpl. rewrite H0. simpl.
    destruct (size d0 =? 0)%nat eqn:Hsz; [|done].
    apply Nat.eqb_eq, map_size_empty_iff in Hsz. by rewrite Hsz in Hkp. }
  rewrite Hcache. by wp_step.
Qed.


End Inversion.


(** ** The limit on the shift, in pixels of the matching grid *)

Section ShiftLimit.
Context {polygon : Type} `{!Geometry Q polygon}.

Lemma max2_exceeds (a b m : Q) :
  fgtb (Py.max2 fgtb a b) m = false <-> (a <= m)%Q /\ (b <= m)%Q.
Proof.
  unfold Py.max2. simpl. rewrite negb_false_iff, Qle_bool_iff.
  destruct (negb (Qle_bool b a)) eqn:E.
  - apply negb_true_iff, Qle_bool_false in E. split.
    + intros Hb. split; [|done]. apply Qlt_le_weak. by eapply Qlt_le_trans.
    + by intros [_ ?].
  - apply negb_false_iff, Qle_bool_iff in E. split.
    + intros Ha. split; [done|]. by eapply Qle_trans.
    + by intros [? _].
Qed.

(** Lines 1298-1318, with exact numbers.  When the stage is reached with a
    spectrum that gives sub-pixel shifts, either both components of the
    total shift, in pixels of the matching grid, are within [max_shift], and
    then [success] is True and the pixel shifts are the total shift times
    [gsd_factor]; or one of them exceeds [max_shift], and then the error
    'shift too large' is handled (logged, [success] False, the pixel shifts
    untouched) and raised unless errors are ignored. *)
Theorem shift_limit_on_the_matching_grid (g : Q) (L : @locals Q) (s : COREG Q polygon)
    (a : ndarray Q) (sub : Q * Q) :
  success s <> Some false -> scps L = Some a -> _calc_subpixel_shifts a = Some sub ->
  wp (subpixel_stage g L)
     (fun _ s' =>
        (within_max_shift (cfg s) (total_shift L sub)
         /\ success s' = Some true
         /\ x_shift_px s' = Some ((total_shift L sub).1 * g)%Q
         /\ y_shift_px s' = Some ((total_shift L sub).2 * g)%Q)
        \/ (~ within_max_shift (cfg s) (total_shift L sub)
            /\ ignErr (cfg s) = true /\ handled (RuntimeError ShiftTooLarge) s s'))
     (fun e s' =>
        ~ within_max_shift (cfg s) (total_shift L sub)
        /\ ignErr (cfg s) = false /\ e = RuntimeError ShiftTooLarge /\ handled e s s') s.
Proof.
  intros Hsucc Hscps Hsub. unfold subpixel_stage.
  destruct sub as [xs ys]. unfold total_shift, within_max_shift. cbn [fst snd].
  wp_step. wp_step. cbv beta.
  destruct (success s) as [[|]|]; [|done|].
  all: rewrite Hscps; wp_step; wp_step; rewrite Hsub; wp_step; wp_step; cbv beta iota.
  all: destruct (_get_total_shifts (x_intshift L) (y_intshift L) xs ys) as [tx ty] eqn:Ht.
  all: cbn [fst snd].
  all: destruct (fgtb (Py.max2 fgtb (fabs tx) (fabs ty)) (of_Z (max_shift (cfg s)))) eqn:Hgt.
  all: try (assert (Hnot : ~ ((Qabs tx <= inject_Z (max_shift (cfg s)))%Q
                      /\ (Qabs ty <= inject_Z (max_shift (cfg s)))%Q))
              by (intros Hin; apply max2_exceeds in Hin; simpl in *; congruence);
            wp_go; simpl; first [right; by repeat split | by repeat split]).
  all: apply max2_exceeds in Hgt.
  all: wp_step; wp_step; wp_step; wp_step; cbv beta.
  all: destruct (imXY2mapXY _ _) as [nx ny];
    destruct (gt (shift s)) as [[[[[g0 g1] g2] g3] g4] g5].
  all: wp_step; left; repeat split; try done; apply Hgt.
Qed.

End ShiftLimit.

Lemma shift_limit_on_the_matching_grid_witness :
  wp (subpixel_stage 3%Q Example.locals_3x3)
     (fun _ s' =>
        (within_max_shift (cfg Example.planned_30m_10m)
           (total_shift Example.locals_3x3 (4 # 13, 5 # 14)%Q)
         /\ success s' = Some true
         /\ x_shift_px s' = Some ((total_shift Example.locals_3x3 (4 # 13, 5 # 14)%Q).1 * 3)%Q
         /\ y_shift_px s' = Some ((total_shift Example.locals_3x3 (4 # 13, 5 # 14)%Q).2 * 3)%Q)
        \/ (~ within_max_shift (cfg Example.planned_30m_10m)
                (total_shift Example.locals_3x3 (4 # 13, 5 # 14)%Q)
            /\ ignErr (cfg Example.planned_30m_10m) = true
            /\ handled (RuntimeError ShiftTooLarge) Example.planned_30m_10m s'))
     (fun e s' =>
        ~ within_max_shift (cfg Example.planned_30m_10m)
            (total_shift Example.locals_3x3 (4 # 13, 5 # 14)%Q)
        /\ ignErr (cfg Example.planned_30m_10m) = false /\ e = RuntimeError ShiftTooLarge
        /\ handled e Example.planned_30m_10m s')
     Example.planned_30m_10m.
Proof.
  apply (shift_limit_on_the_matching_grid 3%Q Example.locals_3x3 Example.planned_30m_10m
           Example.scps_3x3 (4 # 13, 5 # 14)%Q).
  - vm_compute. discriminate.
  - reflexivity.
  - vm_compute. reflexivity.
Defined.

(** ** The limit on the shift, in pixels of the reference *)

(** C1.  A 10 m reference and a 30 m target: the matching grid is the grid
    of the target, and the windows are 16 x 16 on that grid.  The peak of
    the spectrum lies 4 columns right of the centre, so the shift is 4
    pixels of the matching grid, which is 120 m, or 12 pixels of the
    reference.  With [max_shift = 5] the run succeeds all the same, without
    any error, and reports the shift: line 1304 compares the shift in
    pixels of the matching grid with [max_shift]. *)
Theorem max_shift_is_checked_on_the_matching_grid :
  max_shift Example.default_params = 5
  /\ xgsd Example.fimage_10m = 10%float
  /\ grid2use (Example.constructed Example.default_params
                 Example.fimage_10m Example.fimage_30m) = Shift
  /\ imfft_gsd (Example.constructed Example.default_params
                  Example.fimage_10m Example.fimage_30m) = Some 30%float
  /\ success <$>
       final_state (Example.impulse_run Example.default_params
                      Example.fimage_10m Example.fimage_30m 8 12) = Some (Some true)
  /\ tracked_errors <$>
       final_state (Example.impulse_run Example.default_params
                      Example.fimage_10m Example.fimage_30m 8 12) = Some []
  /\ x_shift_px <$>
       final_state (Example.impulse_run Example.default_params
                      Example.fimage_10m Example.fimage_30m 8 12) = Some (Some 4%float)
  /\ x_shift_map <$>
       final_state (Example.impulse_run Example.default_params
                      Example.fimage_10m Example.fimage_30m 8 12) = Some (Some 120%float).
Proof. repeat split; vm_compute; reflexivity. Qed.

(** ** The peak of the spectrum and the integer shifts *)

Section Peak.
Context {F : Type} `{Numeric F}.

(** The running maximum and its position, as [np.argmax] and [max] keep them. *)
Lemma argmax_from_spec (l : list F) : forall (i : nat) (best : F) (besti : nat) (pre : list F),
  length pre = i -> (besti < i)%nat -> pre !! besti = Some best ->
  (argmax_from l i best besti < i + length l)%nat
  /\ (pre ++ l) !! argmax_from l i best besti
     = Some (fold_left (fun b y => if fgtb y b then y else b) l best).
Proof.
  induction l as [|x t IH]; intros i best besti pre Hlen Hlt Hpre; simpl.
  - rewrite app_nil_r. split; [lia|done].
  - destruct (fgtb x best) eqn:E.
    + destruct (IH (S i) x i (pre ++ [x])) as [IH1 IH2].
      * rewrite length_app. simpl. lia.
      * lia.
      * rewrite lookup_app_r by lia. by rewrite Hlen, Nat.sub_diag.
      * rewrite <- app_assoc in IH2. simpl in IH2. split; [lia|done].
    + destruct (IH (S i) best besti (pre ++ [x])) as [IH1 IH2].
      * rewrite length_app. simpl. lia.
      * lia.
      * by rewrite lookup_app_l by lia.
      * rewrite <- app_assoc in IH2. simpl in IH2. split; [lia|done].
Qed.

Lemma np_argmax_spec (l : list F) (i : nat) :
  np_argmax l = Some i -> (i < length l)%nat /\ l !! i = Py.max_by fgtb l.
Proof.
  destruct l as [|x t]; [done|]. simpl. intros [= <-].
  destruct (argmax_from_spec t 1 x 0 [x]) as [H1 H2]; [done|lia|done|].
  simpl in *. split; [lia|done].
Qed.

Lemma flatten_length (a : ndarray F) :
  wf_array a -> length (flatten a) = (height a * width a)%nat.
Proof.
  unfold wf_array, flatten, height. induction 1 as [|row t Hrow _ IH]; [done|].
  simpl. rewrite length_app, IH. lia.
Qed.

Lemma flatten_lookup (a : ndarray F) (r c : nat) :
  wf_array a -> (c < width a)%nat -> flatten a !! (r * width a + c)%nat = cell a r c.
Proof.
  unfold wf_array, flatten, cell. generalize (width a) as w. intros w Hwf Hc.
  revert r. induction Hwf as [|row t Hrow _ IH]; intros r; [done|].
  simpl. destruct r as [|r]; simpl.
  - by rewrite lookup_app_l by lia.
  - rewrite lookup_app_r by lia. rewrite <- IH. f_equal. lia.
Qed.

Lemma flatten_empty (a : ndarray F) :
  wf_array a -> (height a = 0 \/ width a = 0)%nat -> flatten a = [].
Proof.
  intros Hwf Hz. apply length_zero_iff_nil. rewrite flatten_length by done. lia.
Qed.

(** Lines 955-969 and 1034-1037.  On a spectrum with at least one row and
    one column the peak is a position of the array that holds its maximum,
    and the integer shifts are the offsets of that position from the centre
    [(rows // 2, columns // 2)]: between [-(n // 2)] and [n - n // 2 - 1]
    along an axis of [n] cells.  On a spectrum without cells the call
    fails (the [ValueError] of [np.argmax]). *)
Theorem integer_shift_is_the_offset_of_the_maximum (scps : ndarray F) :
  wf_array scps ->
  ((0 < height scps)%nat -> (0 < width scps)%nat ->
   exists r c,
     _get_peakpos scps = Some (r, c)
     /\ (r < height scps)%nat /\ (c < width scps)%nat
     /\ cell scps r c = np_max scps
     /\ _calc_integer_shifts scps
        = Some (Z.of_nat c - (shape scps).2 / 2, Z.of_nat r - (shape scps).1 / 2)
     /\ - ((shape scps).2 / 2) <= Z.of_nat c - (shape scps).2 / 2 < (shape scps).2 - (shape scps).2 / 2
     /\ - ((shape scps).1 / 2) <= Z.of_nat r - (shape scps).1 / 2 < (shape scps).1 - (shape scps).1 / 2)
  /\ ((height scps = 0 \/ width scps = 0)%nat -> _calc_integer_shifts scps = None).
Proof.
  intros Hwf. split.
  - intros Hh Hw.
    destruct (np_argmax (flatten scps)) as [i|] eqn:Ei.
    2:{ exfalso. unfold np_argmax in Ei. destruct (flatten scps) eqn:Ef; [|done].
        apply (f_equal length) in Ef. rewrite flatten_length in Ef by done. simpl in Ef. nia. }
    destruct (np_argmax_spec _ _ Ei) as [Hlt Hmax]. rewrite flatten_length in Hlt by done.
    exists (i / width scps)%nat, (i mod width scps)%nat.
    assert (Hc : (i mod width scps < width scps)%nat) by (apply Nat.mod_upper_bound; lia).
    assert (Hr : (i / width scps < height scps)%nat).
    { apply Nat.Div0.div_lt_upper_bound. lia. }
    unfold _calc_integer_shifts, _get_peakpos. rewrite Ei. simpl.
    unfold unravel_index, _get_shifts_from_peakpos. cbn [fst snd].
    split; [done|]. split; [done|]. split; [done|]. split.
    { unfold np_max. rewrite <- Hmax, <- flatten_lookup by done. f_equal.
      pose proof (Nat.div_mod_eq i (width scps)). lia. }
    split; [done|].
    unfold shape. cbn [fst snd]. lia.
  - intros Hz. unfold _calc_integer_shifts, _get_peakpos. by rewrite (flatten_empty _ Hwf Hz).
Qed.

End Peak.

Lemma integer_shift_is_the_offset_of_the_maximum_witness :
  ((0 < height Example.scps_3x3)%nat -> (0 < width Example.scps_3x3)%nat ->
   exists r c,
     _get_peakpos Example.scps_3x3 = Some (r, c)
     /\ (r < height Example.scps_3x3)%nat /\ (c < width Example.scps_3x3)%nat
     /\ cell Example.scps_3x3 r c = np_max Example.scps_3x3
     /\ _calc_integer_shifts Example.scps_3x3
        = Some (Z.of_nat c - (shape Example.scps_3x3).2 / 2,
                Z.of_nat r - (shape Example.scps_3x3).1 / 2)
     /\ - ((shape Example.scps_3x3).2 / 2) <= Z.of_nat c - (shape Example.scps_3x3).2 / 2
        < (shape Example.scps_3x3).2 - (shape Example.scps_3x3).2 / 2
     /\ - ((shape Example.scps_3x3).1 / 2) <= Z.of_nat r - (shape Example.scps_3x3).1 / 2
        < (shape Example.scps_3x3).1 - (shape Example.scps_3x3).1 / 2)
  /\ ((height Example.scps_3x3 = 0 \/ width Example.scps_3x3 = 0)%nat ->
      _calc_integer_shifts Example.scps_3x3 = None).
Proof.
  apply (integer_shift_is_the_offset_of_the_maximum Example.scps_3x3).
  unfold wf_array. simpl. repeat constructor.
Defined.

(** ** The binary window size closest to a target *)

(** Lines 854-855: [min(possibSizes, key=lambda x: abs(x - tgt_size))]. *)
Lemma closest_binary_size_min (n t : Z) :
  8 <= n ->
  exists b, Py.min_key (fun x => Z.abs (x - t)) (List.filter (fun i => i <=? n) binarySizes) = Some b
            /\ closest_binary_size n t b.
Proof.
  intros Hn.
  destruct (max_by_is_Some (fun y best => Z.abs (y - t) <? Z.abs (best - t))
              (List.filter (fun i => i <=? n) binarySizes)) as [b Hb].
  { intros E. assert (Hin : In 8 (List.filter (fun i => i <=? n) binarySizes)).
    { apply filter_In. split; [rewrite binarySizes_eq; by left | by apply Z.leb_le]. }
    by rewrite E in Hin. }
  exists b. split; [done|].
  apply (max_by_measure _ (fun x => Z.abs (x - t))) in Hb as [Hin Hle].
  2:{ intros y c. by rewrite Z.ltb_lt. }
  apply filter_In in Hin as [Hin Hbn]. apply Z.leb_le in Hbn.
  repeat split; [done|done|].
  intros c Hc Hcn. apply Hle. apply filter_In. split; [done|by apply Z.leb_le].
Qed.

(** Lines 839-858.  A window with a side below 8 has no binary size, with
    or without target.  For a window of at least 8 x 8 and a target, the
    result is, along each axis, a size of the table that fits into the
    window and is as close to the target as any size that fits; the target
    is read as (X, Y), the window shape and the result as (Y, X).  Without
    target a window whose sides are sizes of the table is returned as it
    is. *)
Theorem shrink_winsize_to_the_closest_binary_size (h w : Z) (target : option (Z * Z)) :
  (h < 8 \/ w < 8 -> _shrink_winsize_to_binarySize (h, w) target = None)
  /\ (8 <= h -> 8 <= w ->
      forall tX tY, target = Some (tX, tY) ->
      exists bY bX, _shrink_winsize_to_binarySize (h, w) target = Some (bY, bX)
        /\ closest_binary_size h tY bY /\ closest_binary_size w tX bX)
  /\ (In h binarySizes -> In w binarySizes ->
      _shrink_winsize_to_binarySize (h, w) None = Some (h, w)).
Proof.
  split; [|split].
  - intros Hs. unfold _shrink_winsize_to_binarySize. cbn [fst snd].
    destruct Hs as [Hs|Hs]; rewrite (binary_sizes_none _ Hs); simpl.
    + by destruct (Py.max_by _ _).
    + done.
  - intros Hh Hw tX tY ->.
    destruct (largest_binary_size_max h Hh) as (mY & EY & _).
    destruct (largest_binary_size_max w Hw) as (mX & EX & _).
    destruct (closest_binary_size_min h tY Hh) as (bY & EbY & HY).
    destruct (closest_binary_size_min w tX Hw) as (bX & EbX & HX).
    exists bY, bX. split; [|done].
    unfold _shrink_winsize_to_binarySize. cbn [fst snd].
    by rewrite EX, EY, EbX, EbY.
  - intros Hh Hw.
    assert (H8 : 8 <= h /\ 8 <= w).
    { rewrite binarySizes_eq in Hh, Hw. simpl in Hh, Hw. intuition lia. }
    destruct (shrink_winsize_largest h w) as (bY & bX & E & (_ & HbY & HmY) & (_ & HbX & HmX));
      [lia|lia|].
    rewrite E. f_equal. f_equal.
    + specialize (HmY h Hh). lia.
    + specialize (HmX w Hw). lia.
Qed.

(** ** Slices and [int()] *)

Lemma int_Qeq (p q : Q) : (p == q)%Q -> Py.int p = Py.int q.
Proof.
  destruct p as [a b], q as [c d]. unfold Qeq, Py.int. simpl. intros E.
  rewrite <- (Z.quot_mul_cancel_r a (Z.pos b) (Z.pos d)) by lia.
  rewrite E, (Z.mul_comm (Z.pos b)).
  by rewrite Z.quot_mul_cancel_r by lia.
Qed.

Lemma int_half (q : Q) (k : Z) : (q == k # 2)%Q -> Py.int q = k ÷ 2.
Proof. intros E. by rewrite (int_Qeq _ _ E). Qed.

Lemma slice_bound_in_range (n : nat) (i : Z) :
  0 <= i <= Z.of_nat n -> Py.slice_bound n i = Z.to_nat i.
Proof. intros Hi. unfold Py.slice_bound. destruct (Z.ltb_spec i 0); [lia|]. f_equal. lia. Qed.

Lemma slice_length {A} (l : list A) (lo hi : Z) :
  0 <= lo <= hi -> hi <= Z.of_nat (length l) ->
  length (Py.slice lo hi l) = Z.to_nat (hi - lo).
Proof.
  intros Hlo Hhi. unfold Py.slice.
  rewrite !slice_bound_in_range by lia.
  rewrite length_take, length_drop. lia.
Qed.

Section Shapes.
Context {F : Type}.

Lemma getslice2d_shape (a : ndarray F) (y0 y1 x0 x1 : Z) :
  0 <= y0 <= y1 -> y1 <= (shape a).1 -> 0 <= x0 <= x1 -> x1 <= (shape a).2 ->
  shape (getslice2d a y0 y1 x0 x1) = (y1 - y0, x1 - x0).
Proof.
  unfold shape, height. cbn [fst snd]. intros Hy0 Hy1 Hx0 Hx1. simpl.
  rewrite length_fmap, slice_length by lia.
  unfold Py.slice_len.
  rewrite (slice_bound_in_range (width a) x1), (slice_bound_in_range (width a) x0) by lia.
  f_equal; lia.
Qed.

Lemma slice_wf {A} (l : list A) (lo hi : Z) (n : nat) :
  length l = n -> length (Py.slice lo hi l) = Py.slice_len lo hi n.
Proof.
  intros <-. unfold Py.slice, Py.slice_len. rewrite length_take, length_drop.
  assert (Py.slice_bound (length l) hi <= length l)%nat.
  { unfold Py.slice_bound. destruct (Z.ltb_spec hi 0); lia. }
  lia.
Qed.

Lemma getslice2d_wf (a : ndarray F) (y0 y1 x0 x1 : Z) :
  wf_array a -> wf_array (getslice2d a y0 y1 x0 x1).
Proof.
  unfold wf_array. intros Hwf. simpl. apply Forall_fmap.
  assert (Hsub : Forall (fun row => length row = width a) (Py.slice y0 y1 (data a))).
  { unfold Py.slice. by apply Forall_take, Forall_drop. }
  eapply Forall_impl; [exact Hsub|]. intros row Hrow. simpl. by apply slice_wf.
Qed.

End Shapes.

Section Crops.
Context {F : Type}.

Lemma int_half_sub (n k : Z) : Py.int (Py.half n - Py.half k)%Q = (n - k) ÷ 2.
Proof. apply int_half. unfold Py.half, Qeq. simpl. lia. Qed.

Lemma int_half_add (n k : Z) : Py.int (Py.half n + Py.half k)%Q = (n + k) ÷ 2.
Proof. apply int_half. unfold Py.half, Qeq. simpl. lia. Qed.

Lemma half_bounds (n k : Z) :
  0 <= k <= n ->
  0 <= (n - k) ÷ 2 <= (n + k) ÷ 2 /\ (n + k) ÷ 2 <= n /\ (n + k) ÷ 2 - (n - k) ÷ 2 = k.
Proof.
  intros Hk. rewrite !Z.quot_div_nonneg by lia.
  pose proof (Z.div_mod (n - k) 2). pose proof (Z.mod_pos_bound (n - k) 2).
  pose proof (Z.div_mod (n + k) 2). pose proof (Z.mod_pos_bound (n + k) 2).
  lia.
Qed.

(** Lines 888-893: a crop to a size that fits has that size. *)
Lemma center_crop_shape (im : ndarray F) (ws : Z * Z) :
  0 <= ws.1 <= (shape im).1 -> 0 <= ws.2 <= (shape im).2 ->
  shape (center_crop im ws) = ws.
Proof.
  intros H1 H2. unfold center_crop.
  rewrite !int_half_sub, !int_half_add.
  destruct (half_bounds _ _ H1) as (A1 & A2 & A3), (half_bounds _ _ H2) as (B1 & B2 & B3).
  rewrite getslice2d_shape by lia. rewrite A3, B3. by destruct ws.
Qed.

End Crops.

Section Recentre.
Context {F : Type}.

Lemma slice_lookup {A} (l : list A) (lo hi : Z) (i : nat) :
  0 <= lo <= hi -> hi <= Z.of_nat (length l) -> Z.of_nat i < hi - lo ->
  Py.slice lo hi l !! i = l !! (Z.to_nat lo + i)%nat.
Proof.
  intros Hlo Hhi Hi. unfold Py.slice. rewrite !slice_bound_in_range by lia.
  rewrite lookup_take_lt by lia. by rewrite lookup_drop.
Qed.

Lemma getslice2d_cell (a : ndarray F) (y0 y1 x0 x1 : Z) (r c : nat) :
  wf_array a ->
  0 <= y0 <= y1 -> y1 <= (shape a).1 -> 0 <= x0 <= x1 -> x1 <= (shape a).2 ->
  Z.of_nat r < y1 - y0 -> Z.of_nat c < x1 - x0 ->
  cell (getslice2d a y0 y1 x0 x1) r c = cell a (Z.to_nat y0 + r) (Z.to_nat x0 + c).
Proof.
  intros Hwf Hy0 Hy1 Hx0 Hx1 Hr Hc. unfold cell, shape, height in *. cbn [fst snd] in *. simpl.
  rewrite list_lookup_fmap, slice_lookup by lia.
  destruct (data a !! (Z.to_nat y0 + r)%nat) as [row|] eqn:E; [|done]. simpl.
  apply slice_lookup; [lia| |lia].
  unfold wf_array in Hwf. rewrite Forall_lookup in Hwf. by rewrite (Hwf _ _ E).
Qed.

End Recentre.

(** ** The windows that are matched *)

(** Line 831: [i if i % 2 == 0 else i - 1]. *)
Lemma even_dim_spec (i : Z) : 0 <= i -> 0 <= even_dim i <= i /\ even_dim i mod 2 = 0 /\ i - 1 <= even_dim i.
Proof.
  intros Hi. unfold even_dim. destruct (Z.eqb_spec (i mod 2) 0) as [E|E].
  - lia.
  - pose proof (Z.mod_pos_bound i 2). pose proof (Z.div_mod i 2).
    assert (i mod 2 = 1) by lia.
    replace (i - 1) with (0 + (i / 2) * 2) by lia. rewrite Z.mod_add by lia.
    split; [|split]; [lia|done|lia].
Qed.

Section Windows.
Context {F polygon : Type} `{Numeric F} `{!Pipeline F polygon}.

(** Lines 763-837, for two windows read with equal shapes.  The call
    returns, and the two windows it leaves are the windows read, cut at the
    bottom and at the right to an even number of rows and of columns (an odd
    side loses its last line): both have the same, even shape, the image
    they belong to is as read, and the cells kept are unchanged. *)
Theorem matching_windows_are_even_and_equal (s : COREG F polygon) (mw ow : window F) :
  read_image_windows s = WindowsRead mw ow ->
  wf_array (arr mw) -> wf_array (arr ow) ->
  shape (arr ow) = shape (arr mw) ->
  exists mw' ow',
    _get_image_windows_to_match s = Ok tt (set_wins mw' ow' s)
    /\ win_imID mw' = win_imID mw /\ win_imID ow' = win_imID ow
    /\ shape (arr mw') = (even_dim (shape (arr mw)).1, even_dim (shape (arr mw)).2)
    /\ shape (arr ow') = shape (arr mw')
    /\ (shape (arr mw')).1 mod 2 = 0 /\ (shape (arr mw')).2 mod 2 = 0
    /\ forall r c, Z.of_nat r < (shape (arr mw')).1 -> Z.of_nat c < (shape (arr mw')).2 ->
         cell (arr mw') r c = cell (arr mw) r c /\ cell (arr ow') r c = cell (arr ow) r c.
Proof.
  intros Hread Hwfm Hwfo Hsh.
  assert (Hh : 0 <= (shape (arr mw)).1) by (unfold shape; simpl; lia).
  assert (Hw : 0 <= (shape (arr mw)).2) by (unfold shape; simpl; lia).
  destruct (even_dim_spec _ Hh) as (Rh & Eh & _), (even_dim_spec _ Hw) as (Rw & Ew & _).
  exists {| arr := getslice2d (arr mw) 0 (even_dim (shape (arr mw)).1) 0
                     (even_dim (shape (arr mw)).2); win_imID := win_imID mw |},
         {| arr := getslice2d (arr ow) 0 (even_dim (shape (arr mw)).1) 0
                     (even_dim (shape (arr mw)).2); win_imID := win_imID ow |}.
  split; [|split; [|split; [|split; [|split; [|split; [|split]]]]]].
  - unfold _get_image_windows_to_match, bind, get. rewrite Hread. simpl.
    unfold when. by rewrite Hsh, shape_eqb_refl.
  - done.
  - done.
  - cbn [arr]. rewrite getslice2d_shape by lia. by rewrite !Z.sub_0_r.
  - cbn [arr]. rewrite !getslice2d_shape by (rewrite ?Hsh; lia). done.
  - cbn [arr]. rewrite getslice2d_shape by lia. cbn [fst]. by rewrite Z.sub_0_r.
  - cbn [arr]. rewrite getslice2d_shape by lia. cbn [snd]. by rewrite Z.sub_0_r.
  - cbn [arr]. rewrite getslice2d_shape by lia. cbn [fst snd]. intros r c Hr Hc. split.
    + rewrite getslice2d_cell by (try done; lia). done.
    + rewrite getslice2d_cell by (try done; rewrite ?Hsh; lia). done.
Qed.

End Windows.

Lemma matching_windows_are_even_and_equal_witness :
  exists mw' ow',
    @_get_image_windows_to_match float (Example.rect float)
      (Example.impulse_pipeline Example.odd_ref_window Example.odd_tgt_window)
      Example.planned_10m_10m
    = Ok tt (set_wins mw' ow' Example.planned_10m_10m)
    /\ win_imID mw' = win_imID Example.odd_ref_window
    /\ win_imID ow' = win_imID Example.odd_tgt_window
    /\ shape (arr mw') = (even_dim (shape (arr Example.odd_ref_window)).1,
                          even_dim (shape (arr Example.odd_ref_window)).2)
    /\ shape (arr ow') = shape (arr mw')
    /\ (shape (arr mw')).1 mod 2 = 0 /\ (shape (arr mw')).2 mod 2 = 0
    /\ forall r c, Z.of_nat r < (shape (arr mw')).1 -> Z.of_nat c < (shape (arr mw')).2 ->
         cell (arr mw') r c = cell (arr Example.odd_ref_window) r c
         /\ cell (arr ow') r c = cell (arr Example.odd_tgt_window) r c.
Proof.
  apply (@matching_windows_are_even_and_equal float (Example.rect float)
           (Example.impulse_pipeline Example.odd_ref_window Example.odd_tgt_window)
           Example.planned_10m_10m Example.odd_ref_window Example.odd_tgt_window).
  - reflexivity.
  - unfold wf_array. simpl. repeat constructor.
  - unfold wf_array. simpl. repeat constructor.
  - reflexivity.
Defined.

Lemma min_key_In (key : Z -> Z) (l : list Z) (b : Z) : Py.min_key key l = Some b -> In b l.
Proof.
  intros Hb. apply (max_by_measure _ key) in Hb as [Hin _]; [done|].
  intros y c. by rewrite Z.ltb_lt.
Qed.

Lemma shrink_winsize_in_table (sh : Z * Z) (target : option (Z * Z)) (bY bX : Z) :
  _shrink_winsize_to_binarySize sh target = Some (bY, bX) ->
  In bY binarySizes /\ bY <= sh.1 /\ In bX binarySizes /\ bX <= sh.2.
Proof.
  unfold _shrink_winsize_to_binarySize. intros Hs.
  destruct (Py.max_by Z.gtb (List.filter _ binarySizes)) as [mX|]; [|done].
  destruct (Py.max_by Z.gtb (List.filter (fun i => i <=? sh.1) binarySizes)) as [mY|]; [|done].
  destruct (match target with Some t => t | None => (mX, mY) end) as [tX tY].
  destruct (Py.min_key _ (List.filter (fun i => i <=? sh.2) binarySizes)) as [cX|] eqn:EX; [|done].
  destruct (Py.min_key _ (List.filter (fun i => i <=? sh.1) binarySizes)) as [cY|] eqn:EY; [|done].
  injection Hs as <- <-.
  apply min_key_In, filter_In in EX as [HX1 HX2]. apply min_key_In, filter_In in EY as [HY1 HY2].
  apply Z.leb_le in HX2, HY2. done.
Qed.

Lemma binarySizes_pos (b : Z) : In b binarySizes -> 8 <= b.
Proof. rewrite binarySizes_eq. simpl. intuition lia. Qed.

Section FFTInputs.
Context {F : Type}.

(** Lines 878-893.  When two windows of equal shape have an FFT window
    size, that size fits into the windows and both centred crops have
    exactly that shape; it is square when quadratic windows are forced, and
    its sides are sizes of the table when binary sizes are asked for. *)
Theorem fft_inputs_have_the_window_size (p : params) (im0 im1 : ndarray F) (ws : Z * Z) :
  shape im1 = shape im0 ->
  fft_window_size p (shape im0) = Some ws ->
  shape (center_crop im0 ws) = ws /\ shape (center_crop im1 ws) = ws
  /\ 0 <= ws.1 <= (shape im0).1 /\ 0 <= ws.2 <= (shape im0).2
  /\ (force_quadratic_win p = true -> ws.1 = ws.2)
  /\ (bin_ws p = true -> In ws.1 binarySizes /\ In ws.2 binarySizes).
Proof.
  intros Hsh Hws.
  assert (Hh : 0 <= (shape im0).1) by (unfold shape; simpl; lia).
  assert (Hw : 0 <= (shape im0).2) by (unfold shape; simpl; lia).
  assert (Hb : 0 <= ws.1 <= (shape im0).1 /\ 0 <= ws.2 <= (shape im0).2
               /\ (force_quadratic_win p = true -> ws.1 = ws.2)
               /\ (bin_ws p = true -> In ws.1 binarySizes /\ In ws.2 binarySizes)).
  { unfold fft_window_size in Hws. destruct (bin_ws p).
    - destruct (_shrink_winsize_to_binarySize (shape im0) None) as [[bY bX]|] eqn:E; [|done].
      apply shrink_winsize_in_table in E as (HY & HYh & HX & HXw).
      pose proof (binarySizes_pos _ HY). pose proof (binarySizes_pos _ HX).
      destruct (force_quadratic_win p); injection Hws as <-; cbn [fst snd].
      + repeat split; try lia; try done.
        all: destruct (Z.min_spec bY bX) as [[_ ->]|[_ ->]]; done.
      + repeat split; try lia; done.
    - destruct (shape im0) as [h w]. cbn [fst snd] in *.
      destruct (force_quadratic_win p); injection Hws as <-; cbn [fst snd];
        repeat split; try lia; done. }
  destruct Hb as (H1 & H2 & H3 & H4).
  split; [by apply center_crop_shape|]. split; [apply center_crop_shape; by rewrite Hsh|].
  done.
Qed.

End FFTInputs.

Lemma fft_inputs_have_the_window_size_witness :
  shape (center_crop (Example.impulse_16 8 9) (16, 16)) = (16, 16)
  /\ shape (center_crop (Example.impulse_16 8 8) (16, 16)) = (16, 16)
  /\ 0 <= (16, 16).1 <= (shape (Example.impulse_16 8 9)).1
  /\ 0 <= (16, 16).2 <= (shape (Example.impulse_16 8 9)).2
  /\ (force_quadratic_win Example.default_params = true -> (16, 16).1 = (16, 16).2)
  /\ (bin_ws Example.default_params = true ->
      In (16, 16).1 binarySizes /\ In (16, 16).2 binarySizes).
Proof.
  apply (fft_inputs_have_the_window_size Example.default_params
           (Example.impulse_16 8 9) (Example.impulse_16 8 8) (16, 16)).
  - reflexivity.
  - vm_compute. reflexivity.
Defined.

(** ** The de-shifted windows of a validation *)

Section Deshift.
Context {F : Type}.

Lemma qmin_half (a b : Q) (ka kb : Z) :
  (a == ka # 2)%Q -> (b == kb # 2)%Q -> (Py.qmin a b == Z.min ka kb # 2)%Q.
Proof.
  intros Ha Hb. unfold Py.qmin. destruct (Qle_bool a b) eqn:E.
  - apply Qle_bool_iff in E. rewrite Ha, Hb in E. rewrite Ha.
    unfold Qle in E. simpl in E. unfold Qeq. simpl. lia.
  - apply Qle_bool_false in E. rewrite Ha, Hb in E. rewrite Hb.
    unfold Qlt in E. simpl in E. unfold Qeq. simpl. lia.
Qed.

Lemma qmin_int (a b : Q) (ka kb : Z) :
  (a == inject_Z ka)%Q -> (b == inject_Z kb)%Q -> (Py.qmin a b == inject_Z (Z.min ka kb))%Q.
Proof.
  intros Ha Hb. unfold Py.qmin. destruct (Qle_bool a b) eqn:E.
  - apply Qle_bool_iff in E. rewrite Ha, Hb in E. rewrite Ha.
    unfold Qle in E. simpl in E. unfold Qeq. simpl. lia.
  - apply Qle_bool_false in E. rewrite Ha, Hb in E. rewrite Hb.
    unfold Qlt in E. simpl in E. unfold Qeq. simpl. lia.
Qed.

(** Lines 971-979 on a window that lies inside the image: the centre is
    [(A/2, B/2)] and the size [(R, C)]. *)
Lemma clip_image_eq (im : ndarray F) (cy cx wy wx : Q) (A B R C : Z) :
  (cy == A # 2)%Q -> (cx == B # 2)%Q -> (wy == inject_Z R)%Q -> (wx == inject_Z C)%Q ->
  _clip_image im (cy, cx) (wy, wx)
  = getslice2d im ((A - R) ÷ 2) ((A + R) ÷ 2) ((B - C) ÷ 2) ((B + C) ÷ 2).
Proof.
  intros Hcy Hcx Hwy Hwx. unfold _clip_image, get_bounds. cbn [fst snd].
  assert (E1 : Py.int (cx - wx / 2)%Q = (B - C) ÷ 2).
  { apply int_half. rewrite Hcx, Hwx. unfold Qeq. simpl. lia. }
  assert (E2 : Py.int (cx + wx / 2)%Q = (B + C) ÷ 2).
  { apply int_half. rewrite Hcx, Hwx. unfold Qeq. simpl. lia. }
  assert (E3 : Py.int (cy - wy / 2)%Q = (A - R) ÷ 2).
  { apply int_half. rewrite Hcy, Hwy. unfold Qeq. simpl. lia. }
  assert (E4 : Py.int (cy + wy / 2)%Q = (A + R) ÷ 2).
  { apply int_half. rewrite Hcy, Hwy. unfold Qeq. simpl. lia. }
  by rewrite E1, E2, E3, E4.
Qed.

Lemma window_bounds (n A R : Z) :
  0 <= R <= A -> A + R <= 2 * n ->
  0 <= (A - R) ÷ 2 <= (A + R) ÷ 2 /\ (A + R) ÷ 2 <= n /\ (A + R) ÷ 2 - (A - R) ÷ 2 = R.
Proof.
  intros HR HA. destruct (half_bounds A R) as (A1 & _ & A3); [lia|].
  split; [done|]. split; [|done].
  rewrite Z.quot_div_nonneg by lia. apply Z.div_le_upper_bound; lia.
Qed.

Lemma clip_image_shape (im : ndarray F) (cy cx wy wx : Q) (A B R C : Z) :
  (cy == A # 2)%Q -> (cx == B # 2)%Q -> (wy == inject_Z R)%Q -> (wx == inject_Z C)%Q ->
  0 <= R <= A -> A + R <= 2 * (shape im).1 ->
  0 <= C <= B -> B + C <= 2 * (shape im).2 ->
  shape (_clip_image im (cy, cx) (wy, wx)) = (R, C).
Proof.
  intros Hcy Hcx Hwy Hwx HR HA HC HB.
  rewrite (clip_image_eq im cy cx wy wx A B R C) by done.
  destruct (window_bounds _ A R HR HA) as (A1 & A2 & A3).
  destruct (window_bounds _ B C HC HB) as (B1 & B2 & B3).
  rewrite getslice2d_shape by lia. by rewrite A3, B3.
Qed.

(** ... and on even numbers the centre of the clip is the cell at the
    centre of the window. *)
Lemma clip_image_centre (im : ndarray F) (cy cx wy wx : Q) (A B R C : Z) :
  wf_array im ->
  (cy == A # 2)%Q -> (cx == B # 2)%Q -> (wy == inject_Z R)%Q -> (wx == inject_Z C)%Q ->
  0 < R <= A -> A + R <= 2 * (shape im).1 ->
  0 < C <= B -> B + C <= 2 * (shape im).2 ->
  A mod 2 = 0 -> R mod 2 = 0 -> B mod 2 = 0 -> C mod 2 = 0 ->
  cell (_clip_image im (cy, cx) (wy, wx)) (Z.to_nat (R / 2)) (Z.to_nat (C / 2))
  = cell im (Z.to_nat (A / 2)) (Z.to_nat (B / 2)).
Proof.
  intros Hwf Hcy Hcx Hwy Hwx HR HA HC HB EA ER EB EC.
  rewrite (clip_image_eq im cy cx wy wx A B R C) by done.
  destruct (window_bounds (shape im).1 A R) as (A1 & A2 & A3); [lia|lia|].
  destruct (window_bounds (shape im).2 B C) as (B1 & B2 & B3); [lia|lia|].
  pose proof (Z.div_mod A 2). pose proof (Z.div_mod R 2).
  pose proof (Z.div_mod B 2). pose proof (Z.div_mod C 2).
  assert ((A - R) ÷ 2 = A / 2 - R / 2).
  { rewrite Z.quot_div_nonneg by lia. pose proof (Z.div_mod (A - R) 2).
    pose proof (Z.mod_pos_bound (A - R) 2). lia. }
  assert ((B - C) ÷ 2 = B / 2 - C / 2).
  { rewrite Z.quot_div_nonneg by lia. pose proof (Z.div_mod (B - C) 2).
    pose proof (Z.mod_pos_bound (B - C) 2). lia. }
  rewrite getslice2d_cell by (try done; lia). f_equal; lia.
Qed.

(** Lines 981-1007: the shapes of the two clips. *)
Lemma deshifted_shapes (p : params) (im0 im1 : ndarray F) (dx dy : Z) :
  shape im1 = shape im0 ->
  2 * Z.abs dy <= (shape im0).1 -> 2 * Z.abs dx <= (shape im0).2 ->
  shape (_get_grossly_deshifted_images p im0 im1 dx dy).2
  = shape (_get_grossly_deshifted_images p im0 im1 dx dy).1
  /\ shape (_get_grossly_deshifted_images p im0 im1 dx dy).1
     = if force_quadratic_win p
       then (Z.min (room (shape im0).2 dx) (room (shape im0).1 dy),
             Z.min (room (shape im0).2 dx) (room (shape im0).1 dy))
       else (room (shape im0).1 dy, room (shape im0).2 dx).
Proof.
  intros Hsh Hdy Hdx. unfold _get_grossly_deshifted_images. cbn [fst snd].
  set (h := (shape im0).1) in *. set (w := (shape im0).2) in *.
  assert (Hcy : (Py.half h + inject_Z dy == (h + 2 * dy) # 2)%Q).
  { unfold Py.half, Qeq. simpl. lia. }
  assert (Hcx : (Py.half w + inject_Z dx == (w + 2 * dx) # 2)%Q).
  { unfold Py.half, Qeq. simpl. lia. }
  assert (Hmx : (2 * Py.qmin (Py.half w + inject_Z dx) (inject_Z w - (Py.half w + inject_Z dx))
                 == inject_Z (room w dx))%Q).
  { rewrite (qmin_half _ _ (w + 2 * dx) (w - 2 * dx)).
    - unfold room, Qeq. simpl. lia.
    - done.
    - unfold Py.half, Qeq. simpl. lia. }
  assert (Hmy : (2 * Py.qmin (Py.half h + inject_Z dy) (inject_Z h - (Py.half h + inject_Z dy))
                 == inject_Z (room h dy))%Q).
  { rewrite (qmin_half _ _ (h + 2 * dy) (h - 2 * dy)).
    - unfold room, Qeq. simpl. lia.
    - done.
    - unfold Py.half, Qeq. simpl. lia. }
  assert (Hq := qmin_int _ _ _ _ Hmx Hmy).
  assert (Hh1 : Py.half (shape im1).1 = Py.half h) by (by rewrite Hsh).
  assert (Hw1 : Py.half (shape im1).2 = Py.half w) by (by rewrite Hsh).
  assert (Hh0 : (Py.half h == h # 2)%Q) by done.
  assert (Hw0 : (Py.half w == w # 2)%Q) by done.
  unfold room in *.
  destruct (force_quadratic_win p); cbv beta iota zeta; cbn [fst snd].
  - rewrite (clip_image_shape im0 _ _ _ _ (h + 2 * dy) (w + 2 * dx)
               (Z.min (w - 2 * Z.abs dx) (h - 2 * Z.abs dy))
               (Z.min (w - 2 * Z.abs dx) (h - 2 * Z.abs dy)));
      try done; try (fold h; fold w; lia).
    split; [|done]. cbn [fst snd]. rewrite Hh1, Hw1.
    apply (clip_image_shape im1 _ _ _ _ h w); try done; rewrite ?Hsh; fold h; fold w; lia.
  - rewrite (clip_image_shape im0 _ _ _ _ (h + 2 * dy) (w + 2 * dx)
               (h - 2 * Z.abs dy) (w - 2 * Z.abs dx));
      try done; try (fold h; fold w; lia).
    split; [|done]. cbn [fst snd]. rewrite Hh1, Hw1.
    apply (clip_image_shape im1 _ _ _ _ h w); try done; rewrite ?Hsh; fold h; fold w; lia.
Qed.

(** ... and their centres, on windows with even numbers of rows and
    columns. *)
Lemma deshifted_centres (p : params) (im0 im1 : ndarray F)
    (dx dy : Z) :
  wf_array im0 -> wf_array im1 -> shape im1 = shape im0 ->
  (shape im0).1 mod 2 = 0 -> (shape im0).2 mod 2 = 0 ->
  2 * Z.abs dy < (shape im0).1 -> 2 * Z.abs dx < (shape im0).2 ->
  cell (_get_grossly_deshifted_images p im0 im1 dx dy).1
       (Z.to_nat ((shape (_get_grossly_deshifted_images p im0 im1 dx dy).1).1 / 2))
       (Z.to_nat ((shape (_get_grossly_deshifted_images p im0 im1 dx dy).1).2 / 2))
  = cell im0 (Z.to_nat ((shape im0).1 / 2 + dy)) (Z.to_nat ((shape im0).2 / 2 + dx))
  /\ cell (_get_grossly_deshifted_images p im0 im1 dx dy).2
          (Z.to_nat ((shape (_get_grossly_deshifted_images p im0 im1 dx dy).2).1 / 2))
          (Z.to_nat ((shape (_get_grossly_deshifted_images p im0 im1 dx dy).2).2 / 2))
     = cell im1 (Z.to_nat ((shape im1).1 / 2)) (Z.to_nat ((shape im1).2 / 2)).
Proof.
  intros Hwf0 Hwf1 Hsh Eh Ew Hdy Hdx.
  destruct (deshifted_shapes p im0 im1 dx dy Hsh) as [Hs2 Hs1]; [lia|lia|].
  rewrite Hs2, Hs1. clear Hs2.
  unfold _get_grossly_deshifted_images in *. cbn [fst snd] in *.
  set (h := (shape im0).1) in *. set (w := (shape im0).2) in *.
  assert (Hcy : (Py.half h + inject_Z dy == (h + 2 * dy) # 2)%Q).
  { unfold Py.half, Qeq. simpl. lia. }
  assert (Hcx : (Py.half w + inject_Z dx == (w + 2 * dx) # 2)%Q).
  { unfold Py.half, Qeq. simpl. lia. }
  assert (Hmx : (2 * Py.qmin (Py.half w + inject_Z dx) (inject_Z w - (Py.half w + inject_Z dx))
                 == inject_Z (room w dx))%Q).
  { rewrite (qmin_half _ _ (w + 2 * dx) (w - 2 * dx)).
    - unfold room, Qeq. simpl. lia.
    - done.
    - unfold Py.half, Qeq. simpl. lia. }
  assert (Hmy : (2 * Py.qmin (Py.half h + inject_Z dy) (inject_Z h - (Py.half h + inject_Z dy))
                 == inject_Z (room h dy))%Q).
  { rewrite (qmin_half _ _ (h + 2 * dy) (h - 2 * dy)).
    - unfold room, Qeq. simpl. lia.
    - done.
    - unfold Py.half, Qeq. simpl. lia. }
  assert (Hq := qmin_int _ _ _ _ Hmx Hmy).
  assert (Hh1 : (shape im1).1 = h) by (by rewrite Hsh).
  assert (Hw1 : (shape im1).2 = w) by (by rewrite Hsh).
  assert (Hh0 : (Py.half h == h # 2)%Q) by done.
  assert (Hw0 : (Py.half w == w # 2)%Q) by done.
  assert (EA : (h + 2 * dy) mod 2 = 0).
  { replace (h + 2 * dy) with (h + dy * 2) by lia. rewrite Z.mod_add; lia. }
  assert (EB : (w + 2 * dx) mod 2 = 0).
  { replace (w + 2 * dx) with (w + dx * 2) by lia. rewrite Z.mod_add; lia. }
  assert (ER : room h dy mod 2 = 0).
  { unfold room. replace (h - 2 * Z.abs dy) with (h + (- Z.abs dy) * 2) by lia.
    rewrite Z.mod_add; lia. }
  assert (EC : room w dx mod 2 = 0).
  { unfold room. replace (w - 2 * Z.abs dx) with (w + (- Z.abs dx) * 2) by lia.
    rewrite Z.mod_add; lia. }
  assert (EM : Z.min (room w dx) (room h dy) mod 2 = 0)
    by (destruct (Z.min_spec (room w dx) (room h dy)) as [[_ ->]|[_ ->]]; done).
  assert (EhA : h / 2 + dy = (h + 2 * dy) / 2).
  { rewrite (Z.mul_comm 2 dy), Z.div_add; lia. }
  assert (EwB : w / 2 + dx = (w + 2 * dx) / 2).
  { rewrite (Z.mul_comm 2 dx), Z.div_add; lia. }
  rewrite EhA, EwB, Hh1, Hw1. unfold room in *.
  destruct (force_quadratic_win p); cbv beta iota zeta in *; cbn [fst snd] in *.
  - rewrite Hs1. cbn [fst snd]. split.
    + apply clip_image_centre; try done; fold h; fold w; lia.
    + apply (clip_image_centre im1 _ _ _ _ h w); try done; rewrite ?Hh1, ?Hw1; lia.
  - rewrite Hs1. cbn [fst snd]. split.
    + apply clip_image_centre; try done; fold h; fold w; lia.
    + apply (clip_image_centre im1 _ _ _ _ h w); try done; rewrite ?Hh1, ?Hw1; lia.
Qed.

(** Lines 981-1007.  For two windows of equal shape and a shift that
    leaves room on both sides of the moved centre, the two clips have the
    same shape: what is left around the moved centre, [n - 2 |d|] cells
    along each axis, cut to a square when quadratic windows are forced.
    On windows with even numbers of rows and columns and a shift that
    leaves at least two cells, the cell the shift points to,
    [(rows // 2 + dy, columns // 2 + dx)], is the centre of the clip of the
    reference window, and the centre of the target window is the centre of
    its clip. *)
Theorem deshifted_images_are_centred_on_the_shift (p : params) (im0 im1 : ndarray F)
    (dx dy : Z) :
  shape im1 = shape im0 ->
  2 * Z.abs dy <= (shape im0).1 -> 2 * Z.abs dx <= (shape im0).2 ->
  shape (_get_grossly_deshifted_images p im0 im1 dx dy).2
  = shape (_get_grossly_deshifted_images p im0 im1 dx dy).1
  /\ shape (_get_grossly_deshifted_images p im0 im1 dx dy).1
     = (if force_quadratic_win p
        then (Z.min (room (shape im0).2 dx) (room (shape im0).1 dy),
              Z.min (room (shape im0).2 dx) (room (shape im0).1 dy))
        else (room (shape im0).1 dy, room (shape im0).2 dx))
  /\ (wf_array im0 -> wf_array im1 ->
      (shape im0).1 mod 2 = 0 -> (shape im0).2 mod 2 = 0 ->
      2 * Z.abs dy < (shape im0).1 -> 2 * Z.abs dx < (shape im0).2 ->
      cell (_get_grossly_deshifted_images p im0 im1 dx dy).1
           (Z.to_nat ((shape (_get_grossly_deshifted_images p im0 im1 dx dy).1).1 / 2))
           (Z.to_nat ((shape (_get_grossly_deshifted_images p im0 im1 dx dy).1).2 / 2))
      = cell im0 (Z.to_nat ((shape im0).1 / 2 + dy)) (Z.to_nat ((shape im0).2 / 2 + dx))
      /\ cell (_get_grossly_deshifted_images p im0 im1 dx dy).2
              (Z.to_nat ((shape (_get_grossly_deshifted_images p im0 im1 dx dy).2).1 / 2))
              (Z.to_nat ((shape (_get_grossly_deshifted_images p im0 im1 dx dy).2).2 / 2))
         = cell im1 (Z.to_nat ((shape im1).1 / 2)) (Z.to_nat ((shape im1).2 / 2))).
Proof.
  intros Hsh Hdy Hdx.
  destruct (deshifted_shapes p im0 im1 dx dy Hsh Hdy Hdx) as [H1 H2].
  split; [done|]. split; [done|]. intros. by apply deshifted_centres.
Qed.

End Deshift.

Lemma deshifted_images_are_centred_on_the_shift_witness :
  shape (_get_grossly_deshifted_images Example.default_params
           (Example.impulse_16 8 9) (Example.impulse_16 8 8) 1 0).2
  = shape (_get_grossly_deshifted_images Example.default_params
             (Example.impulse_16 8 9) (Example.impulse_16 8 8) 1 0).1
  /\ shape (_get_grossly_deshifted_images Example.default_params
              (Example.impulse_16 8 9) (Example.impulse_16 8 8) 1 0).1
     = (14, 14)
  /\ cell (_get_grossly_deshifted_images Example.default_params
             (Example.impulse_16 8 9) (Example.impulse_16 8 8) 1 0).1 7 7
     = Some 1%float
  /\ cell (_get_grossly_deshifted_images Example.default_params
             (Example.impulse_16 8 9) (Example.impulse_16 8 8) 1 0).2 7 7
     = Some 1%float.
Proof.
  destruct (deshifted_images_are_centred_on_the_shift Example.default_params
              (Example.impulse_16 8 9) (Example.impulse_16 8 8) 1 0)
    as (H1 & H2 & H3).
  - reflexivity.
  - vm_compute. discriminate.
  - vm_compute. discriminate.
  - split; [exact H1|]. split; [rewrite H2; reflexivity|].
    destruct H3 as [H3 H4].
    + unfold wf_array. vm_compute. repeat constructor.
    + unfold wf_array. vm_compute. repeat constructor.
    + reflexivity.
    + reflexivity.
    + vm_compute. reflexivity.
    + vm_compute. reflexivity.
    + split; [rewrite H2 in H3; exact H3|].
      rewrite H1, H2 in H4. exact H4.
Defined.

(** ** The sub-pixel shifts: small spectra, and the size of the shifts *)

Section SmallSpectrum.
Context {F : Type} `{Numeric F}.

(** An index at or beyond the length is an [IndexError]. *)
Lemma getitem_beyond {A} (l : list A) (i : Z) :
  Z.of_nat (length l) <= i -> Py.getitem l i = None.
Proof.
  intros Hi. unfold Py.getitem. destruct (Z.ltb_spec i 0); [lia|].
  apply lookup_ge_None. lia.
Qed.

Lemma half_plus_one (n : nat) : (n < 3)%nat -> Z.of_nat n <= Z.of_nat n / 2 + 1.
Proof.
  intros Hn. assert (Hc : n = 0%nat \/ n = 1%nat \/ n = 2%nat) by lia.
  destruct Hc as [E|[E|E]]; subst n; done.
Qed.

(** Lines 1009-1032 and 1091-1095.  The sub-pixel shifts are computed
    exactly for the spectra with at least three rows and three columns; on
    a smaller spectrum the call fails, with the [IndexError] of the
    neighbour right of or below the centre [(rows // 2, columns // 2)] (the
    neighbours left of and above it are read with the index -1, the last
    cell, when the centre is in the first column or row). *)
Theorem subpixel_shifts_need_three_rows_and_columns (scps : ndarray F) :
  wf_array scps ->
  (_calc_subpixel_shifts scps = None <-> (height scps < 3 \/ width scps < 3)%nat).
Proof.
  intros Hwf. split.
  - intros Hnone.
    destruct (Nat.lt_ge_cases (height scps) 3) as [|Hh]; [by left|].
    destruct (Nat.lt_ge_cases (width scps) 3) as [|Hw]; [by right|]. exfalso.
    set (pR := (height scps / 2)%nat). set (pC := (width scps / 2)%nat).
    assert (HpR : (1 <= pR /\ pR + 1 < height scps)%nat).
    { subst pR. pose proof (Nat.div_mod_eq (height scps) 2).
      pose proof (Nat.mod_upper_bound (height scps) 2). lia. }
    assert (HpC : (1 <= pC /\ pC + 1 < width scps)%nat).
    { subst pC. pose proof (Nat.div_mod_eq (width scps) 2).
      pose proof (Nat.mod_upper_bound (width scps) 2). lia. }
    destruct (cell_is_Some scps pR (pC - 1) Hwf) as [sm_left El]; [lia|lia|].
    destruct (cell_is_Some scps pR (pC + 1) Hwf) as [sm_right Er]; [lia|lia|].
    destruct (cell_is_Some scps (pR - 1) pC Hwf) as [sm_above Ea]; [lia|lia|].
    destruct (cell_is_Some scps (pR + 1) pC Hwf) as [sm_below Eb]; [lia|lia|].
    destruct (np_max_is_Some scps Hwf) as [mx Emx]; [lia|lia|].
    destruct (column_is_Some scps pC Hwf) as [profileY EY]; [lia|].
    revert Hnone. unfold _calc_subpixel_shifts, _find_side_maximum, shape. cbn [fst snd].
    assert (EZR : Z.of_nat (height scps) / 2 = Z.of_nat pR).
    { subst pR. by rewrite Nat2Z.inj_div. }
    assert (EZC : Z.of_nat (width scps) / 2 = Z.of_nat pC).
    { subst pC. by rewrite Nat2Z.inj_div. }
    rewrite EZR, EZC, !Nat2Z.id.
    unfold cell in El, Er.
    destruct (data scps !! pR) as [profileX|] eqn:EX; [|done]. simpl in El, Er. simpl.
    rewrite EY. simpl.
    rewrite !getitem_nonneg by lia.
    replace (Z.to_nat (Z.of_nat pC - 1)) with (pC - 1)%nat by lia.
    replace (Z.to_nat (Z.of_nat pC + 1)) with (pC + 1)%nat by lia.
    replace (Z.to_nat (Z.of_nat pR - 1)) with (pR - 1)%nat by lia.
    replace (Z.to_nat (Z.of_nat pR + 1)) with (pR + 1)%nat by lia.
    rewrite El, Er. simpl.
    rewrite !(column_lookup scps pC profileY _ EY), Ea, Eb. simpl.
    rewrite Emx. simpl. done.
  - intros Hsmall. unfold _calc_subpixel_shifts.
    assert (Hside : _find_side_maximum scps = None); [|by rewrite Hside].
    unfold _find_side_maximum, shape. cbn [fst snd].
    destruct (data scps !! Z.to_nat (Z.of_nat (height scps) / 2)) as [profileX|] eqn:EX;
      [|done]. simpl.
    destruct (mapM _ (data scps)) as [profileY|] eqn:EY; [|done]. simpl.
    assert (HlX : length profileX = width scps).
    { unfold wf_array in Hwf. rewrite Forall_lookup in Hwf. by apply (Hwf _ _ EX). }
    assert (HlY : length profileY = height scps).
    { apply mapM_Some, Forall2_length in EY. by rewrite <- EY. }
    destruct (Py.getitem profileX (Z.of_nat (width scps) / 2 - 1)) as [sm_left|];
      simpl; [|done].
    destruct Hsmall as [Hh|Hw].
    + destruct (Py.getitem profileX (Z.of_nat (width scps) / 2 + 1)) as [sm_right|];
        simpl; [|done].
      destruct (Py.getitem profileY (Z.of_nat (height scps) / 2 - 1)) as [sm_above|];
        simpl; [|done].
      rewrite getitem_beyond; [done|]. rewrite HlY. by apply half_plus_one.
    + rewrite (getitem_beyond profileX (Z.of_nat (width scps) / 2 + 1)).
      { reflexivity. } rewrite HlX. by apply half_plus_one.
Qed.

End SmallSpectrum.

Lemma subpixel_shifts_need_three_rows_and_columns_witness :
  _calc_subpixel_shifts Example.scps_3x3 = None
  <-> (height Example.scps_3x3 < 3 \/ width Example.scps_3x3 < 3)%nat.
Proof.
  apply (subpixel_shifts_need_three_rows_and_columns Example.scps_3x3).
  unfold wf_array. simpl. repeat constructor.
Defined.

(** The side maxima are cells of the spectrum. *)
Lemma getitem_elem_of {A} (l : list A) (i : Z) (v : A) : Py.getitem l i = Some v -> v ∈ l.
Proof.
  unfold Py.getitem. destruct (i <? 0); [destruct (0 <=? _); [|done]|];
    by apply list_elem_of_lookup_2.
Qed.

Lemma elem_of_flatten {F} (a : ndarray F) (row : list F) (v : F) :
  row ∈ data a -> v ∈ row -> v ∈ flatten a.
Proof.
  intros Hr Hv. unfold flatten. apply list_elem_of_In, in_concat.
  exists row. split; by apply list_elem_of_In.
Qed.

Lemma column_elem_of {F} (a : ndarray F) (c : nat) (col : list F) (v : F) :
  mapM (fun row => row !! c) (data a) = Some col -> v ∈ col -> v ∈ flatten a.
Proof.
  intros Hcol Hv. apply mapM_Some in Hcol.
  apply list_elem_of_lookup in Hv as [i Hi].
  destruct (Forall2_lookup_r _ _ _ _ _ Hcol Hi) as (row & Hrow & Hc).
  eapply elem_of_flatten; by eapply list_elem_of_lookup_2.
Qed.

(** [max] over exact numbers is an upper bound. *)
Lemma fold_max_upper (l : list Q) : forall best : Q,
  (best <= fold_left (fun b y => if fgtb y b then y else b) l best)%Q
  /\ Forall (fun x => x <= fold_left (fun b y => if fgtb y b then y else b) l best)%Q l.
Proof.
  induction l as [|x t IH]; intros best; simpl.
  - split; [apply Qle_refl|constructor].
  - destruct (negb (Qle_bool x best)) eqn:E.
    + apply negb_true_iff, Qle_bool_false in E. destruct (IH x) as [H1 H2].
      split; [|by constructor]. eapply Qle_trans; [|exact H1]. by apply Qlt_le_weak.
    + apply negb_false_iff, Qle_bool_iff in E. destruct (IH best) as [H1 H2].
      split; [done|]. constructor; [|done]. by eapply Qle_trans.
Qed.

Lemma np_max_upper (a : ndarray Q) (mx v : Q) :
  np_max a = Some mx -> v ∈ flatten a -> (v <= mx)%Q.
Proof.
  unfold np_max, Py.max_by. destruct (flatten a) as [|x t]; [done|]. intros [= <-] Hv.
  destruct (fold_max_upper t x) as [H1 H2].
  apply elem_of_cons in Hv as [->|Hv]; [done|].
  rewrite Forall_forall in H2. by apply H2.
Qed.

(** [d * v / (mx + v)] for a direction [d] and a side maximum [v] below
    the maximum [mx]. *)
Lemma subshift_bound (d : Z) (v mx : Q) :
  d = -1 \/ d = 1 -> (0 <= v)%Q -> (v <= mx)%Q -> (0 < mx)%Q ->
  (Qabs (inject_Z d * v / (mx + v)) <= 1 # 2)%Q.
Proof.
  intros Hd Hv Hle Hmx. assert (Ht : (0 < mx + v)%Q) by lra.
  apply Qabs_Qle_condition. split.
  - apply Qle_shift_div_l; [done|]. destruct Hd as [-> | ->]; unfold inject_Z; lra.
  - apply Qle_shift_div_r; [done|]. destruct Hd as [-> | ->]; unfold inject_Z; lra.
Qed.

(** Lines 1009-1032 and 1091-1095, with exact numbers.  For a spectrum
    without negative cells whose maximum is positive, both sub-pixel shifts
    are within half a pixel. *)
Theorem subpixel_shifts_are_within_half_a_pixel (scps : ndarray Q) (mx : Q) (sub : Q * Q) :
  Forall (fun v => 0 <= v)%Q (flatten scps) ->
  np_max scps = Some mx -> (0 < mx)%Q ->
  _calc_subpixel_shifts scps = Some sub ->
  (Qabs sub.1 <= 1 # 2)%Q /\ (Qabs sub.2 <= 1 # 2)%Q.
Proof.
  intros Hpos Hmx Hgt. unfold _calc_subpixel_shifts, _find_side_maximum.
  destruct (data scps !! _) as [profileX|] eqn:EX; [|done]. simpl.
  destruct (mapM _ (data scps)) as [profileY|] eqn:EY; [|done]. simpl.
  destruct (Py.getitem profileX (_ - 1)) as [sm_left|] eqn:El; [|done]. simpl.
  destruct (Py.getitem profileX (_ + 1)) as [sm_right|] eqn:Er; [|done]. simpl.
  destruct (Py.getitem profileY (_ - 1)) as [sm_above|] eqn:Ea; [|done]. simpl.
  destruct (Py.getitem profileY (_ + 1)) as [sm_below|] eqn:Eb; [|done]. simpl.
  rewrite Hmx. simpl. intros [= <-]. cbn [fst snd].
  rewrite Forall_forall in Hpos.
  assert (Hin : forall v, v ∈ [sm_left; sm_right; sm_above; sm_below] -> v ∈ flatten scps).
  { intros v Hv. apply list_elem_of_lookup_2 in EX.
    rewrite !elem_of_cons in Hv. destruct Hv as [->|[->|[->|[->|Hv]]]].
    1,2: eapply elem_of_flatten; [done|by eapply getitem_elem_of].
    1,2: eapply column_elem_of; [done|by eapply getitem_elem_of].
    by apply elem_of_nil in Hv. }
  split; apply subshift_bound; try done.
  all: try (unfold Py.max2; simpl; destruct (negb _); first [apply Hpos|eapply np_max_upper; [done|]];
            apply Hin; set_solver).
  all: destruct (negb _); auto.
Qed.

Lemma subpixel_shifts_are_within_half_a_pixel_witness :
  _calc_subpixel_shifts Example.scps_3x3 = Some (4 # 13, 5 # 14)%Q
  /\ (Qabs (4 # 13, 5 # 14).1 <= 1 # 2)%Q /\ (Qabs (4 # 13, 5 # 14).2 <= 1 # 2)%Q.
Proof.
  split; [vm_compute; reflexivity|].
  apply (subpixel_shifts_are_within_half_a_pixel Example.scps_3x3 9%Q (4 # 13, 5 # 14)%Q).
  - vm_compute. repeat constructor; discriminate.
  - vm_compute. reflexivity.
  - reflexivity.
  - vm_compute. reflexivity.
Defined.

(** ** The result of the search for the integer shifts *)

Section Stage.
Context {F polygon : Type} `{Numeric F} `{!NumpyStats F} `{!Geometry F polygon}
  `{!Pipeline F polygon}.

(** One validation of a shift that is not (0, 0): a 'valid' result comes
    with the shifts (0, 0) and a spectrum whose peak is at the centre; an
    'invalid' one with a shift that is not (0, 0), or without shift and
    with [success] False. *)
Lemma validate_result im0 im1 x y (s : COREG F polygon) :
  (x =? 0) && (y =? 0) = false ->
  wp (_validate_integer_shifts im0 im1 x y)
     (fun v s' => cfg s' = cfg s /\ validate_calls s' = S (validate_calls s)
        /\ (is_valid v = true -> val_shift v = Some (0, 0) /\ centred (val_scps v))
        /\ (is_valid v = false ->
            match val_shift v with
            | Some (x', y') => (x' =? 0) && (y' =? 0) = false
            | None => success s' = Some false
            end))
     (fun _ s' => cfg s' = cfg s /\ validate_calls s' = S (validate_calls s)) s.
Proof.
  intros Hxy. unfold _validate_integer_shifts, _calc_shifted_cross_power_spectrum.
  rewrite Hxy. cbn [negb].
  wp_step. wp_step. wp_step. wp_step.
  destruct (_get_grossly_deshifted_images _ _ _ _ _) as [g c].
  wp_go; simpl; repeat split; try done.
  all: try (eexists; split; [done|]).
  all: match goal with
       | Hp : _get_peakpos ?a = Some ?p, Hs : _get_shifts_from_peakpos ?p _ = (?x', ?y'),
         Hz : (?x' =? 0) && (?y' =? 0) = true |- _ =>
           unfold _calc_integer_shifts; rewrite Hp; simpl; rewrite Hs;
           apply andb_true_iff in Hz as [Hx Hy]; apply Z.eqb_eq in Hx, Hy; by subst
       | _ => idtac
       end.
Qed.

(** The [while] loop, entered with a shift to validate that is not (0, 0). *)
Lemma validation_loop_result (fuel : nat) im0 im1 :
  forall (L : @locals F) (s : COREG F polygon),
  max_iter (cfg s) - count_iter L <= Z.of_nat fuel ->
  (valid_invalid L = false ->
   forall x y, xy_val_shift L = Some (x, y) -> (x =? 0) && (y =? 0) = false) ->
  wp (validation_loop fuel im0 im1 L) (loop_result L s) (fun _ _ => True) s.
Proof.
  induction fuel as [|fuel IH]; intros L s Hfuel Hnz.
  - unfold validation_loop, loop_result.
    wp_go; bools; simpl; repeat split; try done; try lia; try congruence.
  - cbn [validation_loop].
    destruct (valid_invalid L) eqn:Hv.
    { wp_step. unfold loop_result. repeat split; try done; congruence. }
    wp_step. wp_step. cbv beta. cbn [count_iter xy_val_shift x_intshift y_intshift].
    destruct (count_iter L + 1 >? max_iter (cfg s)) eqn:Hc; bools.
    { unfold loop_result. wp_go; simpl; repeat split; try done; congruence. }
    destruct (xy_val_shift L) as [[xv yv]|] eqn:Hxy.
    2:{ unfold loop_result. wp_go; simpl; repeat split; try done; congruence. }
    wp_step. eapply wp_mono; [by apply validate_result, Hnz|cbv beta|done].
    intros v s1 (Hcfg & Hn & Hval & Hinv).
    wp_step.
    assert (Hnext : forall (xy : Z * Z) (s2 : COREG F polygon),
               cfg s2 = cfg s1 -> validate_calls s2 = validate_calls s1 ->
               (is_valid v = true -> xy = (0, 0)) ->
               (is_valid v = false -> xy = (x_intshift L, y_intshift L)) ->
               (is_valid v = false -> val_shift v = None -> success s2 = Some false) ->
               wp (validation_loop fuel im0 im1
                     {| valid_invalid := is_valid v; xy_val_shift := val_shift v;
                        scps := val_scps v; x_intshift := xy.1; y_intshift := xy.2;
                        count_iter := count_iter L + 1 |})
                  (loop_result L s) (fun _ _ => True) s2).
    { intros xy s2 Hc2 Hn2 Hxy1 Hxy2 Hs2.
      eapply wp_mono; [apply IH|cbv beta|done].
      - cbn [count_iter]. rewrite Hc2, Hcfg. lia.
      - cbn [xy_val_shift valid_invalid]. intros E x y Hvs.
        specialize (Hinv E). by rewrite Hvs in Hinv.
      - intros L' s' (Hc' & Hle & Hkeep & Hrun). unfold loop_result.
        cbn [valid_invalid x_intshift y_intshift] in Hkeep, Hrun.
        split; [congruence|]. split; [lia|]. split; [congruence|]. intros _.
        destruct (is_valid v) eqn:E.
        + destruct (Hkeep eq_refl) as [-> ->]. destruct (Hval eq_refl) as [Hz Hcen].
          cbn [valid_invalid x_intshift y_intshift scps].
          split; [|done]. intros _. rewrite (Hxy1 eq_refl). simpl.
          repeat split; try done. lia.
        + destruct (Hrun eq_refl) as [Hvalid Hinvalid]. split.
          * intros HL'. destruct (Hvalid HL') as (? & ? & ? & ?).
            repeat split; try done. lia.
          * intros HL'. destruct (Hinvalid HL') as (Hx & Hy & Hs).
            rewrite (Hxy2 eq_refl) in Hx, Hy. done. }
    wp_step. destruct (is_valid v) eqn:Hvalid.
    + wp_step. destruct (Hval eq_refl) as [Hz _].
      apply Hnext; simpl; try done. intros _. by rewrite Hz.
    + apply Hnext; try done. intros _ Hnone. specialize (Hinv eq_refl).
      by rewrite Hnone in Hinv.
Qed.

(** Lines 1261-1296.  The search for the integer shifts ends.  When it
    ends with a valid match, the spectrum it hands on has its peak at the
    centre, and the integer shifts are those of the first spectrum if at
    most one validation was done, and (0, 0) if the match was found by a
    later validation.  When it ends without a match, [success] is False and
    the integer shifts are those of the first spectrum. *)
Theorem valid_match_has_a_centred_peak (s : COREG F polygon) (im0 im1 scps0 : ndarray F) :
  wp (integer_shift_stage im0 im1 scps0)
     (fun L s' =>
        (valid_invalid L = true ->
         centred (scps L)
         /\ ((validations s s' <= 1
              /\ _calc_integer_shifts scps0 = Some (x_intshift L, y_intshift L))
             \/ (2 <= validations s s' /\ x_intshift L = 0 /\ y_intshift L = 0)))
        /\ (valid_invalid L = false ->
            success s' = Some false
            /\ _calc_integer_shifts scps0 = Some (x_intshift L, y_intshift L)))
     (fun _ _ => True) s.
Proof.
  unfold integer_shift_stage, validations.
  wp_step. wp_step. destruct (_calc_integer_shifts scps0) as [[x y]|] eqn:Hint; [|done].
  destruct ((x =? 0) && (y =? 0)) eqn:Hz.
  { wp_step. wp_step. wp_step. simpl. split; [|done]. intros _.
    apply andb_true_iff in Hz as [Hx Hy]. apply Z.eqb_eq in Hx, Hy. subst.
    split; [by exists scps0|]. left. split; [lia|done]. }
  wp_step. eapply wp_mono; [by apply validate_result|cbv beta|done].
  intros v s1 (Hcfg & Hn & Hval & Hinv). wp_step. wp_step.
  eapply wp_mono; [apply validation_loop_result|cbv beta|done].
  - cbn [count_iter]. lia.
  - cbn [xy_val_shift valid_invalid]. intros E x' y' Hvs.
    specialize (Hinv E). by rewrite Hvs in Hinv.
  - intros L' s' (Hc' & Hle & Hkeep & Hrun). cbn [valid_invalid] in Hkeep, Hrun.
    destruct (is_valid v) eqn:E.
    + destruct (Hkeep eq_refl) as [-> ->]. cbn [valid_invalid scps x_intshift y_intshift].
      split; [|done]. intros _. destruct (Hval eq_refl) as [_ Hcen].
      split; [done|]. left. split; [lia|done].
    + destruct (Hrun eq_refl) as [Hvalid Hinvalid]. cbn [x_intshift y_intshift] in *. split.
      * intros HL'. destruct (Hvalid HL') as (? & ? & ? & ?).
        split; [done|]. right. repeat split; try done. lia.
      * intros HL'. destruct (Hinvalid HL') as (-> & -> & Hs). done.
Qed.

End Stage.

(** A match found by the second validation: the first spectrum has its
    peak two columns right of the centre, the spectrum of the windows
    de-shifted by these two columns one column right of it, and the
    spectrum of the windows de-shifted by that one column at the centre.
    The run succeeds after two validations and reports a shift of zero
    pixels. *)
Lemma second_validation_resets_the_integer_shifts :
  validate_calls <$> final_state Example.two_step_run = Some 2%nat
  /\ success <$> final_state Example.two_step_run = Some (Some true)
  /\ x_shift_px <$> final_state Example.two_step_run = Some (Some 0%float).
Proof. split; [|split]; vm_compute; reflexivity. Qed.

(** ** The outcome of a run *)

Section Outcome.
Context {F polygon : Type} `{Numeric F} `{!NumpyStats F} `{!Geometry F polygon}
  `{!Pipeline F polygon}.

(** Lines 1298-1318 leave [success] False, or True with all shifts set. *)
Lemma subpixel_decides g L (s : COREG F polygon) :
  wp (subpixel_stage g L)
     (fun _ s' => success s' = Some false \/ (success s' = Some true /\ shifts_set s'))
     (fun _ _ => True) s.
Proof.
  unfold subpixel_stage, shifts_set.
  wp_go; simpl; first [done|by left|right; by repeat split].
Qed.

(** Lines 1340-1345 change neither [success] nor the shifts. *)
Lemma report_keeps_shifts L (s : COREG F polygon) :
  wp (report_stage L)
     (fun _ s' => success s' = success s /\ same_shifts s s') (fun _ _ => True) s.
Proof.
  unfold report_stage, _get_updated_map_info, mapinfo_float, same_shifts.
  wp_go; simpl; by repeat split.
Qed.

(** Lines 1261-1296 end. *)
Lemma stage_ends im0 im1 scps0 (s : COREG F polygon) :
  wp (integer_shift_stage im0 im1 scps0) (fun _ _ => True) (fun _ _ => True) s.
Proof. eapply wp_mono; [apply integer_stage_counts|done..]. Qed.

(** Lines 1221-1349.  A call of [calculate_spatial_shifts] ends.  When it
    returns, it returns 'fail' or 'success'; [success] is then True or
    False, never None; 'fail' is returned only with [success] False, and
    at once, leaving the object as it is, when [success] was False at the
    call; and with [success] True all four shifts are set.  ('success' is
    also returned with [success] False, when an error was ignored.) *)
Theorem outcome_of_a_run (s : COREG F polygon) :
  wp calculate_spatial_shifts (run_outcome s) (fun _ _ => True) s.
Proof.
  unfold calculate_spatial_shifts, run_outcome. wp_step. wp_step. cbv beta.
  destruct (success s) as [[|]|] eqn:Hs; [|wp_step; by repeat split; auto|].
  all: unfold _get_image_windows_to_match, _calc_shifted_cross_power_spectrum.
  all: wp_go; try done; simpl.
  all: try (repeat split; try done; by auto).
  all: (eapply wp_mono; [apply stage_ends|cbv beta|done]); intros L s3 _.
  all: wp_step; (eapply wp_mono; [apply subpixel_decides|cbv beta|done]); intros _ s4 H4.
  all: wp_step; (eapply wp_mono; [apply report_keeps_shifts|cbv beta|done]).
  all: intros _ s5 (H5 & Hx & Hy & Hxm & Hym); wp_step.
  all: split; [by right|]; split; [done|]; split; [done|].
  all: unfold shifts_set in *; rewrite H5, Hx, Hy, Hxm, Hym; done.
Qed.

End Outcome.

(** 'success' with [success] False: errors are ignored and the peak lies
    seven columns right of the centre, so that the de-shifted windows are
    too small for a spectrum; the error is logged, no shift is set, and
    the run returns 'success'. *)
Lemma success_is_returned_with_an_ignored_error :
  match Example.impulse_run Example.ignoring_errors
          Example.fimage_10m Example.fimage_10m 8 15 with
  | Ok r s' => r = "success" /\ success s' = Some false
               /\ tracked_errors s' = [RuntimeError MatchingWindowTooSmall]
               /\ x_shift_px s' = None
  | _ => False
  end.
Proof. vm_compute. repeat split; reflexivity. Qed.

(** ** The updated map info *)

Section MapInfo.
Context {F polygon : Type} `{Numeric F} `{!NumpyStats F} `{!Geometry F polygon}
  `{!Pipeline F polygon}.

(** Lines 1351-1358.  With the map shifts set and a map info whose entries
    3 and 4 are numbers, the updated map info is the map info of the target
    with the X shift added to entry 3 and the Y shift to entry 4, all other
    entries and the length as they were.  The copy is assigned before the
    entries are computed: when a map shift is None, the [TypeError] leaves
    [updated_map_info] holding the map info not updated, or updated in
    entry 3 only. *)
Theorem updated_map_info_moves_the_origin (s : COREG F polygon) (m : list (mi F))
    (v3 v4 : F) :
  geotransform2mapinfo (gt (shift s)) (prj (shift s)) = m ->
  m !! 3%nat = Some (MiNum v3) -> m !! 4%nat = Some (MiNum v4) ->
  match x_shift_map s, y_shift_map s with
  | Some x, Some y =>
      exists m', _get_updated_map_info s = Ok tt (set_updated_map_info m' s)
        /\ length m' = length m
        /\ m' !! 3%nat = Some (MiNum (fadd v3 x))
        /\ m' !! 4%nat = Some (MiNum (fadd v4 y))
        /\ forall i, i <> 3%nat -> i <> 4%nat -> m' !! i = m !! i
  | Some x, None =>
      _get_updated_map_info s
      = Raised TypeError (set_updated_map_info (<[3%nat := MiNum (fadd v3 x)]> m) s)
  | None, _ => _get_updated_map_info s = Raised TypeError (set_updated_map_info m s)
  end.
Proof.
  intros Hm H3 H4.
  unfold _get_updated_map_info, mapinfo_float, bind, get, modify, or_raise, ret, raise.
  rewrite Hm. simpl. rewrite H3, H4.
  destruct (x_shift_map s) as [x|] eqn:Hx; [|done].
  destruct (y_shift_map s) as [y|] eqn:Hy; [|done].
  eexists. split; [done|].
  assert (Hl3 : (3 < length m)%nat) by (apply lookup_lt_is_Some; by eexists).
  assert (Hl4 : (4 < length m)%nat) by (apply lookup_lt_is_Some; by eexists).
  rewrite !length_insert. split; [done|]. split; [|split].
  - rewrite list_lookup_insert_ne by done. by rewrite list_lookup_insert_eq.
  - rewrite list_lookup_insert_eq; [done|]. by rewrite length_insert.
  - intros i Hi3 Hi4. by rewrite !list_lookup_insert_ne.
Qed.

End MapInfo.

Lemma updated_map_info_moves_the_origin_witness :
  match x_shift_map Example.after_run, y_shift_map Example.after_run with
  | Some x, Some y =>
      exists m',
        @_get_updated_map_info float (Example.rect float) _ _ Example.after_run
        = Ok tt (set_updated_map_info m' Example.after_run)
        /\ length m'
           = length (Example.envi_mapinfo (gt (shift Example.after_run))
                       (prj (shift Example.after_run)))
        /\ m' !! 3%nat = Some (MiNum (fadd 0%float x))
        /\ m' !! 4%nat = Some (MiNum (fadd 1000%float y))
        /\ forall i, i <> 3%nat -> i <> 4%nat ->
             m' !! i = Example.envi_mapinfo (gt (shift Example.after_run))
                         (prj (shift Example.after_run)) !! i
  | Some x, None =>
      @_get_updated_map_info float (Example.rect float) _ _ Example.after_run
      = Raised TypeError
          (set_updated_map_info
             (<[3%nat := MiNum (fadd 0%float x)]>
                (Example.envi_mapinfo (gt (shift Example.after_run))
                   (prj (shift Example.after_run)))) Example.after_run)
  | None, _ =>
      @_get_updated_map_info float (Example.rect float) _ _ Example.after_run
      = Raised TypeError
          (set_updated_map_info
             (Example.envi_mapinfo (gt (shift Example.after_run))
                (prj (shift Example.after_run))) Example.after_run)
  end.
Proof.
  apply (updated_map_info_moves_the_origin Example.after_run
           (Example.envi_mapinfo (gt (shift Example.after_run))
              (prj (shift Example.after_run))) 0%float 1000%float).
  - reflexivity.
  - vm_compute. reflexivity.
  - vm_compute. reflexivity.
Defined.

(** ** The report is built once *)

Section Cache.
Context {F polygon : Type} `{Numeric F} `{!NumpyStats F} `{!Geometry F polygon}
  `{!Pipeline F polygon}.

(** Whether a report is cached depends on [_coreg_info] and the dict
    objects only. *)
Lemma cached_report_ext (s s' : COREG F polygon) :
  _coreg_info s' = _coreg_info s -> heap s' = heap s -> cached_report s' = cached_report s.
Proof. intros Hc Hh. unfold cached_report. by rewrite Hc, Hh. Qed.

(** Lines 1365-1366. *)
Lemma coreg_info_hit (s : COREG F polygon) l :
  cached_report s = Some l -> coreg_info s = Ok l s.
Proof. intros Hc. unfold coreg_info, bind, get. by rewrite Hc. Qed.

(** The report built by lines 1370-1380 from any state is cached. *)
Lemma report_is_cached (s : COREG F polygon) E :
  wp (s <- get ;;
      let '(gt0, gt1, _, gt3, _, gt5) := gt (ref s) in
      px <- alloc (<["x" := of_opt (x_shift_px s)]> (<["y" := of_opt (y_shift_px s)]> ∅)) ;;
      mp <- alloc (<["x" := of_opt (x_shift_map s)]> (<["y" := of_opt (y_shift_map s)]> ∅)) ;;
      ext <- alloc (<["cols" := VNum (xgsd (ref s))]> (<["rows" := VNum (ygsd (ref s))]> ∅)) ;;
      l <- alloc (<["corrected_shifts_px" := VRef px]>
                 (<["corrected_shifts_map" := VRef mp]>
                 (<["original map info" :=
                      VMapInfo (geotransform2mapinfo (gt (shift s)) (prj (shift s)))]>
                 (<["updated map info" :=
                      match updated_map_info s with Some m => VMapInfo m | None => VNone end]>
                 (<["reference projection" := VStr (prj (ref s))]>
                 (<["reference geotransform" := VGt (gt (ref s))]>
                 (<["reference grid" := VGrid [[gt0; fadd gt0 gt1]; [gt3; fadd gt3 gt5]]]>
                 (<["reference extent" := VRef ext]>
                 (<["success" := match success s with Some b => VBool b | None => VNone end]>
                  ∅))))))))) ;;
      s <- get ;;
      modify (set_report (Some l) (heap s)) ;;
      ret l)
     (fun l s' => cached_report s' = Some l) E s.
Proof.
  wp_step. wp_step. cbv beta.
  destruct (gt (ref s)) as [[[[[gt0 gt1] gt2] gt3] gt4] gt5].
  wp_step. apply wp_alloc. intros lpx Hpx.
  wp_step. apply wp_alloc. intros lmp Hmp. norm.
  wp_step. apply wp_alloc. intros lext Hext. norm.
  wp_step. apply wp_alloc. intros l0 Hl0. norm.
  wp_step. wp_step. wp_step. wp_step. wp_step. cbv beta. norm.
  unfold cached_report. norm. simpl. rewrite lookup_insert_eq. simpl.
  by rewrite map_size_insert.
Qed.

(** Lines 1360-1381.  Reading [coreg_info] ends; when it returns, the
    report is cached: an object that already held a report is left as it
    is and gives that report, and from then on every read gives the same
    report without building it again, whatever the shifts and [success] of
    the object have become.  It raises only what the run of
    [calculate_spatial_shifts] raises that it starts itself, on an object
    without report whose [success] is None. *)
Theorem the_report_is_built_once (s : COREG F polygon) :
  wp coreg_info
     (fun l s' =>
        cached_report s' = Some l
        /\ (forall l0, cached_report s = Some l0 -> l = l0 /\ s' = s)
        /\ (forall s'', _coreg_info s'' = _coreg_info s' -> heap s'' = heap s' ->
                        coreg_info s'' = Ok l s''))
     (fun _ _ => cached_report s = None /\ success s = None) s.
Proof.
  assert (Hpost : forall l (s' : COREG F polygon),
             cached_report s' = Some l ->
             forall s'', _coreg_info s'' = _coreg_info s' -> heap s'' = heap s' ->
                         coreg_info s'' = Ok l s'').
  { intros l s' Hc s'' H1 H2. apply coreg_info_hit. by rewrite (cached_report_ext s' s''). }
  destruct (cached_report s) as [l0|] eqn:Hcache.
  { unfold wp. rewrite (coreg_info_hit s l0 Hcache). split; [done|].
    split; [by intros ? [= ->]|by apply Hpost]. }
  unfold coreg_info. wp_step. wp_step. cbv beta. rewrite Hcache. wp_step.
  destruct (success s) as [b|] eqn:Hs.
  - wp_step. eapply wp_mono; [apply (report_is_cached _ (fun _ _ => False))|cbv beta|done].
    intros l s' Hc. split; [done|]. split; [done|by apply Hpost].
  - wp_step. eapply wp_mono; [apply calculate_run|cbv beta|done].
    intros _ s1 _. wp_step. eapply wp_mono; [apply (report_is_cached _ (fun _ _ => False))|cbv beta|done].
    intros l s' Hc. split; [done|]. split; [done|by apply Hpost].
Qed.

End Cache.

(** ** Two inversions in a row *)

Section Twice.
Context {F polygon : Type} `{Numeric F} `{!NumpyStats F} `{!Geometry F polygon}
  `{!Pipeline F polygon}.

(** One inversion of a report held at [l0]. *)
Lemma inverted_once (s : COREG F polygon) l0 lpx lmp x y xm ym :
  reports s l0 lpx lmp (VNum x) (VNum y) (VNum xm) (VNum ym) ->
  wp _get_inverted_coreg_info
     (fun _ s' => reports s' l0 lpx lmp (VNum (fmul x (of_Z (-1)))) (VNum (fmul y (of_Z (-1))))
                    (VNum (fmul xm (of_Z (-1)))) (VNum (fmul ym (of_Z (-1))))
                  /\ same_shifts s s')
     (fun _ s' => reports s' l0 lpx lmp (VNum (fmul x (of_Z (-1)))) (VNum (fmul y (of_Z (-1))))
                    (VNum (fmul xm (of_Z (-1)))) (VNum (fmul ym (of_Z (-1))))
                  /\ same_shifts s s') s.
Proof.
  intros Hrep. unfold _get_inverted_coreg_info. wp_step.
  eapply wp_mono; [by eapply coreg_info_cached|cbv beta|done].
  intros l s1 [-> ->].
  eapply wp_copy_and_negate; [done|by repeat split|].
  intros linv s2 Hn0 Hnp Hnm Hrep2 Hsame2. wp_step. wp_step.
  assert (Hend : forall o s3, Rel_heap linv o s2 s3 ->
             reports s3 l0 lpx lmp (VNum (fmul x (of_Z (-1)))) (VNum (fmul y (of_Z (-1))))
               (VNum (fmul xm (of_Z (-1)))) (VNum (fmul ym (of_Z (-1))))
             /\ same_shifts s s3).
  { intros o s3 Hfr. split; [by eapply reports_frame|].
    destruct Hfr as (_ & _ & ? & ? & ? & ?), Hsame2 as (? & ? & ? & ?).
    repeat split; congruence. }
  eapply wp_mono; [apply (wp_frame (Rel_heap linv)), obeys_inverted_tail|..]; cbv beta;
    intros; by eapply Hend.
Qed.

(** The first inversion on an object with computed shifts. *)
Lemma inverted_first (s : COREG F polygon) x y xm ym b :
  success s = Some b ->
  x_shift_px s = Some x -> y_shift_px s = Some y ->
  x_shift_map s = Some xm -> y_shift_map s = Some ym ->
  cached_report s = None
  \/ (exists l0 lpx lmp, reports s l0 lpx lmp (VNum x) (VNum y) (VNum xm) (VNum ym)) ->
  wp _get_inverted_coreg_info
     (fun _ s' => (exists l0 lpx lmp,
                     reports s' l0 lpx lmp
                       (VNum (fmul x (of_Z (-1)))) (VNum (fmul y (of_Z (-1))))
                       (VNum (fmul xm (of_Z (-1)))) (VNum (fmul ym (of_Z (-1)))))
                  /\ same_shifts s s')
     (fun _ s' => report_shifts s' (fmul x (of_Z (-1))) (fmul y (of_Z (-1)))
                    (fmul xm (of_Z (-1))) (fmul ym (of_Z (-1)))
                  /\ same_shifts s s') s.
Proof.
  intros Hsucc Hx Hy Hxm Hym [Hnone|(l0 & lpx & lmp & Hrep)].
  - unfold _get_inverted_coreg_info. wp_step.
    eapply wp_mono; [by eapply coreg_info_builds|cbv beta|done].
    intros l0 s1 [(lpx & lmp & Hrep) Hsame].
    rewrite Hx, Hy, Hxm, Hym in Hrep. cbn [of_opt] in Hrep.
    eapply wp_copy_and_negate; [done..|].
    intros linv s2 Hn0 Hnp Hnm Hrep2 Hsame2. wp_step. wp_step.
    assert (Hend : forall o s3, Rel_heap linv o s2 s3 ->
               reports s3 l0 lpx lmp
                 (VNum (fmul x (of_Z (-1)))) (VNum (fmul y (of_Z (-1))))
                 (VNum (fmul xm (of_Z (-1)))) (VNum (fmul ym (of_Z (-1))))
               /\ same_shifts s s3).
    { intros o s3 Hfr. split; [by eapply reports_frame|].
      destruct Hfr as (_ & _ & ? & ? & ? & ?), Hsame2 as (? & ? & ? & ?).
      repeat split; congruence. }
    eapply wp_mono; [apply (wp_frame (Rel_heap linv)), obeys_inverted_tail|..]; cbv beta.
    + intros _ s3 Hfr. destruct (Hend _ _ Hfr). split; [by exists l0, lpx, lmp|done].
    + intros e s3 Hfr. destruct (Hend _ _ Hfr) as [Hr ?]. split; [|done].
      by apply reports_entries in Hr.
  - eapply wp_mono; [by eapply inverted_once|cbv beta..].
    + intros _ s1 [Hr Hsame]. split; [by exists l0, lpx, lmp|done].
    + intros _ s1 [Hr Hsame]. split; [|done]. by apply reports_entries in Hr.
Qed.

(** Lines 1383-1403, called twice.  On an object with computed shifts,
    whose report is not built yet or is cached with these shifts, and for
    shifts that two multiplications by -1 give back, the first call ends;
    when it returns, the second call ends as well, and after it the report
    the object keeps has its four shift entries back at the shifts of the
    object: the second call negates the nested dicts it shares with the
    report once more, and the report it returns is not inverted.  After a
    call that raised, the entries are the negated shifts (the first call)
    or the shifts (the second). *)
Theorem two_inversions_restore_the_report (s : COREG F polygon) (x y xm ym : F) b :
  success s = Some b ->
  x_shift_px s = Some x -> y_shift_px s = Some y ->
  x_shift_map s = Some xm -> y_shift_map s = Some ym ->
  cached_report s = None
  \/ (exists l0 lpx lmp, reports s l0 lpx lmp (VNum x) (VNum y) (VNum xm) (VNum ym)) ->
  fmul (fmul x (of_Z (-1))) (of_Z (-1)) = x -> fmul (fmul y (of_Z (-1))) (of_Z (-1)) = y ->
  fmul (fmul xm (of_Z (-1))) (of_Z (-1)) = xm ->
  fmul (fmul ym (of_Z (-1))) (of_Z (-1)) = ym ->
  wp (_get_inverted_coreg_info ;; _get_inverted_coreg_info)
     (fun _ s' => report_shifts s' x y xm ym /\ same_shifts s s')
     (fun _ s' => (report_shifts s' (fmul x (of_Z (-1))) (fmul y (of_Z (-1)))
                     (fmul xm (of_Z (-1))) (fmul ym (of_Z (-1)))
                   \/ report_shifts s' x y xm ym) /\ same_shifts s s') s.
Proof.
  intros Hsucc Hx Hy Hxm Hym Hcache Nx Ny Nxm Nym.
  wp_step. eapply wp_mono; [by eapply inverted_first|cbv beta|].
  - intros _ s1 [(l0 & lpx & lmp & Hrep) Hsame].
    assert (Hboth : forall s2 : COREG F polygon,
               reports s2 l0 lpx lmp
                 (VNum (fmul (fmul x (of_Z (-1))) (of_Z (-1))))
                 (VNum (fmul (fmul y (of_Z (-1))) (of_Z (-1))))
                 (VNum (fmul (fmul xm (of_Z (-1))) (of_Z (-1))))
                 (VNum (fmul (fmul ym (of_Z (-1))) (of_Z (-1))))
               /\ same_shifts s1 s2 ->
               report_shifts s2 x y xm ym /\ same_shifts s s2).
    { intros s2 [Hr Hsame2]. rewrite Nx, Ny, Nxm, Nym in Hr. split.
      - by apply reports_entries in Hr.
      - destruct Hsame as (? & ? & ? & ?), Hsame2 as (? & ? & ? & ?).
        repeat split; congruence. }
    eapply wp_mono; [by eapply inverted_once|cbv beta..].
    + intros _ s2 H2. by apply Hboth.
    + intros _ s2 H2. destruct (Hboth s2 H2). split; [by right|done].
  - intros e s1 [Hr Hsame]. split; [by left|done].
Qed.

End Twice.

Lemma two_inversions_restore_the_report_witness :
  x_shift_px Example.after_run = Some 1%float
  /\ @wp float (Example.rect float) loc
       (@_get_inverted_coreg_info float (Example.rect float) _ _ _
          (Example.impulse_pipeline {| arr := Example.impulse_16 8 9; win_imID := Ref |}
                                    {| arr := Example.impulse_16 8 8; win_imID := Shift |}) ;;
        @_get_inverted_coreg_info float (Example.rect float) _ _ _
          (Example.impulse_pipeline {| arr := Example.impulse_16 8 9; win_imID := Ref |}
                                    {| arr := Example.impulse_16 8 8; win_imID := Shift |}))
       (fun _ s' => report_shifts s' 1%float 0%float 10%float 0%float
                    /\ same_shifts Example.after_run s')
       (fun _ s' => (report_shifts s' (fmul 1%float (of_Z (-1))) (fmul 0%float (of_Z (-1)))
                       (fmul 10%float (of_Z (-1))) (fmul 0%float (of_Z (-1)))
                     \/ report_shifts s' 1%float 0%float 10%float 0%float)
                    /\ same_shifts Example.after_run s')
       Example.after_run.
Proof.
  split; [vm_compute; reflexivity|].
  apply (two_inversions_restore_the_report Example.after_run
           1%float 0%float 10%float 0%float true).
  6: left.
  all: vm_compute; reflexivity.
Defined.
